(** * Tunnel-Operator: the tunnel supervisor of [tunnel_manager.py]

    A shallow embedding of the class [TunnelManager]: the live map
    [active_tunnels] (a Python dict keyed by the port string), the three
    public operations [create_tunnel], [terminate_tunnel] and
    [get_tunnel_stats], and the snapshot written to [log.json].
    The class [Api] of [main.py], which drives the manager from the
    page, follows in the module [Api].

    Conventions of the embedding.
    - The dict [active_tunnels] is a [gmap string tunnel]; a tunnel record is
      the dict literal built by [create_tunnel], whose ten keys are always
      present, so it is a Rocq record.
    - A Python [str] is a [string]; characters are the code points 0..255.
    - A reading of [time.time()] is an integer number of microseconds.
    - Everything the operating system, the network and the clock decide
      (what [Popen] does, which lines the child prints and when, what
      [requests.get] returns or raises, which processes survive a signal)
      is an explicit argument of the operation that asks for it.
    - Effects on the outside world are appended to [effects], in program
      order.
    - The operations are embedded as run by one thread, from call to
      return. *)

From Stdlib Require Import ZArith Ascii String List Bool Lia.
From stdpp Require Import gmap strings list fin_maps pretty.

Local Open Scope Z_scope.

(* ===================================================================== *)
(** ** Python strings *)
(* ===================================================================== *)

(** [str.isspace] on one character, for the code points below 256. *)
Definition isspace (a : ascii) : bool :=
  let n := Ascii.N_of_ascii a in
  ((9 <=? n) && (n <=? 13) || (28 <=? n) && (n <=? 32)
   || (n =? 133) || (n =? 160))%N.

Fixpoint lstrip (s : string) : string :=
  match s with
  | EmptyString => EmptyString
  | String a s' => if isspace a then lstrip s' else s
  end.

Fixpoint rstrip (s : string) : string :=
  match s with
  | EmptyString => EmptyString
  | String a s' =>
      match rstrip s' with
      | EmptyString => if isspace a then EmptyString else String a EmptyString
      | r => String a r
      end
  end.

(** [s.strip()] *)
Definition strip (s : string) : string := rstrip (lstrip s).

(** [sep.join(l)] *)
Fixpoint join (sep : string) (l : list string) : string :=
  match l with
  | [] => ""
  | [x] => x
  | x :: rest => x +:+ sep +:+ join sep rest
  end.

(** Truth value of a [str]: the empty string is false. *)
Definition str_truthy (s : string) : bool :=
  match s with EmptyString => false | _ => true end.

(** [str(n)] and the [{n}] of an f-string, for an [int]. *)
Definition str_int (n : Z) : string := pretty n.

(* ===================================================================== *)
(** ** The data model *)
(* ===================================================================== *)

(** The [subprocess.Popen] object: an opaque handle, told apart by the pid
    it was created with. *)
Record Popen := { popen_pid : Z }.

(** The dict stored under [active_tunnels[port_str]]. *)
Record tunnel := {
  process : Popen;
  public_url : string;
  start_time : Z;
  logs : list string;
  pid : Z;
  status : string;
  health : Z;
  ping : Z;
  status_text : string;
  port : string
}.

(** What the program does to the outside world. *)
Inductive effect :=
| Spawn (cmd : list string)               (* subprocess.Popen(cmd, ...) *)
| StartLogReader (p : Popen) (port_str : string)
                                          (* Thread(target=self.log_reader) *)
| PopenTerminate (p : Popen)              (* process.terminate() *)
| PopenWait (p : Popen) (timeout : Z)     (* process.wait(timeout=5) *)
| PsTerminate (pid : Z)                   (* psutil: child/parent.terminate() *)
| PsWaitProcs (pids : list Z) (timeout : Z)
                                          (* psutil.wait_procs(..., timeout=3) *)
| PsKill (pid : Z)                        (* psutil: p.kill() *)
| HttpGet (url : string) (timeout : Z) (verify : bool).
                                          (* requests.get(url, timeout, verify) *)

(** The manager and the world it acts on. *)
Record state := {
  active_tunnels : gmap string tunnel;
  cloudflared_path : string;
  effects : list effect
}.

Definition set_tunnels (f : gmap string tunnel -> gmap string tunnel)
    (st : state) : state :=
  {| active_tunnels := f (active_tunnels st);
     cloudflared_path := cloudflared_path st;
     effects := effects st |}.

Definition emit (evs : list effect) (st : state) : state :=
  {| active_tunnels := active_tunnels st;
     cloudflared_path := cloudflared_path st;
     effects := effects st ++ evs |}.

(* ===================================================================== *)
(** ** terminate_tunnel *)
(* ===================================================================== *)

(** Exceptions of psutil, as the [except] clauses tell them apart. *)
Inductive ps_exception := NoSuchProcess | OtherPsException.

(** What the process table answers during the teardown of one tunnel. *)
Inductive psutil_walk :=
| WalkRaises (e : ps_exception)
    (* psutil.Process(pid) or parent.children() raises *)
| Walk (children : list Z) (wait_raises : option ps_exception).
    (* the tree is enumerated; wait_procs returns, or raises *)

(** The statements of the outer [try] that no inner handler protects are
    four calls of [print]; an exception raised by one of them reaches
    the outer handler. [Line n] is the call at line n of the source. *)
Inductive print_site := Line197 | Line221 | Line223 | Line234.

Record teardown_env := {
  walk : psutil_walk;
  survives : Z -> bool;          (* still alive after wait_procs *)
  print_raises : print_site -> bool
}.

(** A run of statements inside the outer [try] of [terminate_tunnel]:
    it either reaches its end, or an exception leaves it; in both cases
    the effects performed so far stay performed. *)
Inductive tried := Normal (st : state) | Raised (st : state).

Definition and_then (m : tried) (k : state -> tried) : tried :=
  match m with
  | Normal st => k st
  | Raised st => Raised st
  end.

Notation "m >> k" := (and_then m k) (at level 61, left associativity).

Definition perform (evs : list effect) (st : state) : tried :=
  Normal (emit evs st).

Definition print_at (o : teardown_env) (site : print_site)
    (st : state) : tried :=
  if print_raises o site then Raised st else Normal st.

(** Lines 203-213: signal the children, then the parent, then wait. *)
Definition signal_tree (pid : Z) (children : list Z) : list effect :=
  map PsTerminate children ++ [PsTerminate pid]
  ++ [PsWaitProcs (pid :: children) 3].

(** Lines 200-227: the inner [try] with its two handlers. *)
Definition psutil_teardown (o : teardown_env) (proc : Popen) (pid : Z)
    (st : state) : tried :=
  match walk o with
  | Walk children None =>
      perform
        (signal_tree pid children
         ++ map PsKill
              (filter (fun p => survives o p = true) (pid :: children))) st
  | Walk children (Some NoSuchProcess) =>
      perform (signal_tree pid children) st >> print_at o Line221
  | Walk children (Some OtherPsException) =>
      perform (signal_tree pid children) st >> print_at o Line223
      >> perform [PopenTerminate proc]
  | WalkRaises NoSuchProcess => print_at o Line221 st
  | WalkRaises OtherPsException =>
      print_at o Line223 st >> perform [PopenTerminate proc]
  end.

(** Lines 195-235: everything after the record has been popped. *)
Definition teardown (o : teardown_env) (process_data : tunnel)
    (st : state) : tried :=
  let proc := process process_data in
  let pid := pid process_data in
  print_at o Line197 st
  >> psutil_teardown o proc pid
  >> perform [PopenWait proc 5]
  >> print_at o Line234.

(** [terminate_tunnel(port)]: the returned flag and the state afterwards. *)
Definition terminate_tunnel (o : teardown_env) (port : string)
    (st : state) : bool * state :=
  match active_tunnels st !! port with
  | None => (false, st)
  | Some process_data =>
      (* process_data = self.active_tunnels.pop(port) *)
      match teardown o process_data (set_tunnels (delete port) st) with
      | Normal st' => (true, st')
      | Raised st' =>
          (* except Exception: ensure removal if present *)
          (false,
           match active_tunnels st' !! port with
           | Some _ => set_tunnels (delete port) st'
           | None => st'
           end)
      end
  end.

(** *** The states in between

    [terminate_tunnel] holds the lock for the pop of line 188 and for the
    [del] of line 242 only: between two statements of the teardown another
    thread can take the lock and read the live map. The definitions below
    follow the same statements and keep, besides the outcome, the states of
    the manager such a thread can find: the state after each statement that
    changes the live map or acts on the outside world, oldest first. *)
Definition watched : Type := list state * tried.

Definition watched_then (m : watched) (k : state -> watched) : watched :=
  match m with
  | (seen, Normal st) => let '(seen', r) := k st in (seen ++ seen', r)
  | (seen, Raised st) => (seen, Raised st)
  end.

Notation "m >>> k" := (watched_then m k) (at level 61, left associativity).

(** The states passed while the calls [evs] are made one after the other. *)
Fixpoint after_each (evs : list effect) (st : state) : list state :=
  match evs with
  | [] => []
  | ev :: rest => emit [ev] st :: after_each rest (emit [ev] st)
  end.

Definition watched_perform (evs : list effect) (st : state) : watched :=
  (after_each evs st, Normal (emit evs st)).

(** A [print] changes nothing another thread can read. *)
Definition watched_print (o : teardown_env) (site : print_site)
    (st : state) : watched :=
  ([], if print_raises o site then Raised st else Normal st).

(** Lines 200-227. *)
Definition psutil_teardown_watched (o : teardown_env) (proc : Popen)
    (pid : Z) (st : state) : watched :=
  match walk o with
  | Walk children None =>
      watched_perform
        (signal_tree pid children
         ++ map PsKill
              (filter (fun p => survives o p = true) (pid :: children))) st
  | Walk children (Some NoSuchProcess) =>
      watched_perform (signal_tree pid children) st
      >>> watched_print o Line221
  | Walk children (Some OtherPsException) =>
      watched_perform (signal_tree pid children) st
      >>> watched_print o Line223
      >>> watched_perform [PopenTerminate proc]
  | WalkRaises NoSuchProcess => watched_print o Line221 st
  | WalkRaises OtherPsException =>
      watched_print o Line223 st >>> watched_perform [PopenTerminate proc]
  end.

(** Lines 195-235. *)
Definition teardown_watched (o : teardown_env) (process_data : tunnel)
    (st : state) : watched :=
  let proc := process process_data in
  let pid := pid process_data in
  watched_print o Line197 st
  >>> psutil_teardown_watched o proc pid
  >>> watched_perform [PopenWait proc 5]
  >>> watched_print o Line234.

(** [terminate_tunnel(port)] with the states passed on the way: first the
    state the pop of line 188 leaves, then those of the teardown, then,
    on the path through the outer handler, the state after the [del] of
    line 242 when the handler finds the port. *)
Definition terminate_tunnel_watched (o : teardown_env) (port : string)
    (st : state) : list state * (bool * state) :=
  match active_tunnels st !! port with
  | None => ([], (false, st))
  | Some process_data =>
      let popped := set_tunnels (delete port) st in
      match teardown_watched o process_data popped with
      | (seen, Normal st') => (popped :: seen, (true, st'))
      | (seen, Raised st') =>
          match active_tunnels st' !! port with
          | Some _ =>
              let deleted := set_tunnels (delete port) st' in
              (popped :: seen ++ [deleted], (false, deleted))
          | None => (popped :: seen, (false, st'))
          end
      end
  end.

(* ===================================================================== *)
(** ** get_tunnel_stats *)
(* ===================================================================== *)

(** [process.poll()]: [None] while the child runs, its return code once it
    has exited. *)
Inductive poll_result :=
| StillRunning
| Exited (returncode : Z)
| PollRaises (msg : string).

(** An exception raised by [requests.get], with what the [except] clauses
    ask of it. *)
Record exception := {
  is_Timeout : bool;           (* isinstance(e, requests.exceptions.Timeout) *)
  is_ConnectionError : bool;   (* isinstance(e, ...ConnectionError) *)
  message : string             (* str(e) *)
}.

(** The outcome of the probe of lines 268-270: a response, with the two
    clock readings around the call, or an exception. *)
Inductive probe_result :=
| Response (status_code : Z) (t_before t_after : Z)
| RequestRaises (e : exception).

Record stats_env := {
  poll : poll_result;
  probe : probe_result;
  cleanup : teardown_env       (* for the nested terminate_tunnel *)
}.

(** [int((time.time() - start_time) * 1000)], readings in microseconds;
    [int] truncates towards zero. *)
Definition elapsed_ms (t_before t_after : Z) : Z :=
  Z.quot (t_after - t_before) 1000.

(** Lines 263-291: the values of [health], [ping] and [status] when the
    inner [try] statement has run. *)
Definition probe_stats (r : probe_result) : Z * Z * string :=
  match r with
  | Response status_code t_before t_after =>
      let ping := elapsed_ms t_before t_after in
      if (200 <=? status_code) && (status_code <? 500)
      then (100, ping, "Healthy")
      else (25, ping, "HTTP " +:+ str_int status_code)
  | RequestRaises e =>
      if is_Timeout e then (10, 5000, "Connection timeout")
      else if is_ConnectionError e then (0, 5000, "Connection failed")
      else (5, 5000, "Request Error")
  end.

(** [self.active_tunnels[port].update({'health': ..., 'ping': ...,
    'status_text': ...})] *)
Definition update_stats (new_health new_ping : Z) (new_status_text : string)
    (d : tunnel) : tunnel :=
  {| process := process d;
     public_url := public_url d;
     start_time := start_time d;
     logs := logs d;
     pid := pid d;
     status := status d;
     health := new_health;
     ping := new_ping;
     status_text := new_status_text;
     port := port d |}.

(** [get_tunnel_stats(port)]: the returned triple and the state afterwards. *)
Definition get_tunnel_stats (o : stats_env) (port : string)
    (st : state) : (Z * Z * string) * state :=
  match active_tunnels st !! port with
  | None => ((0, 0, "Tunnel not found"), st)
  | Some tunnel_data =>
      let public_url := public_url tunnel_data in
      match poll o with
      | PollRaises msg => ((0, 0, "Error: " +:+ msg), st)
      | Exited _ =>
          ((0, 0, "Process terminated"),
           snd (terminate_tunnel (cleanup o) port st))
      | StillRunning =>
          let st1 := emit [HttpGet public_url 5 false] st in
          let '(health, ping, status_text) := probe_stats (probe o) in
          (* update in-memory cached stats *)
          let st2 :=
            match active_tunnels st1 !! port with
            | Some d =>
                set_tunnels
                  (<[port := update_stats health ping status_text d]>) st1
            | None => st1
            end in
          ((health, ping, status_text), st2)
      end
  end.

(* ===================================================================== *)
(** ** The public-URL pattern *)
(* ===================================================================== *)

(** The character class [[a-zA-Z0-9-]]. *)
Definition is_label_char (a : ascii) : bool :=
  let n := Ascii.N_of_ascii a in
  ((97 <=? n) && (n <=? 122) || (65 <=? n) && (n <=? 90)
   || (48 <=? n) && (n <=? 57) || (n =? 45))%N.

(** [skip_prefix p s] is what follows [p] in [s], when [s] starts with [p]. *)
Fixpoint skip_prefix (p s : string) : option string :=
  match p, s with
  | EmptyString, _ => Some s
  | String a p', String b s' =>
      if Ascii.eqb a b then skip_prefix p' s' else None
  | String _ _, EmptyString => None
  end.

(** The longest run of label characters at the start of [s], and the rest. *)
Fixpoint span_label (s : string) : string * string :=
  match s with
  | String a s' =>
      if is_label_char a
      then let '(lbl, rest) := span_label s' in (String a lbl, rest)
      else (EmptyString, s)
  | EmptyString => (EmptyString, EmptyString)
  end.

(** A match of [https://[a-zA-Z0-9-]+\.trycloudflare\.com] that begins at
    the first character of [s]. The greedy [+] takes the whole run of
    label characters: the dot that must follow is not one of them. *)
Definition match_here (s : string) : option string :=
  match skip_prefix "https://" s with
  | None => None
  | Some s1 =>
      let '(lbl, rest) := span_label s1 in
      match lbl, skip_prefix ".trycloudflare.com" rest with
      | String _ _, Some _ => Some ("https://" +:+ lbl +:+ ".trycloudflare.com")
      | _, _ => None
      end
  end.

(** [re.search(r'(https://[a-zA-Z0-9-]+\.trycloudflare\.com)', line)], then
    [group(0)]: the leftmost match. *)
Fixpoint re_search (line : string) : option string :=
  match match_here line with
  | Some url => Some url
  | None =>
      match line with
      | EmptyString => None
      | String _ line' => re_search line'
      end
  end.

(* ===================================================================== *)
(** ** create_tunnel *)
(* ===================================================================== *)

(** How the output of the child ends: [readline] returns [''], blocks for
    good, or raises. *)
Inductive stream_end :=
| StreamCloses
| StreamStalls
| StreamRaises (msg : string).

(** [subprocess.Popen(cmd, ...)]: raises, or gives a process whose output
    is a sequence of lines. A line comes with the reading of [time.time()]
    taken once it has been handled (line 126). *)
Inductive spawn_result :=
| PopenRaises (msg : string)
| Spawned (p : Popen) (output : list (string * Z)) (ending : stream_end).

Record create_env := {
  strftime : nat -> string;
    (* datetime.now().strftime('%H:%M:%S') at the k-th call of log_appender *)
  spawn : spawn_result;
  t_start : Z;               (* time.time() at line 110 *)
  t_registered : Z           (* time.time() at line 140 *)
}.

Definition append_log (log_entry : string) (d : tunnel) : tunnel :=
  {| process := process d;
     public_url := public_url d;
     start_time := start_time d;
     logs := logs d ++ [log_entry];
     pid := pid d;
     status := status d;
     health := health d;
     ping := ping d;
     status_text := status_text d;
     port := port d |}.

(** The entry [log_appender] builds from [line] at its k-th call. *)
Definition log_entry (o : create_env) (k : nat) (line : string) : string :=
  "[" +:+ strftime o k +:+ "] " +:+ strip line.

(** The closure [log_appender(line)]: it appends to the local list [logs]
    and, when the port is registered, to the logs of its record. Each call
    appends one entry, so the call counter is the length of [logs]. *)
Definition log_appender (o : create_env) (port_str : string) (line : string)
    (acc : list string * state) : list string * state :=
  let '(logs, st) := acc in
  let entry := log_entry o (length logs) line in
  (logs ++ [entry], set_tunnels (alter (append_log entry) port_str) st).

Definition seconds (n : Z) : Z := n * 1000000.
Arguments seconds : simpl never.

(** How the loop of lines 113-132 is left. *)
Inductive loop_exit :=
| UrlFound (public_url : string)     (* break at line 123 *)
| TimedOut                           (* the branch of lines 126-132 *)
| Exhausted                          (* readline returned '' *)
| Blocked                            (* readline never returns *)
| ReadFailed (msg : string).         (* readline raised *)

Definition exit_at (ending : stream_end) : loop_exit :=
  match ending with
  | StreamCloses => Exhausted
  | StreamStalls => Blocked
  | StreamRaises msg => ReadFailed msg
  end.

Fixpoint read_lines (o : create_env) (port_str : string)
    (output : list (string * Z)) (ending : stream_end)
    (acc : list string * state) : loop_exit * (list string * state) :=
  match output with
  | [] => (exit_at ending, acc)
  | (line, now) :: rest =>
      if str_truthy line then
        let acc1 := log_appender o port_str line acc in
        match re_search line with
        | Some public_url =>
            (UrlFound public_url,
             log_appender o port_str ("Public URL found: " +:+ public_url) acc1)
        | None =>
            if seconds 20 <? now - t_start o
            then (TimedOut,
                  log_appender o port_str
                    "Error: Timeout waiting for public URL." acc1)
            else read_lines o port_str rest ending acc1
        end
      else (Exhausted, acc)
  end.

(** What a call of [create_tunnel] gives back. *)
Inductive create_result :=
| Returns (success : bool) (public_url : option string) (logs : list string)
| NeverReturns.

(** The record of lines 137-148. *)
Definition new_tunnel (o : create_env) (port_str : string) (p : Popen)
    (url : string) (logs : list string) : tunnel :=
  {| process := p;
     public_url := url;
     start_time := t_registered o;
     logs := logs;
     pid := popen_pid p;
     status := "active";
     health := 100;
     ping := 0;
     status_text := "Active";
     port := port_str |}.

(** Lines 155-161. *)
Definition early_exit (o : create_env) (port_str : string) (p : Popen)
    (acc : list string * state) : create_result * state :=
  let '(logs, st) :=
    log_appender o port_str
      "Error: Process terminated before URL was found." acc in
  (Returns false None logs, emit [PopenTerminate p] st).

(** Lines 163-165, the handler of the outer [try]. *)
Definition fatal_error (o : create_env) (port_str : string) (msg : string)
    (acc : list string * state) : create_result * state :=
  let '(_, st) := log_appender o port_str ("Fatal Error: " +:+ msg) acc in
  (Returns false None ["Error: " +:+ msg], st).

(** [create_tunnel(port)], for [port_str = str(port)]. *)
Definition create_tunnel (o : create_env) (port_str : string)
    (st : state) : create_result * state :=
  let cmd := [cloudflared_path st; "tunnel"; "--url";
              "http://127.0.0.1:" +:+ port_str] in
  let acc0 :=
    log_appender o port_str ("Executing command: " +:+ join " " cmd)
                 ([], st) in
  match spawn o with
  | PopenRaises msg => fatal_error o port_str msg acc0
  | Spawned p output ending =>
      let '(logs0, st0) := acc0 in
      match read_lines o port_str output ending
              (logs0, emit [Spawn cmd] st0) with
      | (TimedOut, (logs, st1)) =>
          (Returns false None logs, emit [PopenTerminate p] st1)
      | (Blocked, (_, st1)) => (NeverReturns, st1)
      | (ReadFailed msg, acc) => fatal_error o port_str msg acc
      | (Exhausted, acc) => early_exit o port_str p acc
      | (UrlFound public_url, (logs, st1)) =>
          if str_truthy public_url then
            (Returns true (Some public_url) logs,
             emit [StartLogReader p port_str]
               (set_tunnels
                  (<[port_str := new_tunnel o port_str p public_url logs]>)
                  st1))
          else early_exit o port_str p (logs, st1)
      end
  end.

(* ===================================================================== *)
(** ** The snapshot written to log.json *)
(* ===================================================================== *)

(** A naive [datetime.datetime] value (no time zone attached). *)
Record datetime := {
  year : N; month : N; day : N;
  hour : N; minute : N; second : N;
  microsecond : N
}.

(** The ranges the class [datetime] enforces on its fields. *)
Definition datetime_ok (d : datetime) : bool :=
  ((1 <=? year d) && (year d <=? 9999)
   && (1 <=? month d) && (month d <=? 12)
   && (1 <=? day d) && (day d <=? 31)
   && (hour d <? 24) && (minute d <? 60) && (second d <? 60)
   && (microsecond d <? 1000000))%N.

Definition digit (n : N) : ascii := ascii_of_N (48 + n mod 10).

(** [n] in decimal, zero-padded to [width] digits. *)
Fixpoint zero_padded (width : nat) (n : N) : string :=
  match width with
  | O => EmptyString
  | S w => zero_padded w (n / 10) +:+ String (digit n) EmptyString
  end.

(** [d.isoformat()] for a naive datetime: YYYY-MM-DDTHH:MM:SS, followed by
    .ffffff when the microsecond is not zero. *)
Definition isoformat (d : datetime) : string :=
  zero_padded 4 (year d) +:+ "-" +:+ zero_padded 2 (month d) +:+ "-"
  +:+ zero_padded 2 (day d) +:+ "T" +:+ zero_padded 2 (hour d) +:+ ":"
  +:+ zero_padded 2 (minute d) +:+ ":" +:+ zero_padded 2 (second d)
  +:+ (if (microsecond d =? 0)%N then ""
       else "." +:+ zero_padded 6 (microsecond d)).

(** The values [json.dump] is given here. A dict is the list of its items;
    Python keeps them in insertion order. *)
#[local] Set Warnings "-register-all".
Inductive json :=
| JNull
| JInt (n : Z)
| JStr (s : string)
| JObj (items : list (string * json)).

Record log_env := {
  now : datetime;                     (* datetime.now() at line 345 *)
  fromtimestamp : Z -> datetime       (* datetime.fromtimestamp, local time *)
}.

(** The dict built at lines 316-326 for one item of [active_tunnels]. *)
Definition snapshot_entry (o : log_env) (port : string) (data : tunnel)
    : json :=
  JObj [("port", JStr port);
        ("public_url", JStr (public_url data));
        ("status", JStr (status data));
        ("status_text", JStr (status_text data));
        ("health", JInt (health data));
        ("ping", JInt (ping data));
        ("pid", JInt (pid data));
        ("start_time",
         if start_time data =? 0 then JNull
         else JStr (isoformat (fromtimestamp o (start_time data))))].

(** [_snapshot_for_log()]: a dict from port to entry. *)
Definition _snapshot_for_log (o : log_env) (st : state) : gmap string json :=
  map_imap (fun port data => Some (snapshot_entry o port data))
           (active_tunnels st).

(** The [payload] of lines 344-347. *)
Definition payload (o : log_env) (st : state) : json :=
  JObj [("generated_at", JStr (isoformat (now o)));
        ("tunnels", JObj (map_to_list (_snapshot_for_log o st)))].

(** One turn of [_log_writer_loop]: the content of log.json afterwards.
    [_write_json_atomic] replaces the file by the payload, or fails and
    leaves it as it was. *)
Definition _log_writer_turn (o : log_env) (write_fails : bool)
    (file : option json) (st : state) : option json :=
  if write_fails then file else Some (payload o st).

(** The keys of a JSON object. *)
Definition keys (j : json) : list string :=
  match j with
  | JObj items => map fst items
  | _ => []
  end.

(** The value under [key] of a JSON object. *)
Definition member (key : string) (j : json) : option json :=
  match j with
  | JObj items => snd <$> find (fun kv => String.eqb (fst kv) key) items
  | _ => None
  end.

(* ===================================================================== *)
(** ** Vocabulary of the properties *)
(* ===================================================================== *)

(** The state a run of statements ends in, however it ends. *)
Definition state_of (m : tried) : state :=
  match m with Normal st => st | Raised st => st end.

(** A run of statements that only emits effects. *)
Definition emits_only (st : state) (m : tried) : Prop :=
  exists evs, state_of m = emit evs st.

(** A run with the states in between that goes with the run [m] started in
    [st]: it ends as [m] does, and the states passed are those of the
    effects of [m], made one at a time from [st]. *)
Definition follows (st : state) (w : watched) (m : tried) : Prop :=
  snd w = m /\
  exists evs, fst w = after_each evs st /\ state_of m = emit evs st.

(** The probe table as the specification words it: a response with status
    200-499, a response with status 500 or more, a timeout, a refused or
    unreachable connection, any other transport error. *)
Inductive spec_table : probe_result -> Z * Z * string -> Prop :=
| spec_healthy c t0 t1 :
    200 <= c <= 499 ->
    spec_table (Response c t0 t1) (100, elapsed_ms t0 t1, "Healthy")
| spec_http c t0 t1 :
    500 <= c ->
    spec_table (Response c t0 t1)
               (25, elapsed_ms t0 t1, "HTTP " +:+ str_int c)
| spec_timeout e :
    is_Timeout e = true ->
    spec_table (RequestRaises e) (10, 5000, "Connection timeout")
| spec_refused e :
    is_ConnectionError e = true ->
    spec_table (RequestRaises e) (0, 5000, "Connection failed")
| spec_other e :
    is_Timeout e = false -> is_ConnectionError e = false ->
    spec_table (RequestRaises e) (5, 5000, "Request Error").

(** The same table with the second row as the code has it: every status
    outside 200-499. An exception that is both a timeout and a connection
    error takes the timeout row, the first [except] clause. *)
Inductive code_table : probe_result -> Z * Z * string -> Prop :=
| code_healthy c t0 t1 :
    200 <= c <= 499 ->
    code_table (Response c t0 t1) (100, elapsed_ms t0 t1, "Healthy")
| code_http c t0 t1 :
    c < 200 \/ 500 <= c ->
    code_table (Response c t0 t1)
               (25, elapsed_ms t0 t1, "HTTP " +:+ str_int c)
| code_timeout e :
    is_Timeout e = true ->
    code_table (RequestRaises e) (10, 5000, "Connection timeout")
| code_refused e :
    is_Timeout e = false -> is_ConnectionError e = true ->
    code_table (RequestRaises e) (0, 5000, "Connection failed")
| code_other e :
    is_Timeout e = false -> is_ConnectionError e = false ->
    code_table (RequestRaises e) (5, 5000, "Request Error").

(** [extend_logs entries d] is [d] after [d['logs'].append(e)] for each
    [e] of [entries]. *)
Definition extend_logs (entries : list string) (d : tunnel) : tunnel :=
  {| process := process d;
     public_url := public_url d;
     start_time := start_time d;
     logs := logs d ++ entries;
     pid := pid d;
     status := status d;
     health := health d;
     ping := ping d;
     status_text := status_text d;
     port := port d |}.

(** The state once [entries] have been appended to the record of port
    [p], if there is one. *)
Definition logs_to (p : string) (entries : list string) (st : state) : state :=
  set_tunnels (alter (extend_logs entries) p) st.

(** [log_appender] called on each of [lines] in turn. *)
Definition log_all (o : create_env) (p : string) (lines : list string)
    (acc : list string * state) : list string * state :=
  fold_left (fun acc line => log_appender o p line acc) lines acc.

(** The entries of [lines] when the first of them is logged by the k-th
    call of [log_appender]. *)
Fixpoint stamped (o : create_env) (k : nat) (lines : list string)
    : list string :=
  match lines with
  | [] => []
  | line :: rest => log_entry o k line :: stamped o (S k) rest
  end.

(** The argument list of [Popen] and the first line logged. *)
Definition command (st : state) (p : string) : list string :=
  [cloudflared_path st; "tunnel"; "--url"; "http://127.0.0.1:" +:+ p].

Definition command_line (st : state) (p : string) : string :=
  "Executing command: " +:+ join " " (command st p).

(** The lines logged by a call that fails after the child was spawned. *)
Definition failure_lines (st : state) (p : string) (consumed : list string)
    (error : string) : list string :=
  command_line st p :: consumed ++ [error].

(** The premise of the timeout claim as the specification words it: no
    line that arrives within 20 seconds of the start holds a URL. *)
Definition no_url_within_timeout (o : create_env) : Prop :=
  match spawn o with
  | Spawned _ output _ =>
      Forall (fun x => x.2 - t_start o <= seconds 20 -> re_search x.1 = None)
             output
  | PopenRaises _ => True
  end.

(** A line that keeps the loop going: it is not the end-of-stream value,
    it holds no URL, and the clock read after it is within 20 seconds of
    the start. *)
Definition quiet (t0 : Z) (x : string * Z) : Prop :=
  str_truthy x.1 = true /\ re_search x.1 = None /\ x.2 - t0 <= seconds 20.

(** The three ways [create_tunnel] fails. *)
Inductive cause :=
| DiscoveryTimeout
| EarlyExit
| SpawnException (msg : string).

(** [failure_path o consumed c]: in the environment [o] the call fails by
    [c] after it has read the lines [consumed] from the child. *)
Inductive failure_path (o : create_env) : list string -> cause -> Prop :=
| path_timeout proc pre line t post ending :
    spawn o = Spawned proc (pre ++ (line, t) :: post) ending ->
    Forall (quiet (t_start o)) pre ->
    str_truthy line = true -> re_search line = None ->
    seconds 20 < t - t_start o ->
    failure_path o (map fst pre ++ [line]) DiscoveryTimeout
| path_closed proc pre :
    spawn o = Spawned proc pre StreamCloses ->
    Forall (quiet (t_start o)) pre ->
    failure_path o (map fst pre) EarlyExit
| path_empty_line proc pre t post ending :
    spawn o = Spawned proc (pre ++ ("", t) :: post) ending ->
    Forall (quiet (t_start o)) pre ->
    failure_path o (map fst pre) EarlyExit
| path_spawn msg :
    spawn o = PopenRaises msg ->
    failure_path o [] (SpawnException msg).

(** What the last line of the returned logs says, for each cause. *)
Definition describes (c : cause) (last_line : string) : Prop :=
  match c with
  | DiscoveryTimeout =>
      exists ts, last_line
                 = "[" +:+ ts +:+ "] Error: Timeout waiting for public URL."
  | EarlyExit =>
      exists ts, last_line
                 = "[" +:+ ts
                   +:+ "] Error: Process terminated before URL was found."
  | SpawnException msg => last_line = "Error: " +:+ msg
  end.

(** The process of a spawn that succeeded. *)
Definition spawned_process (o : create_env) : option Popen :=
  match spawn o with
  | Spawned proc _ _ => Some proc
  | PopenRaises _ => None
  end.

(** ISO 8601, extended format of a calendar date with the time of day:
    YYYY-MM-DDThh:mm:ss, optionally followed by a decimal fraction of the
    second. *)
Definition is_digit (a : ascii) : bool :=
  let n := Ascii.N_of_ascii a in ((48 <=? n) && (n <=? 57))%N.

(** Reads [k] decimal digits; [acc] is the number read so far. *)
Fixpoint read_digits (k : nat) (acc : N) (s : string) : option (N * string) :=
  match k with
  | O => Some (acc, s)
  | S k' =>
      match s with
      | String a s' =>
          if is_digit a
          then read_digits k' (acc * 10 + (Ascii.N_of_ascii a - 48))%N s'
          else None
      | EmptyString => None
      end
  end.

Definition expect (c : ascii) (s : string) : option string :=
  match s with
  | String a s' => if Ascii.eqb a c then Some s' else None
  | EmptyString => None
  end.

Fixpoint all_digits (s : string) : bool :=
  match s with
  | EmptyString => true
  | String a s' => is_digit a && all_digits s'
  end.

Definition is_fraction (s : string) : bool :=
  match s with
  | EmptyString => true
  | String a f => Ascii.eqb a "."%char && str_truthy f && all_digits f
  end.

Definition iso8601 (s : string) : bool :=
  default false (
    '(_, s) ← read_digits 4 0 s;
    s ← expect "-"%char s;
    '(mo, s) ← read_digits 2 0 s;
    s ← expect "-"%char s;
    '(dd, s) ← read_digits 2 0 s;
    s ← expect "T"%char s;
    '(hh, s) ← read_digits 2 0 s;
    s ← expect ":"%char s;
    '(mi, s) ← read_digits 2 0 s;
    s ← expect ":"%char s;
    '(ss, s) ← read_digits 2 0 s;
    Some ((1 <=? mo) && (mo <=? 12) && (1 <=? dd) && (dd <=? 31)
          && (hh <? 24) && (mi <? 60) && (ss <? 60)
          && is_fraction s)%N).

(** The keys of an entry of the snapshot. *)
Definition entry_keys : list string :=
  ["port"; "public_url"; "status"; "status_text"; "health"; "ping"; "pid";
   "start_time"].

(** Sample data. *)
Definition empty_state : state :=
  {| active_tunnels := ∅; cloudflared_path := "cloudflared"; effects := [] |}.

Definition sample_tunnel : tunnel :=
  {| process := {| popen_pid := 4242 |};
     public_url := "https://abc-def.trycloudflare.com";
     start_time := 1700000000000000;
     logs := ["[12:00:00] Public URL found: https://abc-def.trycloudflare.com"];
     pid := 4242;
     status := "active";
     health := 100;
     ping := 0;
     status_text := "Active";
     port := "5000" |}.

Definition sample_state : state :=
  {| active_tunnels := {[ "5000" := sample_tunnel ]};
     cloudflared_path := "cloudflared";
     effects := [] |}.

Definition quiet_teardown : teardown_env :=
  {| walk := Walk [4243] None;
     survives := fun p => Z.eqb p 4243;
     print_raises := fun _ => false |}.

Definition failing_teardown : teardown_env :=
  {| walk := WalkRaises OtherPsException;
     survives := fun _ => true;
     print_raises := fun site =>
       match site with Line223 => true | _ => false end |}.

Definition stats_of (pl : poll_result) (pr : probe_result) : stats_env :=
  {| poll := pl; probe := pr; cleanup := quiet_teardown |}.

Definition switching_protocols : probe_result := Response 101 0 123456.

Definition clock (k : nat) : string := "12:00:0" +:+ pretty k.

Definition no_binary : create_env :=
  {| strftime := clock;
     spawn := PopenRaises "[Errno 2] No such file or directory: 'cloudflared'";
     t_start := 0;
     t_registered := 0 |}.

Definition output_of (lines : list (string * Z)) (ending : stream_end)
    : create_env :=
  {| strftime := clock;
     spawn := Spawned {| popen_pid := 4242 |} lines ending;
     t_start := 0;
     t_registered := seconds 3 |}.

Definition url_line : string :=
  "INF |  https://abc-def.trycloudflare.com  |" +:+ String "010" "".

Definition starting_line : string :=
  "INF Requesting new quick Tunnel" +:+ String "010" "".

Definition late_url : create_env :=
  output_of [(url_line, seconds 25)] StreamCloses.

Definition prompt_url : create_env :=
  output_of [(starting_line, seconds 1); (url_line, seconds 2)] StreamStalls.

Definition chatter : create_env :=
  output_of [(starting_line, seconds 1); (starting_line, seconds 21);
             (url_line, seconds 22)] StreamStalls.

Definition silent : create_env := output_of [] StreamStalls.

Definition garbled : create_env :=
  output_of [(starting_line, seconds 1)]
            (StreamRaises "'utf-8' codec can't decode byte 0xff").

Definition sample_clock : log_env :=
  {| now := {| year := 2026; month := 11; day := 3;
               hour := 9; minute := 5; second := 0; microsecond := 1234 |};
     fromtimestamp := fun _ =>
       {| year := 2023; month := 11; day := 14;
          hour := 22; minute := 13; second := 20; microsecond := 0 |} |}.

(* ===================================================================== *)
(** ** The rest of [TunnelManager] *)
(* ===================================================================== *)

(** [os.path] as [find_cloudflared] sees it. A test of the file system
    answers, or raises ([None]). *)
Record os_env := {
  module_dir : string;                       (* os.path.dirname(__file__) *)
  path_join : list string -> string;         (* os.path.join *)
  path_exists : string -> option bool;       (* os.path.exists *)
  path_isfile : string -> option bool;       (* os.path.isfile *)
  abspath : string -> string                 (* os.path.abspath *)
}.

(** The list [paths] of lines 56-61. *)
Definition paths (e : os_env) : list string :=
  [path_join e [module_dir e; "cloudflared"; "cloudflared.exe"];
   path_join e [module_dir e; "cloudflared"; "cloudflared"];
   "cloudflared.exe";
   "cloudflared"].

(** The test of line 65 inside its [try]: an exception goes on to the next
    path, as a test that fails does. [isfile] is asked only when [exists]
    holds. *)
Definition is_program (e : os_env) (path : string) : bool :=
  match path_exists e path with
  | Some true =>
      match path_isfile e path with
      | Some true => true
      | _ => false
      end
  | _ => false
  end.

(** The loop of lines 63-68 and the fallback of line 72. *)
Fixpoint first_program (e : os_env) (candidates : list string) : string :=
  match candidates with
  | [] => "cloudflared"
  | path :: rest =>
      if is_program e path then abspath e path else first_program e rest
  end.

Definition find_cloudflared (e : os_env) : string :=
  first_program e (paths e).

(** The files of the directory of log.json. A file holds the text of a
    JSON value, whole, or cut short by a write that failed. *)
Inductive file_content :=
| Whole (data : json)
| Cut (data : json).

(** How a call of [_write_json_atomic] goes. *)
Inductive write_outcome :=
| OpenRaises          (* open(tmp_path, 'w') raises *)
| DumpRaises          (* json.dump raises after the file was opened *)
| ReplaceRaises       (* os.replace raises *)
| Written.

Definition tmp_path (log_path : string) : string := log_path +:+ ".tmp".

(** [_write_json_atomic(data)]: the files afterwards. [os.replace] moves
    the temporary file onto log.json. *)
Definition _write_json_atomic (log_path : string) (w : write_outcome)
    (data : json) (files : gmap string file_content)
    : gmap string file_content :=
  match w with
  | OpenRaises => files
  | DumpRaises => <[tmp_path log_path := Cut data]> files
  | ReplaceRaises => <[tmp_path log_path := Whole data]> files
  | Written =>
      <[log_path := Whole data]>
        (delete (tmp_path log_path)
           (<[tmp_path log_path := Whole data]> files))
  end.

(** One passage through the head of the loop of [_log_writer_loop]: the
    value of [_stop_log_writer.is_set()], and, for the turn that follows
    when it is not set, the clock, the state of the manager at that time
    and the way the write goes. *)
Record writer_turn := {
  stop_is_set : bool;
  turn_clock : log_env;
  turn_state : state;
  turn_write : write_outcome
}.

(** [_log_writer_loop()], over the passages through the head of the loop
    that take place. The loop is left at the first one that finds the
    event set (after [stop()]). *)
Fixpoint _log_writer_loop (log_path : string) (turns : list writer_turn)
    (files : gmap string file_content) : gmap string file_content :=
  match turns with
  | [] => files
  | t :: rest =>
      if stop_is_set t then files
      else _log_writer_loop log_path rest
             (_write_json_atomic log_path (turn_write t)
                (payload (turn_clock t) (turn_state t)) files)
  end.

(** The object the constructor builds. *)
Record manager := {
  core : state;
  log_path : string
}.

(** [TunnelManager.__init__(log_path)]: the manager, and the files after
    the removal of a log.json left by an earlier run. [os.remove] may
    raise; the constructor then goes on with the file in place. *)
Definition __init__ (e : os_env) (log_path_arg : option string)
    (remove_raises : bool) (files : gmap string file_content)
    : manager * gmap string file_content :=
  let default_path := path_join e [module_dir e; "log.json"] in
  let lp :=
    match log_path_arg with
    | Some given => if str_truthy given then given else default_path
    | None => default_path
    end in
  ({| core := {| active_tunnels := ∅;
                 cloudflared_path := find_cloudflared e;
                 effects := [] |};
      log_path := lp |},
   match files !! lp with
   | Some _ => if remove_raises then files else delete lp files
   | None => files
   end).

(** [log_reader(process, port)], for the lines it reads from the child,
    the first of them at the k-th reading of the clock. The loop stops at
    the empty string; a line is logged only while the port is
    registered. *)
Fixpoint log_reader (strftime : nat -> string) (k : nat) (port : string)
    (lines : list string) (st : state) : state :=
  match lines with
  | [] => st
  | line :: rest =>
      if str_truthy line then
        let log_entry := "[" +:+ strftime k +:+ "] " +:+ strip line in
        log_reader strftime (S k) port rest
          (set_tunnels (alter (append_log log_entry) port) st)
      else st
  end.

(** ** Vocabulary of the further properties *)

(** [u] is, as a whole, a URL of the pattern. *)
Definition is_public_url (u : string) : bool :=
  match match_here u with
  | Some v => String.eqb v u
  | None => false
  end.

(** What every record of the live map satisfies. *)
Definition tunnel_ok (key : string) (d : tunnel) : Prop :=
  port d = key /\ pid d = popen_pid (process d) /\ status d = "active"
  /\ 0 <= health d <= 100 /\ is_public_url (public_url d) = true.

Definition manager_ok (st : state) : Prop :=
  forall key d, active_tunnels st !! key = Some d -> tunnel_ok key d.

(** Two records that differ at most in their logs and process handle. *)
Definition same_published (d1 d2 : tunnel) : Prop :=
  public_url d1 = public_url d2 /\ start_time d1 = start_time d2
  /\ pid d1 = pid d2 /\ status d1 = status d2 /\ health d1 = health d2
  /\ ping d1 = ping d2 /\ status_text d1 = status_text d2.

(** The effects of [st2] that [st1] does not have yet. *)
Definition effects_since (st1 st2 : state) (evs : list effect) : Prop :=
  effects st2 = effects st1 ++ evs.

(** An effect that signals, kills or waits for a process. *)
Definition touches_process (ev : effect) : bool :=
  match ev with
  | PopenTerminate _ | PopenWait _ _ | PsTerminate _ | PsWaitProcs _ _
  | PsKill _ => true
  | Spawn _ | StartLogReader _ _ | HttpGet _ _ _ => false
  end.

(** Every character of [s] is of the class [[a-zA-Z0-9-]]. *)
Fixpoint all_label (s : string) : bool :=
  match s with
  | EmptyString => true
  | String a s' => is_label_char a && all_label s'
  end.

(** [s] begins with a character of the class. *)
Definition label_ahead (s : string) : bool :=
  match s with
  | EmptyString => false
  | String a _ => is_label_char a
  end.

(** The text of a URL of the pattern with the label [lbl]. *)
Definition url_of_label (lbl : string) : string :=
  "https://" +:+ lbl +:+ ".trycloudflare.com".

(** The only effects of a call that registers nothing. *)
Definition own_effect (o : create_env) (st : state) (p : string)
    (ev : effect) : Prop :=
  ev = Spawn (command st p)
  \/ exists proc, spawned_process o = Some proc /\ ev = PopenTerminate proc.

(** The children psutil lists during a teardown. *)
Definition listed_children (o : teardown_env) : list Z :=
  match walk o with
  | Walk children _ => children
  | WalkRaises _ => []
  end.

(** An effect of the teardown of the record [d] that is aimed at the
    process of [d], at its handle, or at one of its listed children. *)
Definition aimed_at (d : tunnel) (children : list Z) (ev : effect) : Prop :=
  match ev with
  | PsTerminate x | PsKill x => x ∈ pid d :: children
  | PsWaitProcs xs timeout => xs = pid d :: children /\ timeout = 3
  | PopenTerminate h => h = process d
  | PopenWait h timeout => h = process d /\ timeout = 5
  | Spawn _ | StartLogReader _ _ | HttpGet _ _ _ => False
  end.

(** A run of statements that only emits effects that satisfy [P]. *)
Definition emits_all (P : effect -> Prop) (st : state) (m : tried) : Prop :=
  exists evs, state_of m = emit evs st /\ Forall P evs.

(** The turns the loop of the writer runs: those before the first passage
    that finds the stop event set. *)
Fixpoint before_stop (turns : list writer_turn) : list writer_turn :=
  match turns with
  | [] => []
  | t :: rest => if stop_is_set t then [] else t :: before_stop rest
  end.

Definition wrote (t : writer_turn) : bool :=
  match turn_write t with Written => true | _ => false end.

(** The payload of the last turn of the loop whose write went through. *)
Definition published (turns : list writer_turn) : option json :=
  (fun t => payload (turn_clock t) (turn_state t))
    <$> last (filter (fun t => wrote t = true) (before_stop turns)).

(** The lines a reader consumes: those before the first empty string. *)
Fixpoint until_eof (lines : list string) : list string :=
  match lines with
  | [] => []
  | line :: rest => if str_truthy line then line :: until_eof rest else []
  end.

(** The entries of [lines], the first one stamped with the k-th reading
    of the clock. *)
Fixpoint entries_from (strftime : nat -> string) (k : nat)
    (lines : list string) : list string :=
  match lines with
  | [] => []
  | line :: rest =>
      ("[" +:+ strftime k +:+ "] " +:+ strip line)
      :: entries_from strftime (S k) rest
  end.

Definition sample_os : os_env :=
  {| module_dir := "/opt/tunnel";
     path_join := join "/";
     path_exists := fun path =>
       if String.eqb path "/opt/tunnel/cloudflared/cloudflared"
       then Some true else Some false;
     path_isfile := fun path => Some true;
     abspath := fun path => path |}.

Definition sample_turn (w : write_outcome) : writer_turn :=
  {| stop_is_set := false;
     turn_clock := sample_clock;
     turn_state := sample_state;
     turn_write := w |}.

Definition stale_files : gmap string file_content :=
  {[ "/opt/tunnel/log.json" := Whole JNull ]}.



(* ===================================================================== *)
(** ** main.py: the class [Api] *)
(* ===================================================================== *)

(** A Python dict with string keys, as the list of its items in insertion
    order; a key occurs once. *)
Section PyDict.

Context {V : Type}.

(** [d.get(key)], and [key in d] when it is not [None]. *)
Fixpoint dict_get (key : string) (d : list (string * V)) : option V :=
  match d with
  | [] => None
  | (k, v) :: rest => if decide (k = key) then Some v else dict_get key rest
  end.

(** [d[key] = v]: a key that is present keeps its place, a new key goes
    to the end. *)
Fixpoint dict_set (key : string) (v : V) (d : list (string * V))
    : list (string * V) :=
  match d with
  | [] => [(key, v)]
  | (k, v0) :: rest =>
      if decide (k = key) then (key, v) :: rest
      else (k, v0) :: dict_set key v rest
  end.

(** [if key in d: del d[key]] *)
Fixpoint dict_del (key : string) (d : list (string * V))
    : list (string * V) :=
  match d with
  | [] => []
  | (k, v) :: rest =>
      if decide (k = key) then dict_del key rest
      else (k, v) :: dict_del key rest
  end.

End PyDict.

(** [s.partition('//')] *)
Fixpoint partition_slashes (s : string) : string * string * string :=
  match skip_prefix "//" s with
  | Some rest => ("", "//", rest)
  | None =>
      match s with
      | EmptyString => ("", "", "")
      | String a s' =>
          let '(before, sep, after) := partition_slashes s' in
          (String a before, sep, after)
      end
  end.

(** [str.lower] on one character, for the code points below 256. *)
Definition lower_char (a : ascii) : ascii :=
  let n := Ascii.N_of_ascii a in
  if ((65 <=? n) && (n <=? 90) || (192 <=? n) && (n <=? 214)
      || (216 <=? n) && (n <=? 222))%N
  then Ascii.ascii_of_N (n + 32) else a.

Fixpoint lower (s : string) : string :=
  match s with
  | EmptyString => EmptyString
  | String a s' => String (lower_char a) (lower s')
  end.

(** A character that [str.isdigit] accepts, for the code points below
    256: the ten digits and the superscripts 1, 2 and 3. *)
Definition isdigit_char (a : ascii) : bool :=
  let n := Ascii.N_of_ascii a in
  ((48 <=? n) && (n <=? 57) || (n =? 178) || (n =? 179) || (n =? 185))%N.

Fixpoint all_isdigit (s : string) : bool :=
  match s with
  | EmptyString => true
  | String a s' => isdigit_char a && all_isdigit s'
  end.

(** [s.isdigit()]: false on the empty string. *)
Definition isdigit (s : string) : bool := str_truthy s && all_isdigit s.

Definition newline : string := String "010" EmptyString.

Module Api.

(** The values the key ['status'] of an entry of [port_data] takes. *)
Inductive port_status := Creating | Active | Failed | Terminating.

(** The string stored, and its [upper()]. *)
Definition status_name (s : port_status) : string :=
  match s with
  | Creating => "creating"
  | Active => "active"
  | Failed => "error"
  | Terminating => "terminating"
  end.

Definition status_upper (s : port_status) : string :=
  match s with
  | Creating => "CREATING"
  | Active => "ACTIVE"
  | Failed => "ERROR"
  | Terminating => "TERMINATING"
  end.

(** An entry of [port_data]. The key ['status_text'] is absent until the
    monitor sets it; ['public_url'] holds what [create_tunnel] returned,
    which may be [None]. *)
Record port_entry := {
  ui_status : port_status;
  ui_public_url : option string;
  ui_health : Z;
  ui_ping : Z;
  ui_logs : list string;
  ui_creation_time : Z;
  ui_status_text : option string
}.

(** The threads the object starts. *)
Inductive thread :=
| CreateThread (port_str : string)
| TerminateThread (port_str : string)
| MonitorThread (port_str : string).

Record api := {
  tunnel_manager : state;
  port_data : list (string * port_entry);
  started : list thread;
  opened : list string            (* webbrowser.open(url) *)
}.

(** The dict a method returns to the page. *)
Record response := {
  success : bool;
  message : option string
}.

Definition with_manager (m : state) (a : api) : api :=
  {| tunnel_manager := m;
     port_data := port_data a;
     started := started a;
     opened := opened a |}.

Definition with_port_data (d : list (string * port_entry)) (a : api) : api :=
  {| tunnel_manager := tunnel_manager a;
     port_data := d;
     started := started a;
     opened := opened a |}.

Definition start (t : thread) (a : api) : api :=
  {| tunnel_manager := tunnel_manager a;
     port_data := port_data a;
     started := started a ++ [t];
     opened := opened a |}.

(** The entry of lines 27-34. *)
Definition creating_entry (stamp : string) (now : Z) (port_str : string)
    : port_entry :=
  {| ui_status := Creating;
     ui_public_url := Some "";
     ui_health := 0;
     ui_ping := 0;
     ui_logs := ["[" +:+ stamp +:+ "] Initiating tunnel creation for port "
                 +:+ port_str +:+ "..."];
     ui_creation_time := now;
     ui_status_text := None |}.

(** The two [update] calls of [create_tunnel_thread]. *)
Definition created (public_url : option string) (logs : list string)
    (e : port_entry) : port_entry :=
  {| ui_status := Active;
     ui_public_url := public_url;
     ui_health := 100;
     ui_ping := ui_ping e;
     ui_logs := ui_logs e ++ logs;
     ui_creation_time := ui_creation_time e;
     ui_status_text := ui_status_text e |}.

Definition not_created (logs : list string) (e : port_entry) : port_entry :=
  {| ui_status := Failed;
     ui_public_url := ui_public_url e;
     ui_health := ui_health e;
     ui_ping := ui_ping e;
     ui_logs := ui_logs e ++ logs;
     ui_creation_time := ui_creation_time e;
     ui_status_text := ui_status_text e |}.

(** The body of the thread [create_tunnel_thread], lines 36-58, run to
    its end; [start_monitoring] starts one more thread. When the manager
    does not return, the thread stays in its call. *)
Definition create_tunnel_thread (o : create_env) (port_str : string)
    (a : api) : api :=
  let '(result, m) := create_tunnel o port_str (tunnel_manager a) in
  let a1 := with_manager m a in
  match result with
  | NeverReturns => a1
  | Returns ok public_url logs =>
      match dict_get port_str (port_data a1) with
      | None => a1
      | Some e =>
          if ok then
            start (MonitorThread port_str)
              (with_port_data
                 (dict_set port_str (created public_url logs e)
                    (port_data a1)) a1)
          else
            with_port_data
              (dict_set port_str (not_created logs e) (port_data a1)) a1
      end
  end.

(** [Api.create_tunnel(port)], for [port_str = str(port)], [stamp] the
    text of [time.strftime('%H:%M:%S')] and [now] the reading of
    [time.time()]. *)
Definition create_tunnel (stamp : string) (now : Z) (port_str : string)
    (a : api) : response * api :=
  match dict_get port_str (port_data a) with
  | Some _ =>
      ({| success := false;
          message := Some ("Tunnel on port " +:+ port_str
                           +:+ " already exists or is processing.") |},
       a)
  | None =>
      ({| success := true;
          message := Some ("Creating tunnel on port " +:+ port_str) |},
       start (CreateThread port_str)
         (with_port_data
            (dict_set port_str (creating_entry stamp now port_str)
               (port_data a)) a))
  end.

Definition set_status (s : port_status) (e : port_entry) : port_entry :=
  {| ui_status := s;
     ui_public_url := ui_public_url e;
     ui_health := ui_health e;
     ui_ping := ui_ping e;
     ui_logs := ui_logs e;
     ui_creation_time := ui_creation_time e;
     ui_status_text := ui_status_text e |}.

(** The body of the thread [terminate_thread], lines 74-85. *)
Definition terminate_thread (o : teardown_env) (port_str : string)
    (a : api) : api :=
  let '(_, m) := terminate_tunnel o port_str (tunnel_manager a) in
  with_port_data (dict_del port_str (port_data a)) (with_manager m a).

(** [Api.terminate_tunnel(port)] *)
Definition terminate_tunnel (port_str : string) (a : api) : response * api :=
  match dict_get port_str (port_data a) with
  | None =>
      ({| success := false;
          message := Some ("No tunnel found on port " +:+ port_str) |},
       a)
  | Some e =>
      ({| success := true;
          message := Some ("Terminating tunnel on port " +:+ port_str) |},
       start (TerminateThread port_str)
         (with_port_data
            (dict_set port_str (set_status Terminating e) (port_data a)) a))
  end.

(** [Api.terminate_all_tunnels()] *)
Definition terminate_all_tunnels (a : api) : string * api :=
  let ports := map fst (port_data a) in
  match ports with
  | [] => ("No active tunnels to terminate.", a)
  | _ =>
      ("Termination signal sent to "
       +:+ str_int (Z.of_nat (length ports)) +:+ " tunnels.",
       fold_left (fun a port => snd (terminate_tunnel port a)) ports a)
  end.

(** The update of lines 118-126. *)
Definition monitored (stamp : string) (health ping : Z) (status_text : string)
    (e : port_entry) : port_entry :=
  let dead := String.eqb status_text "Process terminated" in
  {| ui_status := if dead then Failed else ui_status e;
     ui_public_url := ui_public_url e;
     ui_health := health;
     ui_ping := ping;
     ui_logs := if dead
                then ui_logs e ++ ["[" +:+ stamp
                                   +:+ "] Connection lost. Process terminated."]
                else ui_logs e;
     ui_creation_time := ui_creation_time e;
     ui_status_text := Some status_text |}.

(** One turn of the loop of [monitor], lines 107-132: whether the loop
    goes on, and the state. *)
Definition monitor (o : stats_env) (stamp : string) (port_str : string)
    (a : api) : bool * api :=
  match dict_get port_str (port_data a) with
  | Some e =>
      match ui_status e with
      | Active =>
          let '((health, ping, status_text), m) :=
            get_tunnel_stats o port_str (tunnel_manager a) in
          let a1 := with_manager m a in
          (true,
           match dict_get port_str (port_data a1) with
           | Some e1 =>
               with_port_data
                 (dict_set port_str
                    (monitored stamp health ping status_text e1)
                    (port_data a1)) a1
           | None => a1
           end)
      | _ => (false, a)
      end
  | None => (false, a)
  end.

(** The loop of [monitor] over the turns that take place, each with what
    the probe finds and the text of the clock. *)
Fixpoint monitor_loop (turns : list (stats_env * string)) (port_str : string)
    (a : api) : api :=
  match turns with
  | [] => a
  | (o, stamp) :: rest =>
      let '(goes_on, a1) := monitor o stamp port_str a in
      if goes_on then monitor_loop rest port_str a1 else a1
  end.

(** [Api.get_logs(port)] *)
Definition get_logs (port_str : string) (a : api) : list string :=
  match dict_get port_str (port_data a) with
  | Some e => ui_logs e
  | None => []
  end.

(** [Api.open_public_url(port)] *)
Definition open_public_url (port_str : string) (a : api) : response * api :=
  let public_url :=
    match dict_get port_str (port_data a) with
    | Some e => ui_public_url e
    | None => Some ""
    end in
  match public_url with
  | Some (String c url) =>
      ({| success := true; message := None |},
       {| tunnel_manager := tunnel_manager a;
          port_data := port_data a;
          started := started a;
          opened := opened a ++ [String c url] |})
  | _ => ({| success := false; message := Some "No public URL found" |}, a)
  end.

(** The text of a value that may be [None], in an f-string. *)
Definition str_option (s : option string) : string :=
  match s with Some v => v | None => "None" end.

Definition status_line (item : string * port_entry) : string :=
  "Port " +:+ item.1 +:+ ": " +:+ status_upper (ui_status item.2) +:+ newline.

Definition status_report (arg : string) (data : port_entry) : string :=
  "--- STATUS FOR PORT " +:+ arg +:+ " ---" +:+ newline
  +:+ "Status: " +:+ status_upper (ui_status data) +:+ newline
  +:+ "Public URL: " +:+ str_option (ui_public_url data) +:+ newline
  +:+ "Health: " +:+ str_int (ui_health data) +:+ "%" +:+ newline
  +:+ "Ping: " +:+ str_int (ui_ping data) +:+ "ms" +:+ newline
  +:+ "Monitored Status: "
  +:+ match ui_status_text data with Some t => t | None => "N/A" end
  +:+ newline.

Definition help_text : string :=
  "--- AVAILABLE COMMANDS ---" +:+ newline
  +:+ "run//<port>       - Creates a new tunnel on the specified port."
  +:+ newline
  +:+ "stop//<port>      - Terminates the tunnel on the specified port."
  +:+ newline
  +:+ "stopall//         - Terminates all active tunnels." +:+ newline
  +:+ "status//<port>   - Shows detailed status for a specific port."
  +:+ newline
  +:+ "status//all       - (or status//) Shows a summary of all tunnels."
  +:+ newline
  +:+ "clear//           - Clears the console screen." +:+ newline
  +:+ "help//            - Shows this help message.".

(** The branch [cmd == 'status'], lines 192-212. *)
Definition status_command (arg : string) (a : api) : string :=
  if negb (str_truthy arg) || String.eqb (lower arg) "all" then
    match port_data a with
    | [] => "No active tunnels."
    | items =>
        fold_left (fun text item => text +:+ status_line item) items
          ("--- ALL TUNNEL STATUS ---" +:+ newline)
    end
  else
    match dict_get arg (port_data a) with
    | Some data => status_report arg data
    | None => "Error: No tunnel found on port " +:+ arg +:+ "."
    end.

(** [Api.run_console_command(command_line)] *)
Definition run_console_command (stamp : string) (now : Z)
    (command_line : string) (a : api) : string * api :=
  let '(cmd, _, arg) := partition_slashes command_line in
  let cmd := lower (strip cmd) in
  let arg := strip arg in
  if String.eqb cmd "run" then
    if isdigit arg then
      let '(result, a1) := create_tunnel stamp now arg a in
      (str_option (message result), a1)
    else ("Error: 'run' requires a numeric port. (e.g., run//5000)", a)
  else if String.eqb cmd "stop" then
    if isdigit arg then
      let '(result, a1) := terminate_tunnel arg a in
      (str_option (message result), a1)
    else ("Error: 'stop' requires a numeric port. (e.g., stop//5000)", a)
  else if String.eqb cmd "stopall" then terminate_all_tunnels a
  else if String.eqb cmd "status" then (status_command arg a, a)
  else if String.eqb cmd "help" then (help_text, a)
  else if String.eqb cmd "clear" then ("CLEAR_CONSOLE", a)
  else ("Unknown command: '" +:+ cmd +:+ "'. Type 'help//' for commands.", a).

End Api.

(** ** Vocabulary of the properties of [Api] *)

(** The ports of [port_data], in order. *)
Definition ports_of (a : Api.api) : list string := map fst (Api.port_data a).

(** What every entry of [port_data] satisfies: a health between 0 and
    100, and, while it is shown as active, a URL of the pattern. *)
Definition entry_ok (e : Api.port_entry) : Prop :=
  0 <= Api.ui_health e <= 100 /\
  (Api.ui_status e = Api.Active ->
   exists url, Api.ui_public_url e = Some url /\ is_public_url url = true).

Definition api_ok (a : Api.api) : Prop :=
  NoDup (ports_of a) /\
  Forall (fun item => entry_ok item.2) (Api.port_data a) /\
  manager_ok (Api.tunnel_manager a).

(** The command and the argument [run_console_command] works with. *)
Definition console_cmd (command_line : string) : string :=
  lower (strip (partition_slashes command_line).1.1).

Definition console_arg (command_line : string) : string :=
  strip (partition_slashes command_line).2.

(** The threads [terminate_all_tunnels] starts, run one after the other,
    each with what the process table answers for its port. *)
Definition run_terminate_threads (answers : string -> teardown_env)
    (ports : list string) (a : Api.api) : Api.api :=
  fold_left (fun a port => Api.terminate_thread (answers port) port a)
            ports a.

Definition fresh_api : Api.api :=
  {| Api.tunnel_manager := empty_state;
     Api.port_data := [];
     Api.started := [];
     Api.opened := [] |}.

(** The page after [run//5000]. *)
Definition creating_api : Api.api :=
  snd (Api.run_console_command "12:00:00" 1700000000000000 "run//5000"
         fresh_api).

(** ... and after the thread of the creation has found the URL. *)
Definition active_api : Api.api :=
  Api.create_tunnel_thread prompt_url "5000" creating_api.









(* ===================================================================== *)
(** * Properties *)
(* ===================================================================== *)

(** ** terminate_tunnel *)

Lemma emit_tunnels evs st : active_tunnels (emit evs st) = active_tunnels st.
Proof. reflexivity. Qed.

Lemma emit_emit evs1 evs2 st : emit evs2 (emit evs1 st) = emit (evs1 ++ evs2) st.
Proof. unfold emit; simpl. by rewrite app_assoc. Qed.

Lemma emit_nil st : emit [] st = st.
Proof. destruct st; unfold emit; simpl. by rewrite app_nil_r. Qed.

Create HintDb supervisor.

Lemma emits_only_perform evs st : emits_only st (perform evs st).
Proof. by exists evs. Qed.

Lemma emits_only_print o site st : emits_only st (print_at o site st).
Proof.
  exists []. unfold print_at. destruct (print_raises o site); simpl;
    by rewrite emit_nil.
Qed.

#[local] Hint Resolve emits_only_perform emits_only_print : supervisor.

Lemma emits_only_then st m k :
  emits_only st m -> (forall st', emits_only st' (k st')) ->
  emits_only st (m >> k).
Proof.
  intros [evs Hm] Hk. destruct m as [st1|st1]; simpl in *.
  - destruct (Hk st1) as [evs' Hk']. exists (evs ++ evs').
    rewrite Hk', Hm. apply emit_emit.
  - by exists evs.
Qed.

Lemma psutil_teardown_emits o proc pid st :
  emits_only st (psutil_teardown o proc pid st).
Proof.
  unfold psutil_teardown.
  destruct (walk o) as [[]|children [[]|]];
    repeat (apply emits_only_then; [|intros ?]); auto with supervisor.
Qed.

#[local] Hint Resolve psutil_teardown_emits : supervisor.

Lemma teardown_emits o d st : emits_only st (teardown o d st).
Proof.
  unfold teardown.
  repeat (apply emits_only_then; [|intros ?]); auto with supervisor.
Qed.

Lemma terminate_tunnel_state o p st d :
  active_tunnels st !! p = Some d ->
  exists evs,
    snd (terminate_tunnel o p st) = emit evs (set_tunnels (delete p) st).
Proof.
  intros Hd. unfold terminate_tunnel. rewrite Hd.
  destruct (teardown_emits o d (set_tunnels (delete p) st)) as [evs Hevs].
  exists evs.
  destruct (teardown o d (set_tunnels (delete p) st)) as [st'|st'];
    simpl in *; subst st'; [done|].
  simpl. by rewrite lookup_delete_eq.
Qed.

Lemma terminate_tunnel_absent o p st :
  active_tunnels (snd (terminate_tunnel o p st)) !! p = None.
Proof.
  destruct (active_tunnels st !! p) as [d|] eqn:Hd.
  - destruct (terminate_tunnel_state o p st d Hd) as [evs ->].
    simpl. apply lookup_delete_eq.
  - unfold terminate_tunnel. by rewrite Hd.
Qed.

Lemma terminate_tunnel_map o p st :
  active_tunnels (snd (terminate_tunnel o p st)) = delete p (active_tunnels st).
Proof.
  destruct (active_tunnels st !! p) as [d|] eqn:Hd.
  - by destruct (terminate_tunnel_state o p st d Hd) as [evs ->].
  - unfold terminate_tunnel. rewrite Hd. simpl. by rewrite delete_id.
Qed.

(** ** terminate_tunnel, the states in between *)

Lemma after_each_app evs1 evs2 st :
  after_each (evs1 ++ evs2) st
  = after_each evs1 st ++ after_each evs2 (emit evs1 st).
Proof.
  revert st. induction evs1 as [|ev evs1 IH]; intros st; simpl.
  - by rewrite emit_nil.
  - by rewrite IH, emit_emit.
Qed.

Lemma after_each_tunnels evs st :
  Forall (fun s => active_tunnels s = active_tunnels st) (after_each evs st).
Proof.
  revert st. induction evs as [|ev evs IH]; intros st; simpl.
  - constructor.
  - constructor; [done|]. exact (IH (emit [ev] st)).
Qed.

Lemma last_after_each evs st :
  last (st :: after_each evs st) = Some (emit evs st).
Proof.
  revert st. induction evs as [|ev evs IH]; intros st.
  - simpl. by rewrite emit_nil.
  - change (last (emit [ev] st :: after_each evs (emit [ev] st))
            = Some (emit (ev :: evs) st)).
    by rewrite IH, emit_emit.
Qed.

Lemma follows_perform evs st :
  follows st (watched_perform evs st) (perform evs st).
Proof. split; [done|]. by exists evs. Qed.

Lemma follows_print o site st :
  follows st (watched_print o site st) (print_at o site st).
Proof.
  split; [done|]. exists []. split; [done|].
  unfold print_at. destruct (print_raises o site); simpl; by rewrite emit_nil.
Qed.

#[local] Hint Resolve follows_perform follows_print : supervisor.

Lemma follows_then st w m kw k :
  follows st w m -> (forall st', follows st' (kw st') (k st')) ->
  follows st (w >>> kw) (m >> k).
Proof.
  destruct w as [seen r]. intros [Hr (evs & Hseen & Hm)] Hk.
  simpl in Hr, Hseen. subst r seen.
  destruct m as [st1|st1]; simpl in Hm; subst st1; simpl.
  - destruct (Hk (emit evs st)) as [Hr' (evs' & Hseen' & Hm')].
    destruct (kw (emit evs st)) as [seen' r']. simpl in Hr', Hseen'.
    subst r' seen'. split; [done|]. exists (evs ++ evs'). simpl.
    by rewrite after_each_app, Hm', emit_emit.
  - split; [done|]. by exists evs.
Qed.

Lemma psutil_teardown_follows o proc pid st :
  follows st (psutil_teardown_watched o proc pid st)
             (psutil_teardown o proc pid st).
Proof.
  unfold psutil_teardown_watched, psutil_teardown.
  destruct (walk o) as [[]|children [[]|]];
    repeat (apply follows_then; [|intros ?]); auto with supervisor.
Qed.

#[local] Hint Resolve psutil_teardown_follows : supervisor.

Lemma teardown_follows o d st :
  follows st (teardown_watched o d st) (teardown o d st).
Proof.
  unfold teardown_watched, teardown.
  repeat (apply follows_then; [|intros ?]); auto with supervisor.
Qed.

Lemma terminate_tunnel_watched_eq o p st :
  snd (terminate_tunnel_watched o p st) = terminate_tunnel o p st.
Proof.
  unfold terminate_tunnel_watched, terminate_tunnel.
  destruct (active_tunnels st !! p) as [d|]; [|done].
  destruct (teardown_follows o d (set_tunnels (delete p) st)) as [Hsnd _].
  destruct (teardown_watched o d (set_tunnels (delete p) st)) as [seen r].
  simpl in Hsnd. rewrite <- Hsnd.
  destruct r as [st'|st']; [done|].
  by destruct (active_tunnels st' !! p).
Qed.

Lemma terminate_tunnel_watched_states o p st d :
  active_tunnels st !! p = Some d ->
  exists evs,
    fst (terminate_tunnel_watched o p st)
    = set_tunnels (delete p) st
      :: after_each evs (set_tunnels (delete p) st) /\
    snd (terminate_tunnel o p st) = emit evs (set_tunnels (delete p) st).
Proof.
  intros Hd. unfold terminate_tunnel_watched, terminate_tunnel. rewrite Hd.
  destruct (teardown_follows o d (set_tunnels (delete p) st))
    as [Hsnd (evs & Hfst & Hst)].
  destruct (teardown_watched o d (set_tunnels (delete p) st)) as [seen r].
  simpl in Hsnd, Hfst. rewrite <- Hsnd in *. subst seen. exists evs.
  destruct r as [st'|st']; simpl in Hst; subst st'; [done|].
  simpl. by rewrite lookup_delete_eq.
Qed.

(** C5: for a port present in the live map, the first state terminate_tunnel
    leaves for another thread to see is the original one with the record
    removed and no effect on the outside world performed yet; every state
    it passes afterwards, one per call of the teardown, has the live map
    without the port, and the last of them is the state at the return. So
    the record is removed before any teardown, a probe of the port that
    runs in between finds no tunnel, nothing but effects on the outside
    world follows the removal, and on every path, the ones that return
    false included, the live map at the return is the original one
    without the port. *)
Theorem terminate_tunnel_removes_record_first o p st d :
  active_tunnels st !! p = Some d ->
  let popped := set_tunnels (delete p) st in
  let passed := fst (terminate_tunnel_watched o p st) in
  let st' := snd (terminate_tunnel o p st) in
  snd (terminate_tunnel_watched o p st) = terminate_tunnel o p st /\
  head passed = Some popped /\
  effects popped = effects st /\
  Forall (fun s => active_tunnels s = delete p (active_tunnels st)) passed /\
  Forall (fun s => forall probing,
            get_tunnel_stats probing p s = ((0, 0, "Tunnel not found"), s))
         passed /\
  (exists evs,
     passed = popped :: after_each evs popped /\ st' = emit evs popped) /\
  last passed = Some st' /\
  active_tunnels st' = delete p (active_tunnels st) /\
  active_tunnels st' !! p = None.
Proof.
  intros Hd popped passed st'.
  destruct (terminate_tunnel_watched_states o p st d Hd)
    as (evs & Hpassed & Hst).
  fold popped passed in Hpassed. fold popped st' in Hst.
  split; [apply terminate_tunnel_watched_eq|].
  split; [by rewrite Hpassed|].
  split; [done|].
  assert (Hmap : Forall (fun s => active_tunnels s
                                  = delete p (active_tunnels st)) passed).
  { rewrite Hpassed. constructor; [done|].
    exact (after_each_tunnels evs popped). }
  split; [exact Hmap|].
  split.
  { apply (Forall_impl _ _ _ Hmap). intros s Hs probing.
    unfold get_tunnel_stats. by rewrite Hs, lookup_delete_eq. }
  split; [by exists evs|].
  split; [rewrite Hpassed, Hst; apply last_after_each|].
  rewrite Hst. simpl. split; [done|apply lookup_delete_eq].
Qed.

Lemma terminate_tunnel_removes_record_first_witness :
  active_tunnels sample_state !! "5000" = Some sample_tunnel /\
  fst (terminate_tunnel failing_teardown "5000" sample_state) = false /\
  active_tunnels (snd (terminate_tunnel failing_teardown "5000" sample_state))
    !! "5000" = None /\
  head (fst (terminate_tunnel_watched quiet_teardown "5000" sample_state))
  = Some (set_tunnels (delete "5000") sample_state) /\
  length (fst (terminate_tunnel_watched quiet_teardown "5000" sample_state))
  = 6%nat.
Proof.
  split; [vm_compute; reflexivity|].
  split; [vm_compute; reflexivity|].
  split.
  - apply (terminate_tunnel_removes_record_first failing_teardown "5000"
             sample_state sample_tunnel).
    vm_compute; reflexivity.
  - split; [|vm_compute; reflexivity].
    apply (terminate_tunnel_removes_record_first quiet_teardown "5000"
             sample_state sample_tunnel).
    vm_compute; reflexivity.
Defined.

(** C6: on a port that is not in the live map terminate_tunnel returns
    False and leaves the state as it is; a call that follows another call
    on the same port returns False; and the first call on a registered
    port returns True when no unexpected exception escapes, so two calls
    in a row give True, then False. Every call returns a flag. *)
Theorem terminate_tunnel_unknown_port o1 o2 p st :
  (active_tunnels st !! p = None -> terminate_tunnel o1 p st = (false, st)) /\
  fst (terminate_tunnel o2 p (snd (terminate_tunnel o1 p st))) = false /\
  (is_Some (active_tunnels st !! p) ->
   (forall site, print_raises o1 site = false) ->
   fst (terminate_tunnel o1 p st) = true).
Proof.
  split; [|split].
  - intros Hnone. unfold terminate_tunnel. by rewrite Hnone.
  - pose proof (terminate_tunnel_absent o1 p st) as Habs.
    unfold terminate_tunnel at 1. by rewrite Habs.
  - intros [d Hd] Hquiet. unfold terminate_tunnel. rewrite Hd.
    unfold teardown, psutil_teardown, print_at.
    destruct (walk o1) as [[]|children [[]|]];
      rewrite ?Hquiet; simpl; rewrite ?Hquiet; reflexivity.
Qed.

Lemma terminate_tunnel_unknown_port_witness :
  terminate_tunnel quiet_teardown "5000" empty_state = (false, empty_state) /\
  fst (terminate_tunnel quiet_teardown "5000" sample_state) = true /\
  fst (terminate_tunnel quiet_teardown "5000"
         (snd (terminate_tunnel quiet_teardown "5000" sample_state))) = false.
Proof.
  destruct (terminate_tunnel_unknown_port quiet_teardown quiet_teardown
              "5000" empty_state) as [Hunknown _].
  destruct (terminate_tunnel_unknown_port quiet_teardown quiet_teardown
              "5000" sample_state) as (_ & Hsecond & Hfirst).
  split; [apply Hunknown; vm_compute; reflexivity|].
  split; [|exact Hsecond].
  apply Hfirst; [exists sample_tunnel; vm_compute; reflexivity|].
  intros site; reflexivity.
Defined.

(** The teardown of a process with one child that ignores the signal:
    the child is signalled, then the parent, both are waited for during 3
    seconds, the survivor is killed, and the handle is waited for during
    5 seconds. *)
Example terminate_tunnel_escalates :
  terminate_tunnel quiet_teardown "5000" sample_state
  = (true,
     {| active_tunnels := ∅;
        cloudflared_path := "cloudflared";
        effects := [PsTerminate 4243; PsTerminate 4242;
                    PsWaitProcs [4242; 4243] 3; PsKill 4243;
                    PopenWait {| popen_pid := 4242 |} 5] |}).
Proof. vm_compute. reflexivity. Qed.

(** The path of the outer handler: an unexpected exception after the
    record has been popped. *)
Example terminate_tunnel_internal_error :
  terminate_tunnel failing_teardown "5000" sample_state = (false, empty_state).
Proof. vm_compute. reflexivity. Qed.

(** ** get_tunnel_stats *)

(** C3: for a port that is not in the live map get_tunnel_stats returns
    (0, 0, "Tunnel not found") and the state is the one it was called in. *)
Theorem get_tunnel_stats_unknown_port o p st :
  active_tunnels st !! p = None ->
  get_tunnel_stats o p st = ((0, 0, "Tunnel not found"), st).
Proof. intros Hnone. unfold get_tunnel_stats. by rewrite Hnone. Qed.

Lemma get_tunnel_stats_unknown_port_witness :
  active_tunnels sample_state !! "8080" = None /\
  get_tunnel_stats (stats_of StillRunning switching_protocols) "8080"
    sample_state = ((0, 0, "Tunnel not found"), sample_state).
Proof.
  split; [vm_compute; reflexivity|].
  apply get_tunnel_stats_unknown_port. vm_compute; reflexivity.
Defined.

(** C4: when the record is in the live map and poll() reports an exit,
    get_tunnel_stats runs terminate_tunnel on the port, returns
    (0, 0, "Process terminated"), and leaves a live map without the port:
    every later get_tunnel_stats on it returns the not-found triple. *)
Theorem get_tunnel_stats_dead_process o p st d code :
  active_tunnels st !! p = Some d ->
  poll o = Exited code ->
  let st' := snd (terminate_tunnel (cleanup o) p st) in
  get_tunnel_stats o p st = ((0, 0, "Process terminated"), st') /\
  active_tunnels st' = delete p (active_tunnels st) /\
  active_tunnels st' !! p = None /\
  forall o', get_tunnel_stats o' p st' = ((0, 0, "Tunnel not found"), st').
Proof.
  intros Hd Hpoll st'.
  pose proof (terminate_tunnel_map (cleanup o) p st) as Hmap.
  pose proof (terminate_tunnel_absent (cleanup o) p st) as Habs.
  split; [|split; [exact Hmap|split; [exact Habs|]]].
  - unfold get_tunnel_stats. by rewrite Hd, Hpoll.
  - intros o'. unfold get_tunnel_stats. fold st' in Habs. by rewrite Habs.
Qed.

Lemma get_tunnel_stats_dead_process_witness :
  active_tunnels sample_state !! "5000" = Some sample_tunnel /\
  fst (get_tunnel_stats (stats_of (Exited 1) switching_protocols) "5000"
         sample_state) = (0, 0, "Process terminated") /\
  active_tunnels
    (snd (get_tunnel_stats (stats_of (Exited 1) switching_protocols) "5000"
            sample_state)) !! "5000" = None.
Proof.
  split; [vm_compute; reflexivity|].
  destruct (get_tunnel_stats_dead_process
              (stats_of (Exited 1) switching_protocols) "5000" sample_state
              sample_tunnel 1) as (Hret & _ & Habs & _);
    [vm_compute; reflexivity|reflexivity|].
  rewrite Hret. split; [reflexivity|exact Habs].
Defined.

Lemma probe_stats_code_table r : code_table r (probe_stats r).
Proof.
  destruct r as [c t0 t1|e]; simpl.
  - destruct (200 <=? c) eqn:Hlo; destruct (c <? 500) eqn:Hhi; simpl;
      constructor; lia.
  - destruct (is_Timeout e) eqn:Ht; [by constructor|].
    destruct (is_ConnectionError e) eqn:Hc; by constructor.
Qed.

Lemma code_table_functional r t : code_table r t -> t = probe_stats r.
Proof.
  destruct 1 as [c t0 t1 H|c t0 t1 H|e Ht|e Ht Hc|e Ht Hc]; simpl.
  - replace (200 <=? c) with true by lia. by replace (c <? 500) with true by lia.
  - destruct H.
    + by replace (200 <=? c) with false by lia.
    + replace (c <? 500) with false by lia. by rewrite andb_false_r.
  - by rewrite Ht.
  - by rewrite Ht, Hc.
  - by rewrite Ht, Hc.
Qed.

Lemma get_tunnel_stats_running o p st d :
  active_tunnels st !! p = Some d ->
  poll o = StillRunning ->
  get_tunnel_stats o p st =
    (probe_stats (probe o),
     set_tunnels
       (<[p := update_stats (probe_stats (probe o)).1.1
                 (probe_stats (probe o)).1.2 (probe_stats (probe o)).2 d]>)
       (emit [HttpGet (public_url d) 5 false] st)).
Proof.
  intros Hd Hpoll. unfold get_tunnel_stats. rewrite Hd, Hpoll.
  destruct (probe_stats (probe o)) as [[h pg] s]. simpl. by rewrite Hd.
Qed.

(** C1, as the code has it: for a known port whose process is running,
    get_tunnel_stats performs one GET on the public URL with a timeout of
    5 seconds and no certificate check, and returns the triple of the
    probe table: (100, ms, "Healthy") for a status in 200-499,
    (25, ms, "HTTP <code>") for every other status, below 200 or from 500
    on, (10, 5000, "Connection timeout") for a timeout,
    (0, 5000, "Connection failed") for a connection error that is not a
    timeout, (5, 5000, "Request Error") for any other exception; and no
    other triple. *)
Theorem get_tunnel_stats_probe_table o p st d :
  active_tunnels st !! p = Some d ->
  poll o = StillRunning ->
  let result := get_tunnel_stats o p st in
  code_table (probe o) (fst result) /\
  (forall t, code_table (probe o) t -> t = fst result) /\
  effects (snd result) = effects st ++ [HttpGet (public_url d) 5 false].
Proof.
  intros Hd Hpoll result. subst result.
  rewrite (get_tunnel_stats_running o p st d Hd Hpoll). simpl.
  split; [apply probe_stats_code_table|].
  split; [apply code_table_functional|done].
Qed.

Lemma get_tunnel_stats_probe_table_witness :
  active_tunnels sample_state !! "5000" = Some sample_tunnel /\
  code_table switching_protocols
    (fst (get_tunnel_stats (stats_of StillRunning switching_protocols)
            "5000" sample_state)).
Proof.
  split; [vm_compute; reflexivity|].
  apply (get_tunnel_stats_probe_table
           (stats_of StillRunning switching_protocols) "5000" sample_state
           sample_tunnel); [vm_compute; reflexivity|reflexivity].
Defined.

(** C1, as the specification words it, fails: a response with status 101
    gives (25, 123, "HTTP 101"), and the table of the specification has no
    row for a status below 200. *)
Lemma get_tunnel_stats_status_101 :
  active_tunnels sample_state !! "5000" = Some sample_tunnel /\
  poll (stats_of StillRunning switching_protocols) = StillRunning /\
  fst (get_tunnel_stats (stats_of StillRunning switching_protocols)
         "5000" sample_state) = (25, 123, "HTTP 101") /\
  ~ spec_table (probe (stats_of StillRunning switching_protocols))
      (fst (get_tunnel_stats (stats_of StillRunning switching_protocols)
              "5000" sample_state)).
Proof.
  split; [vm_compute; reflexivity|].
  split; [reflexivity|].
  assert (Hrun : fst (get_tunnel_stats
                        (stats_of StillRunning switching_protocols)
                        "5000" sample_state) = (25, 123, "HTTP 101"))
    by (vm_compute; reflexivity).
  split; [exact Hrun|].
  rewrite Hrun. simpl. unfold switching_protocols.
  intros Htable. inversion Htable; lia.
Qed.

(** C10: a probe of a registered port whose process is running changes
    the health, ping and status_text of that record, to the triple it
    returns, and nothing else: the other seven fields of the record and
    the records of all other ports are as before. *)
Theorem get_tunnel_stats_frame o p st d :
  active_tunnels st !! p = Some d ->
  poll o = StillRunning ->
  let result := get_tunnel_stats o p st in
  (exists d',
     active_tunnels (snd result) !! p = Some d' /\
     (health d', ping d', status_text d') = fst result /\
     port d' = port d /\ public_url d' = public_url d /\
     pid d' = pid d /\ start_time d' = start_time d /\
     status d' = status d /\ process d' = process d /\
     logs d' = logs d) /\
  (forall q, q <> p ->
     active_tunnels (snd result) !! q = active_tunnels st !! q).
Proof.
  intros Hd Hpoll result. subst result.
  rewrite (get_tunnel_stats_running o p st d Hd Hpoll). simpl.
  split.
  - eexists. rewrite lookup_insert_eq. split; [reflexivity|].
    simpl. by destruct (probe_stats (probe o)) as [[h pg] s].
  - intros q Hq. by rewrite lookup_insert_ne.
Qed.

Lemma get_tunnel_stats_frame_witness :
  active_tunnels sample_state !! "5000" = Some sample_tunnel /\
  active_tunnels
    (snd (get_tunnel_stats (stats_of StillRunning switching_protocols)
            "5000" sample_state)) !! "8080" = None.
Proof.
  split; [vm_compute; reflexivity|].
  destruct (get_tunnel_stats_frame
              (stats_of StillRunning switching_protocols) "5000"
              sample_state sample_tunnel) as [_ Hothers];
    [vm_compute; reflexivity|reflexivity|].
  rewrite Hothers; [vm_compute; reflexivity|discriminate].
Defined.

(** ** The public-URL pattern *)

Lemma match_here_truthy s url : match_here s = Some url -> str_truthy url = true.
Proof.
  unfold match_here. destruct (skip_prefix _ s) as [s1|]; [|done].
  destruct (span_label s1) as [lbl rest].
  destruct lbl; [done|]. destruct (skip_prefix _ rest); [|done].
  by intros [= <-].
Qed.

Lemma re_search_truthy line url :
  re_search line = Some url -> str_truthy url = true.
Proof.
  induction line as [|a line IH]; simpl.
  - done.
  - destruct (match_here (String a line)) eqn:E; [|exact IH].
    intros [= <-]. by eapply match_here_truthy.
Qed.

Lemma re_search_empty : re_search "" = None.
Proof. reflexivity. Qed.

(** ** create_tunnel *)

Lemma extend_logs_nil d : extend_logs [] d = d.
Proof. destruct d. unfold extend_logs; simpl. by rewrite app_nil_r. Qed.

Lemma extend_logs_app a b d :
  extend_logs b (extend_logs a d) = extend_logs (a ++ b) d.
Proof. unfold extend_logs; simpl. by rewrite app_assoc. Qed.

Lemma logs_to_nil p st : logs_to p [] st = st.
Proof.
  destruct st as [m c e]. unfold logs_to, set_tunnels; simpl. f_equal.
  apply map_eq; intros i. rewrite lookup_alter. case_decide; [|done].
  subst i. destruct (m !! p); simpl; [|done]. by rewrite extend_logs_nil.
Qed.

Lemma logs_to_app p a b st : logs_to p b (logs_to p a st) = logs_to p (a ++ b) st.
Proof.
  unfold logs_to, set_tunnels; simpl. f_equal.
  apply map_eq; intros i. rewrite !lookup_alter.
  repeat case_decide; try done.
  destruct (active_tunnels st !! p); simpl; [|done].
  by rewrite extend_logs_app.
Qed.

Lemma logs_to_emit p es evs st :
  logs_to p es (emit evs st) = emit evs (logs_to p es st).
Proof. reflexivity. Qed.

Section Discovery.

Context (o : create_env) (p : string).

Lemma log_appender_eq line logs st :
  log_appender o p line (logs, st)
  = (logs ++ [log_entry o (length logs) line],
     logs_to p [log_entry o (length logs) line] st).
Proof. reflexivity. Qed.

Lemma log_all_eq lines logs st :
  log_all o p lines (logs, st)
  = (logs ++ stamped o (length logs) lines,
     logs_to p (stamped o (length logs) lines) st).
Proof.
  revert logs st. induction lines as [|line lines IH]; intros logs st.
  - simpl. by rewrite app_nil_r, logs_to_nil.
  - change (log_all o p (line :: lines) (logs, st))
      with (log_all o p lines (log_appender o p line (logs, st))).
    rewrite log_appender_eq, IH, length_app, Nat.add_1_r. simpl.
    by rewrite <- app_assoc, logs_to_app.
Qed.

Lemma stamped_app k a b :
  stamped o k (a ++ b) = stamped o k a ++ stamped o (k + length a) b.
Proof.
  revert k. induction a as [|x a IH]; intros k; simpl.
  - by rewrite Nat.add_0_r.
  - by rewrite IH, Nat.add_succ_r.
Qed.

Lemma length_stamped k lines : length (stamped o k lines) = length lines.
Proof. revert k. induction lines; intros k; simpl; [done|]. by rewrite IHlines. Qed.

Lemma stamped_lookup k lines i line :
  lines !! i = Some line ->
  stamped o k lines !! i = Some (log_entry o (k + i) line).
Proof.
  revert k i. induction lines as [|x lines IH]; intros k [|i] H; simpl in *;
    try done.
  - injection H as ->. by rewrite Nat.add_0_r.
  - rewrite (IH (S k) i H). by rewrite Nat.add_succ_r.
Qed.

(** The loop reads through the lines that keep it going. *)
Lemma read_lines_quiet pre rest ending acc :
  Forall (quiet (t_start o)) pre ->
  read_lines o p (pre ++ rest) ending acc
  = read_lines o p rest ending (log_all o p (map fst pre) acc).
Proof.
  intros Hpre. revert acc.
  induction Hpre as [|[line t] pre (Htruthy & Hsearch & Htime) _ IH];
    intros acc; [done|].
  simpl in *. rewrite Htruthy, Hsearch.
  replace (seconds 20 <? t - t_start o) with false by lia.
  apply IH.
Qed.

Lemma log_all_app a b acc :
  log_all o p (a ++ b) acc = log_all o p b (log_all o p a acc).
Proof. apply fold_left_app. Qed.

Lemma read_lines_timeout pre line t post ending acc :
  Forall (quiet (t_start o)) pre ->
  str_truthy line = true -> re_search line = None ->
  seconds 20 < t - t_start o ->
  read_lines o p (pre ++ (line, t) :: post) ending acc
  = (TimedOut,
     log_all o p
       (map fst pre ++ [line; "Error: Timeout waiting for public URL."]) acc).
Proof.
  intros Hpre Htruthy Hsearch Hlate.
  rewrite read_lines_quiet, log_all_app by done. simpl read_lines.
  rewrite Htruthy, Hsearch.
  by replace (seconds 20 <? t - t_start o) with true by lia.
Qed.

Lemma read_lines_found pre line t post ending acc url :
  Forall (quiet (t_start o)) pre ->
  re_search line = Some url ->
  read_lines o p (pre ++ (line, t) :: post) ending acc
  = (UrlFound url,
     log_all o p (map fst pre ++ [line; "Public URL found: " +:+ url]) acc).
Proof.
  intros Hpre Hsearch.
  rewrite read_lines_quiet, log_all_app by done. simpl read_lines.
  destruct line as [|a line]; [by rewrite re_search_empty in Hsearch|].
  simpl str_truthy. cbv iota. by rewrite Hsearch.
Qed.

Lemma read_lines_end pre ending acc :
  Forall (quiet (t_start o)) pre ->
  read_lines o p pre ending acc
  = (exit_at ending, log_all o p (map fst pre) acc).
Proof.
  intros Hpre. rewrite <- (app_nil_r pre) at 1.
  by rewrite read_lines_quiet.
Qed.

Lemma read_lines_empty_line pre t post ending acc :
  Forall (quiet (t_start o)) pre ->
  read_lines o p (pre ++ ("", t) :: post) ending acc
  = (Exhausted, log_all o p (map fst pre) acc).
Proof. intros Hpre. by rewrite read_lines_quiet. Qed.

(** The state in which the loop starts, and what it logs on top of it. *)
Lemma log_all_started st lines evs :
  log_all o p lines
    ([log_entry o 0 (command_line st p)],
     emit evs (logs_to p [log_entry o 0 (command_line st p)] st))
  = (stamped o 0 (command_line st p :: lines),
     emit evs (logs_to p (stamped o 0 (command_line st p :: lines)) st)).
Proof. rewrite log_all_eq. simpl. by rewrite logs_to_emit, logs_to_app. Qed.

Lemma create_tunnel_spawned st proc output ending :
  spawn o = Spawned proc output ending ->
  create_tunnel o p st
  = match read_lines o p output ending
            ([log_entry o 0 (command_line st p)],
             emit [Spawn (command st p)]
               (logs_to p [log_entry o 0 (command_line st p)] st)) with
    | (TimedOut, (logs, st1)) =>
        (Returns false None logs, emit [PopenTerminate proc] st1)
    | (Blocked, (_, st1)) => (NeverReturns, st1)
    | (ReadFailed msg, acc) => fatal_error o p msg acc
    | (Exhausted, acc) => early_exit o p proc acc
    | (UrlFound public_url, (logs, st1)) =>
        if str_truthy public_url then
          (Returns true (Some public_url) logs,
           emit [StartLogReader proc p]
             (set_tunnels
                (<[p := new_tunnel o p proc public_url logs]>) st1))
        else early_exit o p proc (logs, st1)
    end.
Proof. intros Hspawn. unfold create_tunnel. by rewrite Hspawn. Qed.

Lemma create_tunnel_timeout st proc pre line t post ending :
  spawn o = Spawned proc (pre ++ (line, t) :: post) ending ->
  Forall (quiet (t_start o)) pre ->
  str_truthy line = true -> re_search line = None ->
  seconds 20 < t - t_start o ->
  let logs := stamped o 0 (failure_lines st p (map fst pre ++ [line])
                             "Error: Timeout waiting for public URL.") in
  create_tunnel o p st
  = (Returns false None logs,
     emit [Spawn (command st p); PopenTerminate proc] (logs_to p logs st)).
Proof.
  intros Hspawn Hpre Htruthy Hsearch Hlate logs.
  rewrite (create_tunnel_spawned _ _ _ _ Hspawn).
  rewrite read_lines_timeout, log_all_started by done.
  unfold logs, failure_lines. rewrite <- app_assoc. simpl.
  by rewrite emit_emit.
Qed.

Lemma create_tunnel_early_exit st proc output ending pre :
  spawn o = Spawned proc output ending ->
  Forall (quiet (t_start o)) pre ->
  (output = pre /\ ending = StreamCloses)
  \/ (exists t post, output = pre ++ ("", t) :: post) ->
  let logs := stamped o 0 (failure_lines st p (map fst pre)
                "Error: Process terminated before URL was found.") in
  create_tunnel o p st
  = (Returns false None logs,
     emit [Spawn (command st p); PopenTerminate proc] (logs_to p logs st)).
Proof.
  intros Hspawn Hpre Hend logs.
  rewrite (create_tunnel_spawned _ _ _ _ Hspawn).
  assert (read_lines o p output ending
            ([log_entry o 0 (command_line st p)],
             emit [Spawn (command st p)]
               (logs_to p [log_entry o 0 (command_line st p)] st))
          = (Exhausted,
             (stamped o 0 (command_line st p :: map fst pre),
              emit [Spawn (command st p)]
                (logs_to p (stamped o 0 (command_line st p :: map fst pre))
                   st)))) as ->.
  { destruct Hend as [[-> ->]|(t & post & ->)].
    - by rewrite read_lines_end, log_all_started.
    - by rewrite read_lines_empty_line, log_all_started. }
  unfold early_exit. rewrite log_appender_eq.
  rewrite logs_to_emit, logs_to_app, emit_emit.
  unfold logs, failure_lines.
  change (command_line st p :: map fst pre ++ ?l)
    with ((command_line st p :: map fst pre) ++ l).
  rewrite stamped_app, length_stamped. simpl. done.
Qed.

Lemma create_tunnel_spawn_exception st msg :
  spawn o = PopenRaises msg ->
  create_tunnel o p st
  = (Returns false None ["Error: " +:+ msg],
     logs_to p (stamped o 0 [command_line st p; "Fatal Error: " +:+ msg]) st).
Proof.
  intros Hspawn. unfold create_tunnel, fatal_error. rewrite Hspawn.
  rewrite !log_appender_eq. simpl. by rewrite logs_to_app.
Qed.

Lemma create_tunnel_found st proc pre line t post ending url :
  spawn o = Spawned proc (pre ++ (line, t) :: post) ending ->
  Forall (quiet (t_start o)) pre ->
  re_search line = Some url ->
  let lg := stamped o 0 (command_line st p :: map fst pre
                         ++ [line; "Public URL found: " +:+ url]) in
  create_tunnel o p st
  = (Returns true (Some url) lg,
     emit [Spawn (command st p); StartLogReader proc p]
       (set_tunnels (<[p := new_tunnel o p proc url lg]>) st)).
Proof.
  intros Hspawn Hpre Hsearch lg.
  rewrite (create_tunnel_spawned _ _ _ _ Hspawn).
  rewrite (read_lines_found _ _ _ _ _ _ url), log_all_started by done.
  rewrite (re_search_truthy _ _ Hsearch). fold lg. f_equal.
  destruct st as [m c e]. unfold emit, set_tunnels, logs_to; simpl.
  f_equal; [|by rewrite <- app_assoc].
  apply map_eq; intros i. rewrite !lookup_insert, lookup_alter.
  by case_decide.
Qed.

End Discovery.

Lemma logs_to_tunnels p lg st q :
  active_tunnels (logs_to p lg st) !! q
  = if decide (p = q) then extend_logs lg <$> active_tunnels st !! q
    else active_tunnels st !! q.
Proof.
  unfold logs_to; simpl. rewrite lookup_alter. by case_decide; subst.
Qed.

Lemma failure_path_result o p st consumed c :
  failure_path o consumed c ->
  match c with
  | DiscoveryTimeout =>
      exists proc,
        spawned_process o = Some proc /\
        let lg := stamped o 0 (failure_lines st p consumed
                    "Error: Timeout waiting for public URL.") in
        create_tunnel o p st
        = (Returns false None lg,
           emit [Spawn (command st p); PopenTerminate proc] (logs_to p lg st))
  | EarlyExit =>
      exists proc,
        spawned_process o = Some proc /\
        let lg := stamped o 0 (failure_lines st p consumed
                    "Error: Process terminated before URL was found.") in
        create_tunnel o p st
        = (Returns false None lg,
           emit [Spawn (command st p); PopenTerminate proc] (logs_to p lg st))
  | SpawnException msg =>
      spawned_process o = None /\ consumed = [] /\
      create_tunnel o p st
      = (Returns false None ["Error: " +:+ msg],
         logs_to p (stamped o 0 [command_line st p; "Fatal Error: " +:+ msg])
           st)
  end.
Proof.
  unfold spawned_process.
  destruct 1 as [proc pre line t post ending Hspawn Hpre Ht Hs Hlate
                |proc pre Hspawn Hpre
                |proc pre t post ending Hspawn Hpre
                |msg Hspawn].
  - exists proc. rewrite Hspawn. split; [done|].
    by eapply create_tunnel_timeout.
  - exists proc. rewrite Hspawn. split; [done|].
    eapply create_tunnel_early_exit; eauto.
  - exists proc. rewrite Hspawn. split; [done|].
    eapply create_tunnel_early_exit; eauto.
  - rewrite Hspawn. split; [done|]. split; [done|].
    by apply create_tunnel_spawn_exception.
Qed.

Lemma failure_lines_lookup o st p consumed error i line :
  consumed !! i = Some line ->
  stamped o 0 (failure_lines st p consumed error) !! S i
  = Some (log_entry o (S i) line).
Proof.
  intros Hi. unfold failure_lines. simpl.
  apply (stamped_lookup o 1 (consumed ++ [error]) i line).
  by apply lookup_app_l_Some.
Qed.

Lemma failure_lines_last o st p consumed error :
  last (stamped o 0 (failure_lines st p consumed error))
  = Some (log_entry o (S (length consumed)) error).
Proof.
  unfold failure_lines.
  change (command_line st p :: consumed ++ [error])
    with ((command_line st p :: consumed) ++ [error]).
  rewrite stamped_app. simpl stamped at 2. by rewrite last_snoc.
Qed.

(** C2, as the code has it: on each of the three failure paths, the
    discovery timeout, the stream that closes before a URL was read, and
    the exception of the spawn, create_tunnel returns (False, None, logs):
    the flag is False and the URL is None. After the entry of the command
    line, logs holds the entry of every line consumed, in order, each
    with its time stamp, and its last line describes the cause. *)
Theorem create_tunnel_failure o p st consumed c :
  failure_path o consumed c ->
  exists lg,
    fst (create_tunnel o p st) = Returns false None lg /\
    (forall i line, consumed !! i = Some line ->
       lg !! S i = Some (log_entry o (S i) line)) /\
    (exists final, last lg = Some final /\ describes c final).
Proof.
  intros Hpath. pose proof (failure_path_result o p st _ _ Hpath) as Hres.
  destruct c as [| |msg].
  - destruct Hres as (proc & _ & ->). eexists. split; [reflexivity|].
    split; [intros i line; apply failure_lines_lookup|].
    eexists. split; [apply failure_lines_last|]. by eexists.
  - destruct Hres as (proc & _ & ->). eexists. split; [reflexivity|].
    split; [intros i line; apply failure_lines_lookup|].
    eexists. split; [apply failure_lines_last|]. by eexists.
  - destruct Hres as (_ & -> & ->). eexists. split; [reflexivity|].
    split; [done|]. by eexists.
Qed.

Lemma chatter_times_out :
  failure_path chatter [starting_line; starting_line] DiscoveryTimeout.
Proof.
  apply (path_timeout chatter {| popen_pid := 4242 |}
           [(starting_line, seconds 1)] starting_line (seconds 21)
           [(url_line, seconds 22)] StreamStalls).
  - reflexivity.
  - repeat constructor; vm_compute; congruence.
  - reflexivity.
  - vm_compute; reflexivity.
  - vm_compute; reflexivity.
Defined.

Lemma create_tunnel_failure_witness :
  failure_path chatter [starting_line; starting_line] DiscoveryTimeout /\
  exists lg,
    fst (create_tunnel chatter "5000" empty_state) = Returns false None lg /\
    (forall i line, [starting_line; starting_line] !! i = Some line ->
       lg !! S i = Some (log_entry chatter (S i) line)) /\
    (exists final, last lg = Some final /\ describes DiscoveryTimeout final).
Proof.
  split; [exact chatter_times_out|].
  apply (create_tunnel_failure chatter "5000" empty_state
           [starting_line; starting_line] DiscoveryTimeout).
  exact chatter_times_out.
Defined.

(** C2, as the specification words it, fails: when the binary cannot be
    spawned the call is on a failure path and the URL it returns is None,
    not the empty string. *)
Lemma create_tunnel_failure_url_is_None :
  failure_path no_binary []
    (SpawnException "[Errno 2] No such file or directory: 'cloudflared'") /\
  fst (create_tunnel no_binary "5000" empty_state)
  = Returns false None
      ["Error: [Errno 2] No such file or directory: 'cloudflared'"] /\
  forall lg,
    fst (create_tunnel no_binary "5000" empty_state)
    <> Returns false (Some "") lg.
Proof.
  split; [by apply path_spawn|].
  assert (Hrun : fst (create_tunnel no_binary "5000" empty_state)
                 = Returns false None
                     ["Error: [Errno 2] No such file or directory: 'cloudflared'"])
    by (vm_compute; reflexivity).
  split; [exact Hrun|]. intros lg. rewrite Hrun. discriminate.
Qed.

(** C7: when the child prints a line that holds a URL of the pattern,
    after lines that hold none, none of them the end of the stream and
    none handled later than 20 seconds after the start, create_tunnel
    returns (True, url, logs) with the URL matched in that line, and the
    live map holds for the port a record with status "active", status
    text "Active", health 100, ping 0, that URL, and the process and pid
    of the child; the other ports keep their records. *)
Theorem create_tunnel_success o p st proc pre line t post ending url :
  spawn o = Spawned proc (pre ++ (line, t) :: post) ending ->
  Forall (quiet (t_start o)) pre ->
  re_search line = Some url ->
  exists lg d,
    fst (create_tunnel o p st) = Returns true (Some url) lg /\
    lg = stamped o 0 (command_line st p :: map fst pre
                      ++ [line; "Public URL found: " +:+ url]) /\
    active_tunnels (snd (create_tunnel o p st)) !! p = Some d /\
    status d = "active" /\ status_text d = "Active" /\
    health d = 100 /\ ping d = 0 /\
    public_url d = url /\ pid d = popen_pid proc /\ process d = proc /\
    port d = p /\ logs d = lg /\
    (forall q, q <> p ->
       active_tunnels (snd (create_tunnel o p st)) !! q
       = active_tunnels st !! q).
Proof.
  intros Hspawn Hpre Hsearch.
  rewrite (create_tunnel_found o p st proc pre line t post ending url)
    by done.
  eexists _, _. split; [reflexivity|]. split; [reflexivity|]. simpl.
  split; [apply lookup_insert_eq|]. repeat (split; [reflexivity|]).
  intros q Hq. by rewrite lookup_insert_ne.
Qed.

Lemma create_tunnel_success_witness :
  Forall (quiet (t_start prompt_url)) [(starting_line, seconds 1)] /\
  re_search url_line = Some "https://abc-def.trycloudflare.com" /\
  exists lg d,
    fst (create_tunnel prompt_url "5000" empty_state)
    = Returns true (Some "https://abc-def.trycloudflare.com") lg /\
    active_tunnels (snd (create_tunnel prompt_url "5000" empty_state))
      !! "5000" = Some d /\
    health d = 100 /\ pid d = 4242.
Proof.
  assert (Hquiet : Forall (quiet (t_start prompt_url))
                     [(starting_line, seconds 1)])
    by (repeat constructor; vm_compute; congruence).
  assert (Hurl : re_search url_line
                 = Some "https://abc-def.trycloudflare.com")
    by (vm_compute; reflexivity).
  split; [exact Hquiet|]. split; [exact Hurl|].
  destruct (create_tunnel_success prompt_url "5000" empty_state
              {| popen_pid := 4242 |} [(starting_line, seconds 1)]
              url_line (seconds 2) [] StreamStalls
              "https://abc-def.trycloudflare.com" eq_refl Hquiet Hurl)
    as (lg & d & Hret & _ & Hd & _ & _ & Hh & _ & _ & Hpid & _).
  exists lg, d. by repeat split.
Defined.

Lemma logs_to_dom p lg st :
  dom (active_tunnels (logs_to p lg st)) = dom (active_tunnels st).
Proof.
  apply set_eq; intros q. rewrite !elem_of_dom, logs_to_tunnels.
  case_decide; [|done]. by rewrite fmap_is_Some.
Qed.

(** C8, as the code has it: when the lines create_tunnel reads hold no
    URL and the loop ends in the timeout branch, on a line handled more
    than 20 seconds after the start, or with the stream closing, the call
    returns a failure, the only effects are the spawn and the request to
    the child to terminate, and no record is registered: the live map has
    the ports it had, other ports keep their records, and a port that
    was not registered is not registered afterwards. *)
Theorem create_tunnel_no_url o p st proc consumed c :
  spawned_process o = Some proc ->
  failure_path o consumed c ->
  let result := create_tunnel o p st in
  (exists lg, fst result = Returns false None lg) /\
  effects (snd result)
  = effects st ++ [Spawn (command st p); PopenTerminate proc] /\
  dom (active_tunnels (snd result)) = dom (active_tunnels st) /\
  (forall q, q <> p ->
     active_tunnels (snd result) !! q = active_tunnels st !! q) /\
  (active_tunnels st !! p = None ->
   active_tunnels (snd result) !! p = None).
Proof.
  intros Hproc Hpath result.
  pose proof (failure_path_result o p st _ _ Hpath) as Hres.
  assert (exists lg error,
            create_tunnel o p st
            = (Returns false None lg,
               emit [Spawn (command st p); PopenTerminate proc]
                 (logs_to p (stamped o 0 (failure_lines st p consumed error))
                    st))) as (lg & error & Hrun).
  { destruct c as [| |msg].
    - destruct Hres as (proc' & Hproc' & ->).
      rewrite Hproc in Hproc'. injection Hproc' as <-. by eexists _, _.
    - destruct Hres as (proc' & Hproc' & ->).
      rewrite Hproc in Hproc'. injection Hproc' as <-. by eexists _, _.
    - destruct Hres as (Hnone & _). congruence. }
  subst result. rewrite Hrun. simpl fst. simpl snd.
  split; [by exists lg|]. split; [done|].
  rewrite emit_tunnels. split; [apply logs_to_dom|].
  split.
  - intros q Hq. rewrite logs_to_tunnels. by case_decide.
  - intros Hnone. rewrite logs_to_tunnels, Hnone. by case_decide.
Qed.

Lemma create_tunnel_no_url_witness :
  spawned_process chatter = Some {| popen_pid := 4242 |} /\
  failure_path chatter [starting_line; starting_line] DiscoveryTimeout /\
  effects (snd (create_tunnel chatter "5000" empty_state))
  = effects empty_state
    ++ [Spawn (command empty_state "5000");
        PopenTerminate {| popen_pid := 4242 |}].
Proof.
  split; [reflexivity|]. split; [exact chatter_times_out|].
  apply (create_tunnel_no_url chatter "5000" empty_state
           {| popen_pid := 4242 |} [starting_line; starting_line] DiscoveryTimeout);
    [reflexivity|exact chatter_times_out].
Defined.

(** C8, as the specification words it, fails: a line that holds the URL
    and arrives 25 seconds after the start is the first line read; no
    line with a URL arrived within 20 seconds, and the call succeeds and
    registers the port. *)
Lemma create_tunnel_late_url_succeeds :
  no_url_within_timeout late_url /\
  fst (create_tunnel late_url "5000" empty_state)
  = Returns true (Some "https://abc-def.trycloudflare.com")
      ["[12:00:00] Executing command: cloudflared tunnel --url http://127.0.0.1:5000";
       "[12:00:01] INF |  https://abc-def.trycloudflare.com  |";
       "[12:00:02] Public URL found: https://abc-def.trycloudflare.com"] /\
  is_Some (active_tunnels (snd (create_tunnel late_url "5000" empty_state))
             !! "5000").
Proof.
  split; [|split].
  - unfold no_url_within_timeout; simpl.
    repeat constructor. simpl. unfold seconds. lia.
  - vm_compute. reflexivity.
  - eexists. vm_compute. reflexivity.
Qed.

(** An exception while the output is read: the handler returns a list
    with its own message only, and the child is left running. *)
Example create_tunnel_read_error :
  create_tunnel garbled "5000" empty_state
  = (Returns false None ["Error: 'utf-8' codec can't decode byte 0xff"],
     {| active_tunnels := ∅;
        cloudflared_path := "cloudflared";
        effects := [Spawn (command empty_state "5000")] |}).
Proof. vm_compute. reflexivity. Qed.

(** A child that prints nothing and keeps its output open: the loop is
    never left, whatever the clock says. *)
Example create_tunnel_silent_child :
  fst (create_tunnel silent "5000" empty_state) = NeverReturns.
Proof. vm_compute. reflexivity. Qed.

(** ** The snapshot *)

Lemma append_assoc (a b c : string) : (a +:+ b) +:+ c = a +:+ (b +:+ c).
Proof.
  induction a as [|x a IH]; [done|]. exact (f_equal (String x) IH).
Qed.

Lemma digit_code n : Ascii.N_of_ascii (digit n) = (48 + n mod 10)%N.
Proof.
  unfold digit. apply N_ascii_embedding.
  assert (n mod 10 < 10)%N as Hr by (by apply N.mod_upper_bound).
  revert Hr. generalize (n mod 10)%N. intros r Hr. lia.
Qed.

Lemma is_digit_digit n : is_digit (digit n) = true.
Proof.
  unfold is_digit. cbv zeta. rewrite digit_code.
  assert (n mod 10 < 10)%N as Hr by (by apply N.mod_upper_bound).
  revert Hr. generalize (n mod 10)%N. intros r Hr.
  apply andb_true_intro; split; apply N.leb_le; lia.
Qed.

Lemma read_digits_snoc k acc s :
  read_digits (k + 1) acc s
  = '(acc', s') ← read_digits k acc s; read_digits 1 acc' s'.
Proof.
  revert acc s. induction k as [|k IH]; intros acc s; [done|].
  simpl. destruct s as [|a s]; [done|].
  destruct (is_digit a); [|done]. apply IH.
Qed.

Lemma read_digits_zero_padded w n acc rest :
  read_digits w acc (zero_padded w n +:+ rest)
  = Some ((acc * 10 ^ N.of_nat w + n mod 10 ^ N.of_nat w)%N, rest).
Proof.
  revert n acc rest. induction w as [|w IH]; intros n acc rest.
  - simpl. rewrite N.mod_1_r. do 2 f_equal. lia.
  - replace (S w) with (w + 1)%nat at 1 by lia.
    rewrite read_digits_snoc. simpl zero_padded.
    rewrite append_assoc, IH. simpl.
    rewrite is_digit_digit, digit_code. do 2 f_equal.
    rewrite Nat2N.inj_succ, N.pow_succ_r'.
    rewrite (N.Div0.mod_mul_r n 10 (10 ^ N.of_nat w)).
    generalize ((n / 10) mod 10 ^ N.of_nat w)%N (n mod 10)%N
               (10 ^ N.of_nat w)%N.
    intros a b pw. replace (48 + b - 48)%N with b by lia. ring.
Qed.

Lemma all_digits_app a b :
  all_digits (a +:+ b) = all_digits a && all_digits b.
Proof.
  induction a as [|x a IH]; [done|].
  change (is_digit x && all_digits (a +:+ b)
          = is_digit x && all_digits a && all_digits b).
  by rewrite IH, andb_assoc.
Qed.

Lemma all_digits_zero_padded w n : all_digits (zero_padded w n) = true.
Proof.
  revert n. induction w as [|w IH]; intros n; [done|].
  simpl. rewrite all_digits_app, IH. simpl. by rewrite is_digit_digit.
Qed.

Lemma expect_separator c rest : expect c (String c "" +:+ rest) = Some rest.
Proof.
  change (String c "" +:+ rest) with (String c rest).
  unfold expect. by rewrite Ascii.eqb_refl.
Qed.

Lemma read_field w n rest :
  (n < 10 ^ N.of_nat w)%N ->
  read_digits w 0 (zero_padded w n +:+ rest) = Some (n, rest).
Proof.
  intros Hn. rewrite read_digits_zero_padded, N.mod_small by done.
  by rewrite N.mul_0_l, N.add_0_l.
Qed.

Lemma isoformat_iso8601 d : datetime_ok d = true -> iso8601 (isoformat d) = true.
Proof.
  unfold datetime_ok. rewrite !andb_true_iff.
  rewrite !N.leb_le, !N.ltb_lt.
  intros (((((((((Hy1 & Hy2) & Hm1) & Hm2) & Hd1) & Hd2) & Hh) & Hmi) & Hs)
          & Hus).
  unfold iso8601, isoformat.
  rewrite (read_field 4) by (simpl; lia). cbn [mbind option_bind].
  rewrite expect_separator. cbn [mbind option_bind].
  rewrite (read_field 2) by (simpl; lia). cbn [mbind option_bind].
  rewrite expect_separator. cbn [mbind option_bind].
  rewrite (read_field 2) by (simpl; lia). cbn [mbind option_bind].
  rewrite expect_separator. cbn [mbind option_bind].
  rewrite (read_field 2) by (simpl; lia). cbn [mbind option_bind].
  rewrite expect_separator. cbn [mbind option_bind].
  rewrite (read_field 2) by (simpl; lia). cbn [mbind option_bind].
  rewrite expect_separator. cbn [mbind option_bind].
  rewrite (read_field 2) by (simpl; lia). cbn [mbind option_bind default].
  repeat match goal with
         | |- context [(?a <=? ?b)%N] =>
             replace (a <=? b)%N with true by (symmetry; apply N.leb_le; lia)
         | |- context [(?a <? ?b)%N] =>
             replace (a <? b)%N with true by (symmetry; apply N.ltb_lt; lia)
         end.
  cbn [andb]. destruct (microsecond d =? 0)%N; [done|].
  change (all_digits (zero_padded 6 (microsecond d)) = true).
  apply all_digits_zero_padded.
Qed.

Lemma snapshot_lookup o st p :
  _snapshot_for_log o st !! p = snapshot_entry o p <$> active_tunnels st !! p.
Proof.
  unfold _snapshot_for_log. rewrite map_lookup_imap.
  by destruct (active_tunnels st !! p).
Qed.

(** C9: whatever the live map holds, a turn of the writer that succeeds
    leaves the payload in log.json, and the payload is
    an object with the two keys generated_at and tunnels; generated_at
    is the ISO 8601 text of the current time; tunnels has one item per
    port of the live map, under the port string, and each item is an
    object with the eight keys port, public_url, status, status_text,
    health, ping, pid and start_time, which leaves out the logs and the
    process of the record. *)
Theorem payload_shape o st file :
  _log_writer_turn o false file st = Some (payload o st) /\
  keys (payload o st) = ["generated_at"; "tunnels"] /\
  member "generated_at" (payload o st) = Some (JStr (isoformat (now o))) /\
  (datetime_ok (now o) = true -> iso8601 (isoformat (now o)) = true) /\
  exists items,
    member "tunnels" (payload o st) = Some (JObj items) /\
    NoDup (map fst items) /\
    (forall p v,
       (p, v) ∈ items <->
       (exists d, active_tunnels st !! p = Some d
                  /\ v = snapshot_entry o p d)) /\
    (forall p v,
       (p, v) ∈ items ->
       keys v = entry_keys /\ member "port" v = Some (JStr p) /\
       ("logs" ∉ keys v) /\ ("process" ∉ keys v)).
Proof.
  split; [reflexivity|]. split; [reflexivity|]. split; [reflexivity|].
  split; [apply isoformat_iso8601|].
  exists (map_to_list (_snapshot_for_log o st)).
  split; [reflexivity|]. split; [apply NoDup_fst_map_to_list|].
  assert (Hitems : forall p v,
            (p, v) ∈ map_to_list (_snapshot_for_log o st) <->
            (exists d, active_tunnels st !! p = Some d
                       /\ v = snapshot_entry o p d)).
  { intros p v. rewrite elem_of_map_to_list, snapshot_lookup.
    destruct (active_tunnels st !! p) as [d|]; simpl; split.
    - intros [= <-]. by exists d.
    - by intros (d' & [= <-] & ->).
    - done.
    - by intros (d' & ? & _). }
  split; [exact Hitems|].
  intros p v (d & _ & ->)%Hitems.
  split; [reflexivity|]. split; [reflexivity|].
  unfold entry_keys, snapshot_entry, keys; simpl.
  split; intros Hin; repeat (apply elem_of_cons in Hin as [Hin|Hin];
    [discriminate Hin|]); by apply elem_of_nil in Hin.
Qed.

Lemma payload_shape_witness :
  datetime_ok (now sample_clock) = true /\
  iso8601 (isoformat (now sample_clock)) = true /\
  keys (payload sample_clock sample_state) = ["generated_at"; "tunnels"].
Proof.
  split; [vm_compute; reflexivity|].
  destruct (payload_shape sample_clock sample_state None)
    as (_ & Hkeys & _ & Hiso & _).
  split; [apply Hiso; vm_compute; reflexivity|exact Hkeys].
Defined.

(** The file of the sample state. *)
Example payload_sample :
  payload sample_clock sample_state
  = JObj [("generated_at", JStr "2026-11-03T09:05:00.001234");
          ("tunnels",
           JObj [("5000",
                  JObj [("port", JStr "5000");
                        ("public_url",
                         JStr "https://abc-def.trycloudflare.com");
                        ("status", JStr "active");
                        ("status_text", JStr "Active");
                        ("health", JInt 100);
                        ("ping", JInt 0);
                        ("pid", JInt 4242);
                        ("start_time", JStr "2023-11-14T22:13:20")])])].
Proof. vm_compute. reflexivity. Qed.

(* ===================================================================== *)
(** * Further properties *)
(* ===================================================================== *)

(** ** The public-URL pattern *)

Lemma append_cons a (s t : string) : String a s +:+ t = String a (s +:+ t).
Proof. reflexivity. Qed.

Lemma append_nil_r (s : string) : s +:+ "" = s.
Proof. induction s as [|a s IH]; [done|]. by rewrite append_cons, IH. Qed.

Lemma skip_prefix_Some pre s r : skip_prefix pre s = Some r -> s = pre +:+ r.
Proof.
  revert s. induction pre as [|a pre IH]; intros s; simpl.
  - by intros [= ->].
  - destruct s as [|b s]; [done|].
    destruct (Ascii.eqb a b) eqn:Hab; [|done].
    apply Ascii.eqb_eq in Hab as ->. intros Hr.
    by rewrite append_cons, <- (IH s Hr).
Qed.

Lemma skip_prefix_app pre r : skip_prefix pre (pre +:+ r) = Some r.
Proof.
  induction pre as [|a pre IH]; [done|].
  rewrite append_cons. simpl. by rewrite Ascii.eqb_refl.
Qed.

Lemma span_label_Some s lbl rest :
  span_label s = (lbl, rest) ->
  s = lbl +:+ rest /\ all_label lbl = true /\ label_ahead rest = false.
Proof.
  revert lbl rest. induction s as [|a s IH]; intros lbl rest; simpl.
  - by intros [= <- <-].
  - destruct (is_label_char a) eqn:Ha.
    + destruct (span_label s) as [lbl' rest'].
      intros [= <- <-]. destruct (IH lbl' rest' eq_refl) as (-> & Hl & Hr).
      rewrite append_cons. simpl. by rewrite Ha, Hl.
    + intros [= <- <-]. simpl. by rewrite Ha.
Qed.

Lemma span_label_app lbl rest :
  all_label lbl = true -> label_ahead rest = false ->
  span_label (lbl +:+ rest) = (lbl, rest).
Proof.
  intros Hl Hr. induction lbl as [|a lbl IH].
  - destruct rest as [|b rest]; [done|]. simpl in *. by rewrite Hr.
  - simpl in Hl. apply andb_true_iff in Hl as [Ha Hl].
    rewrite append_cons. simpl. by rewrite Ha, (IH Hl).
Qed.

Lemma match_here_Some s url :
  match_here s = Some url ->
  exists lbl tail,
    url = url_of_label lbl /\ lbl <> "" /\ all_label lbl = true
    /\ s = url +:+ tail.
Proof.
  unfold match_here.
  destruct (skip_prefix "https://" s) as [s1|] eqn:H1; [|done].
  destruct (span_label s1) as [lbl rest] eqn:H2.
  destruct lbl as [|a lbl]; [done|].
  destruct (skip_prefix ".trycloudflare.com" rest) as [tail|] eqn:H3; [|done].
  intros [= <-]. exists (String a lbl), tail.
  apply skip_prefix_Some in H1, H3.
  apply span_label_Some in H2 as (H2 & Hl & _).
  split; [done|]. split; [done|]. split; [done|].
  subst s s1 rest. unfold url_of_label. by rewrite !append_assoc.
Qed.

Lemma match_here_url lbl tail :
  lbl <> "" -> all_label lbl = true ->
  match_here (url_of_label lbl +:+ tail) = Some (url_of_label lbl).
Proof.
  intros Hne Hl. unfold match_here, url_of_label.
  rewrite !append_assoc, skip_prefix_app.
  rewrite (span_label_app lbl (".trycloudflare.com" +:+ tail)) by done.
  destruct lbl as [|a lbl]; [done|].
  by rewrite skip_prefix_app.
Qed.

Lemma re_search_at line url :
  re_search line = Some url ->
  exists before s, line = before +:+ s /\ match_here s = Some url.
Proof.
  induction line as [|a line IH]; [done|].
  simpl. destruct (match_here (String a line)) as [u|] eqn:Hm.
  - intros [= <-]. by exists "", (String a line).
  - intros (before & s & -> & Hs)%IH. by exists (String a before), s.
Qed.

(** X1: a URL that the search finds in a line is a part of that line, and
    is https://, a label of one or more characters of [a-zA-Z0-9-], and
    .trycloudflare.com. *)
Theorem re_search_sound line url :
  re_search line = Some url ->
  exists before after lbl,
    line = before +:+ url +:+ after /\
    url = url_of_label lbl /\ lbl <> "" /\ all_label lbl = true.
Proof.
  intros (before & s & -> & Hs)%re_search_at.
  destruct (match_here_Some _ _ Hs) as (lbl & tail & Hu & Hne & Hl & ->).
  by exists before, tail, lbl.
Qed.

Lemma re_search_sound_witness :
  re_search url_line = Some "https://abc-def.trycloudflare.com" /\
  exists before after lbl,
    url_line = before +:+ "https://abc-def.trycloudflare.com" +:+ after /\
    "https://abc-def.trycloudflare.com" = url_of_label lbl /\
    lbl <> "" /\ all_label lbl = true.
Proof.
  split; [vm_compute; reflexivity|].
  apply (re_search_sound url_line "https://abc-def.trycloudflare.com").
  vm_compute; reflexivity.
Defined.

(** X2: a line that holds a URL of the pattern, wherever it stands in the
    line, makes the search succeed. *)
Theorem re_search_complete before lbl after :
  lbl <> "" -> all_label lbl = true ->
  is_Some (re_search (before +:+ url_of_label lbl +:+ after)).
Proof.
  intros Hne Hl. induction before as [|a before IH].
  - change ("" +:+ ?s) with s.
    destruct (url_of_label lbl +:+ after) as [|b s] eqn:Hs.
    + unfold url_of_label in Hs. done.
    + simpl. rewrite <- Hs, match_here_url by done. by eexists.
  - rewrite append_cons. simpl.
    destruct (match_here _); [by eexists|exact IH].
Qed.

Lemma re_search_complete_witness :
  is_Some (re_search ("INF | " +:+ url_of_label "abc-def" +:+ " |")).
Proof.
  apply (re_search_complete "INF | " "abc-def" " |");
    [discriminate|vm_compute; reflexivity].
Defined.

Lemma re_search_is_public_url line url :
  re_search line = Some url -> is_public_url url = true.
Proof.
  intros (before & s & _ & Hs)%re_search_at.
  destruct (match_here_Some _ _ Hs) as (lbl & tail & -> & Hne & Hl & _).
  unfold is_public_url.
  rewrite <- (append_nil_r (url_of_label lbl)) at 1.
  rewrite match_here_url by done. apply String.eqb_refl.
Qed.

(** ** create_tunnel on every input *)

Lemma read_lines_cases o p output ending acc :
  exists lines,
    snd (read_lines o p output ending acc) = log_all o p lines acc /\
    forall url,
      fst (read_lines o p output ending acc) = UrlFound url ->
      exists line, re_search line = Some url.
Proof.
  revert acc. induction output as [|[line t] output IH]; intros acc.
  - exists []. split; [done|]. intros url. by destruct ending.
  - simpl. destruct (str_truthy line).
    + destruct (re_search line) as [u|] eqn:Hs.
      * exists [line; "Public URL found: " +:+ u]. split; [done|].
        intros url [= <-]. by exists line.
      * destruct (seconds 20 <? t - t_start o).
        -- by exists [line; "Error: Timeout waiting for public URL."].
        -- destruct (IH (log_appender o p line acc)) as (lines & H1 & H2).
           by exists (line :: lines).
    + by exists [].
Qed.

Lemma insert_over_logs p d lg evs st :
  set_tunnels (<[p := d]>) (emit evs (logs_to p lg st))
  = emit evs (set_tunnels (<[p := d]>) st).
Proof.
  destruct st as [m c e]. unfold emit, set_tunnels, logs_to; simpl.
  f_equal. apply map_eq; intros i. rewrite !lookup_insert, lookup_alter.
  by case_decide.
Qed.

Lemma create_tunnel_cases o p st :
  (exists proc url lg,
     spawned_process o = Some proc /\ is_public_url url = true /\
     create_tunnel o p st
     = (Returns true (Some url) lg,
        emit [Spawn (command st p); StartLogReader proc p]
          (set_tunnels (<[p := new_tunnel o p proc url lg]>) st)))
  \/ (exists r es evs,
        create_tunnel o p st = (r, emit evs (logs_to p es st)) /\
        (r = NeverReturns \/ exists lg, r = Returns false None lg) /\
        Forall (own_effect o st p) evs).
Proof.
  destruct (spawn o) as [msg|proc output ending] eqn:Hspawn.
  - right. rewrite (create_tunnel_spawn_exception o p st msg Hspawn).
    rewrite <- (emit_nil (logs_to _ _ _)).
    eexists _, _, []. split; [reflexivity|].
    split; [right; by eexists|constructor].
  - assert (Hproc : spawned_process o = Some proc)
      by (unfold spawned_process; by rewrite Hspawn).
    assert (Hspawned : own_effect o st p (Spawn (command st p))) by by left.
    assert (Hterm : own_effect o st p (PopenTerminate proc))
      by (right; by exists proc).
    rewrite (create_tunnel_spawned o p st proc output ending Hspawn).
    destruct (read_lines_cases o p output ending
                ([log_entry o 0 (command_line st p)],
                 emit [Spawn (command st p)]
                   (logs_to p [log_entry o 0 (command_line st p)] st)))
      as (lines & Hsnd & Hurl).
    rewrite log_all_started in Hsnd.
    destruct (read_lines _ _ _ _ _) as [ex acc]. simpl in Hsnd, Hurl.
    subst acc. destruct ex as [url| | | |msg].
    + destruct (Hurl url eq_refl) as [line Hline].
      rewrite (re_search_truthy _ _ Hline). left.
      eexists proc, url, _. split; [done|].
      split; [by eapply re_search_is_public_url|].
      by rewrite insert_over_logs, emit_emit.
    + right. rewrite emit_emit.
      eexists _, _, [Spawn (command st p); PopenTerminate proc].
      split; [reflexivity|]. split; [right; by eexists|].
      repeat (constructor; [assumption|]). constructor.
    + right. unfold early_exit. rewrite log_appender_eq.
      rewrite logs_to_emit, logs_to_app, emit_emit.
      eexists _, _, [Spawn (command st p); PopenTerminate proc].
      split; [reflexivity|]. split; [right; by eexists|].
      repeat (constructor; [assumption|]). constructor.
    + right. eexists _, _, [Spawn (command st p)].
      split; [reflexivity|]. split; [by left|].
      repeat (constructor; [assumption|]). constructor.
    + right. unfold fatal_error. rewrite log_appender_eq.
      rewrite logs_to_emit, logs_to_app.
      eexists _, _, [Spawn (command st p)].
      split; [reflexivity|]. split; [right; by eexists|].
      repeat (constructor; [assumption|]). constructor.
Qed.

(** X3: on every input, create_tunnel returns True only with a URL of the
    pattern and with a record registered under the port that holds this
    URL, the returned logs and the process it spawned; when it returns
    False the URL is None, and then, as when it does not return, the
    live map changes at most by log lines appended to a record that was
    already registered under the port. *)
Theorem create_tunnel_registers_iff_success o p st :
  let result := create_tunnel o p st in
  match fst result with
  | Returns true u lg =>
      exists url proc,
        u = Some url /\ is_public_url url = true /\
        spawned_process o = Some proc /\
        active_tunnels (snd result)
        = <[p := new_tunnel o p proc url lg]> (active_tunnels st)
  | Returns false u _ =>
      u = None /\
      exists es, active_tunnels (snd result)
                 = alter (extend_logs es) p (active_tunnels st)
  | NeverReturns =>
      exists es, active_tunnels (snd result)
                 = alter (extend_logs es) p (active_tunnels st)
  end.
Proof.
  intros result. subst result.
  destruct (create_tunnel_cases o p st)
    as [(proc & url & lg & Hproc & Hurl & ->)
       |(r & es & evs & -> & [->|[lg ->]] & _)]; simpl.
  - by exists url, proc.
  - by exists es.
  - split; [done|]. by exists es.
Qed.

(** X4: on every input, create_tunnel leaves the records of the other
    ports as they are and removes no port from the live map. *)
Theorem create_tunnel_frame o p st :
  (forall q, q <> p ->
     active_tunnels (snd (create_tunnel o p st)) !! q
     = active_tunnels st !! q) /\
  dom (active_tunnels st) ⊆ dom (active_tunnels (snd (create_tunnel o p st))).
Proof.
  destruct (create_tunnel_cases o p st)
    as [(proc & url & lg & _ & _ & ->)|(r & es & evs & -> & _ & _)]; simpl.
  - split; [intros q Hq; by rewrite lookup_insert_ne|].
    rewrite dom_insert_L. set_solver.
  - split; [intros q Hq; rewrite lookup_alter; by case_decide|].
    by rewrite dom_alter_L.
Qed.

(** X5: on every input, the effects of create_tunnel are, in this order and
    with nothing else: none when the child cannot be spawned; otherwise
    the spawn of the child with the command of the port, followed by the
    start of its log reader when the call returns True, by nothing or by
    one request to that child to terminate when it returns False, and by
    nothing when it does not return. So no process is killed or waited
    for, and a process already registered under the port is not
    signalled, also when its record is replaced. *)
Theorem create_tunnel_spares_other_processes o p st :
  exists evs,
    effects (snd (create_tunnel o p st)) = effects st ++ evs /\
    match spawned_process o with
    | None => evs = []
    | Some proc =>
        match fst (create_tunnel o p st) with
        | Returns true _ _ =>
            evs = [Spawn (command st p); StartLogReader proc p]
        | Returns false _ _ =>
            evs = [Spawn (command st p); PopenTerminate proc]
            \/ evs = [Spawn (command st p)]
        | NeverReturns => evs = [Spawn (command st p)]
        end
    end /\
    forall ev, ev ∈ evs -> touches_process ev = true ->
      exists proc, spawned_process o = Some proc /\ ev = PopenTerminate proc.
Proof.
  destruct (spawn o) as [msg|proc output ending] eqn:Hspawn.
  - assert (Hnone : spawned_process o = None)
      by (unfold spawned_process; by rewrite Hspawn).
    rewrite Hnone, (create_tunnel_spawn_exception o p st msg Hspawn).
    exists []. simpl. rewrite app_nil_r. split; [done|]. split; [done|].
    intros ev Hev. by apply elem_of_nil in Hev.
  - assert (Hproc : spawned_process o = Some proc)
      by (unfold spawned_process; by rewrite Hspawn).
    assert (Hlast : forall evs : list effect,
              (forall ev, ev ∈ evs ->
                 ev = Spawn (command st p) \/ ev = StartLogReader proc p
                 \/ ev = PopenTerminate proc) ->
              forall ev, ev ∈ evs -> touches_process ev = true ->
                exists proc', Some proc = Some proc'
                              /\ ev = PopenTerminate proc').
    { intros evs Hevs ev Hev Htouch.
      destruct (Hevs ev Hev) as [-> | [-> | ->]]; [done|done|by exists proc]. }
    rewrite Hproc, (create_tunnel_spawned o p st proc output ending Hspawn).
    destruct (read_lines_cases o p output ending
                ([log_entry o 0 (command_line st p)],
                 emit [Spawn (command st p)]
                   (logs_to p [log_entry o 0 (command_line st p)] st)))
      as (lines & Hsnd & Hurl).
    rewrite log_all_started in Hsnd.
    destruct (read_lines _ _ _ _ _) as [ex acc]. simpl in Hsnd, Hurl.
    subst acc. destruct ex as [url| | | |msg].
    + destruct (Hurl url eq_refl) as [line Hline].
      rewrite (re_search_truthy _ _ Hline).
      exists [Spawn (command st p); StartLogReader proc p]. simpl.
      split; [by rewrite <- app_assoc|]. split; [done|].
      apply Hlast. intros ev Hev.
      apply elem_of_cons in Hev as [->|Hev]; [by left|].
      apply elem_of_cons in Hev as [->|Hev]; [right; by left|].
      by apply elem_of_nil in Hev.
    + exists [Spawn (command st p); PopenTerminate proc]. simpl.
      split; [by rewrite <- app_assoc|]. split; [by left|].
      apply Hlast. intros ev Hev.
      apply elem_of_cons in Hev as [->|Hev]; [by left|].
      apply elem_of_cons in Hev as [->|Hev]; [right; by right|].
      by apply elem_of_nil in Hev.
    + unfold early_exit. rewrite log_appender_eq.
      exists [Spawn (command st p); PopenTerminate proc]. simpl.
      split; [by rewrite <- app_assoc|]. split; [by left|].
      apply Hlast. intros ev Hev.
      apply elem_of_cons in Hev as [->|Hev]; [by left|].
      apply elem_of_cons in Hev as [->|Hev]; [right; by right|].
      by apply elem_of_nil in Hev.
    + exists [Spawn (command st p)]. simpl.
      split; [done|]. split; [done|].
      apply Hlast. intros ev Hev.
      apply elem_of_cons in Hev as [->|Hev]; [by left|].
      by apply elem_of_nil in Hev.
    + unfold fatal_error. rewrite log_appender_eq.
      exists [Spawn (command st p)]. simpl.
      split; [done|]. split; [by right|].
      apply Hlast. intros ev Hev.
      apply elem_of_cons in Hev as [->|Hev]; [by left|].
      by apply elem_of_nil in Hev.
Qed.

(** ** The invariant of the live map *)

Lemma tunnel_ok_extend_logs key es d :
  tunnel_ok key d -> tunnel_ok key (extend_logs es d).
Proof. by intros (? & ? & ? & ? & ?). Qed.

Lemma tunnel_ok_update_stats key h pg s d :
  0 <= h <= 100 -> tunnel_ok key d -> tunnel_ok key (update_stats h pg s d).
Proof. by intros ? (? & ? & ? & ? & ?). Qed.

Lemma probe_stats_health r : 0 <= (probe_stats r).1.1 <= 100.
Proof.
  destruct r as [c t0 t1|e]; simpl.
  - destruct ((200 <=? c) && (c <? 500)); simpl; lia.
  - destruct (is_Timeout e); [simpl; lia|].
    destruct (is_ConnectionError e); simpl; lia.
Qed.

Lemma manager_ok_tunnels st st' :
  active_tunnels st' = active_tunnels st -> manager_ok st -> manager_ok st'.
Proof. unfold manager_ok. by intros ->. Qed.

Lemma manager_ok_alter f p st :
  (forall key d, tunnel_ok key d -> tunnel_ok key (f d)) ->
  manager_ok st -> manager_ok (set_tunnels (alter f p) st).
Proof.
  intros Hf Hok key d. simpl. rewrite lookup_alter. case_decide.
  - subst key. destruct (active_tunnels st !! p) as [d0|] eqn:Hd; [|done].
    intros [= <-]. apply Hf. by apply Hok.
  - apply Hok.
Qed.

Lemma manager_ok_delete p st :
  manager_ok st -> manager_ok (set_tunnels (delete p) st).
Proof.
  intros Hok key d. simpl. rewrite lookup_delete. case_decide; [done|].
  apply Hok.
Qed.

Lemma manager_ok_insert p d st :
  tunnel_ok p d -> manager_ok st -> manager_ok (set_tunnels (<[p := d]>) st).
Proof.
  intros Hd Hok key d'. simpl. rewrite lookup_insert. case_decide.
  - subst key. by intros [= <-].
  - apply Hok.
Qed.

Lemma manager_ok_create_tunnel o p st :
  manager_ok st -> manager_ok (snd (create_tunnel o p st)).
Proof.
  intros Hok.
  destruct (create_tunnel_cases o p st)
    as [(proc & url & lg & _ & Hurl & ->)|(r & es & evs & -> & _ & _)]; simpl.
  - apply (manager_ok_tunnels
             (set_tunnels (<[p := new_tunnel o p proc url lg]>) st));
      [done|].
    apply manager_ok_insert; [|done]. by repeat split.
  - apply (manager_ok_tunnels (logs_to p es st)); [done|].
    apply manager_ok_alter; [|done]. intros; by apply tunnel_ok_extend_logs.
Qed.

Lemma manager_ok_terminate_tunnel o p st :
  manager_ok st -> manager_ok (snd (terminate_tunnel o p st)).
Proof.
  intros Hok.
  apply (manager_ok_tunnels (set_tunnels (delete p) st));
    [apply terminate_tunnel_map|by apply manager_ok_delete].
Qed.

Lemma manager_ok_get_tunnel_stats o p st :
  manager_ok st -> manager_ok (snd (get_tunnel_stats o p st)).
Proof.
  intros Hok. destruct (active_tunnels st !! p) as [d|] eqn:Hd.
  - destruct (poll o) as [|code|msg] eqn:Hpoll.
    + rewrite (get_tunnel_stats_running o p st d Hd Hpoll). simpl.
      intros key d'. simpl. rewrite lookup_insert. case_decide.
      * subst key. intros [= <-].
        apply tunnel_ok_update_stats; [apply probe_stats_health|].
        by apply Hok.
      * apply Hok.
    + unfold get_tunnel_stats. rewrite Hd, Hpoll. simpl.
      by apply manager_ok_terminate_tunnel.
    + unfold get_tunnel_stats. by rewrite Hd, Hpoll.
  - unfold get_tunnel_stats. by rewrite Hd.
Qed.

Lemma manager_ok_log_reader strftime k p lines st :
  manager_ok st -> manager_ok (log_reader strftime k p lines st).
Proof.
  revert k st. induction lines as [|line lines IH]; intros k st Hok; [done|].
  simpl. destruct (str_truthy line); [|done].
  apply IH. apply manager_ok_alter; [|done].
  by intros key d (? & ? & ? & ? & ?).
Qed.

(** X6: a manager starts with a live map in which every record is kept
    under its own port, has the pid of its process handle, the status
    "active", a health between 0 and 100 and a URL of the pattern; and
    create_tunnel, terminate_tunnel, get_tunnel_stats and log_reader, on
    every input, keep the live map so. *)
Theorem manager_ok_invariant :
  (forall e arg remove_raises files,
     manager_ok (core (fst (__init__ e arg remove_raises files)))) /\
  (forall st, manager_ok st ->
     (forall o p, manager_ok (snd (create_tunnel o p st))) /\
     (forall o p, manager_ok (snd (terminate_tunnel o p st))) /\
     (forall o p, manager_ok (snd (get_tunnel_stats o p st))) /\
     (forall strftime k p lines,
        manager_ok (log_reader strftime k p lines st))).
Proof.
  split.
  - intros e arg remove_raises files key d. simpl.
    by rewrite lookup_empty.
  - intros st Hok. split; [|split; [|split]].
    + intros o p. by apply manager_ok_create_tunnel.
    + intros o p. by apply manager_ok_terminate_tunnel.
    + intros o p. by apply manager_ok_get_tunnel_stats.
    + intros strftime k p lines. by apply manager_ok_log_reader.
Qed.

Lemma sample_state_ok : manager_ok sample_state.
Proof.
  intros key d Hd. unfold sample_state in Hd. simpl in Hd.
  apply lookup_singleton_Some in Hd as [<- <-].
  repeat split; vm_compute; congruence.
Defined.

Lemma manager_ok_invariant_witness :
  manager_ok sample_state /\
  manager_ok (snd (create_tunnel prompt_url "8080" sample_state)) /\
  manager_ok
    (snd (get_tunnel_stats (stats_of StillRunning switching_protocols)
            "5000" sample_state)).
Proof.
  split; [exact sample_state_ok|].
  destruct manager_ok_invariant as [_ Hkeep].
  destruct (Hkeep sample_state sample_state_ok) as (Hcreate & _ & Hstats & _).
  split; [apply Hcreate|apply Hstats].
Defined.

(** ** get_tunnel_stats on every path *)

Lemma probe_stats_text r : (probe_stats r).2 <> "Tunnel not found".
Proof.
  destruct r as [c t0 t1|e]; simpl.
  - by destruct ((200 <=? c) && (c <? 500)).
  - destruct (is_Timeout e); [done|]. by destruct (is_ConnectionError e).
Qed.

(** X7: get_tunnel_stats answers "Tunnel not found" exactly when the port
    is not in the live map: no outcome of the poll or of the probe of a
    registered port gives that text. *)
Theorem get_tunnel_stats_not_found_iff o p st :
  (fst (get_tunnel_stats o p st)).2 = "Tunnel not found"
  <-> active_tunnels st !! p = None.
Proof.
  split.
  - destruct (active_tunnels st !! p) as [d|] eqn:Hd; [|done].
    destruct (poll o) as [|code|msg] eqn:Hpoll.
    + rewrite (get_tunnel_stats_running o p st d Hd Hpoll). simpl.
      intros Htext. by apply probe_stats_text in Htext.
    + unfold get_tunnel_stats. by rewrite Hd, Hpoll.
    + unfold get_tunnel_stats. by rewrite Hd, Hpoll.
  - intros Hnone. unfold get_tunnel_stats. by rewrite Hnone.
Qed.

Lemma get_tunnel_stats_health o p st :
  0 <= (fst (get_tunnel_stats o p st)).1.1 <= 100.
Proof.
  destruct (active_tunnels st !! p) as [d|] eqn:Hd.
  - destruct (poll o) as [|code|msg] eqn:Hpoll.
    + rewrite (get_tunnel_stats_running o p st d Hd Hpoll). simpl.
      apply probe_stats_health.
    + unfold get_tunnel_stats. rewrite Hd, Hpoll. simpl. lia.
    + unfold get_tunnel_stats. rewrite Hd, Hpoll. simpl. lia.
  - unfold get_tunnel_stats. rewrite Hd. simpl. lia.
Qed.

Lemma probe_stats_healthy r :
  (probe_stats r).1.1 = 100 <-> (probe_stats r).2 = "Healthy".
Proof.
  destruct r as [c t0 t1|e]; simpl.
  - by destruct ((200 <=? c) && (c <? 500)).
  - destruct (is_Timeout e); [done|]. by destruct (is_ConnectionError e).
Qed.

(** X8: on every path, for a port that is registered or not, the health
    get_tunnel_stats returns lies between 0 and 100, and it is 100
    exactly when the status text is "Healthy". *)
Theorem get_tunnel_stats_health_range o p st :
  0 <= (fst (get_tunnel_stats o p st)).1.1 <= 100 /\
  ((fst (get_tunnel_stats o p st)).1.1 = 100
   <-> (fst (get_tunnel_stats o p st)).2 = "Healthy").
Proof.
  split; [apply get_tunnel_stats_health|].
  destruct (active_tunnels st !! p) as [d|] eqn:Hd.
  - destruct (poll o) as [|code|msg] eqn:Hpoll.
    + rewrite (get_tunnel_stats_running o p st d Hd Hpoll). simpl.
      apply probe_stats_healthy.
    + unfold get_tunnel_stats. by rewrite Hd, Hpoll.
    + unfold get_tunnel_stats. by rewrite Hd, Hpoll.
  - unfold get_tunnel_stats. by rewrite Hd.
Qed.

(** X9: on every path, get_tunnel_stats leaves the records of the other
    ports as they are and registers no port; the port it is asked about
    leaves the live map only when the poll reports an exit. *)
Theorem get_tunnel_stats_other_ports o p st :
  (forall q, q <> p ->
     active_tunnels (snd (get_tunnel_stats o p st)) !! q
     = active_tunnels st !! q) /\
  dom (active_tunnels (snd (get_tunnel_stats o p st)))
    ⊆ dom (active_tunnels st) /\
  ((forall code, poll o <> Exited code) ->
   dom (active_tunnels (snd (get_tunnel_stats o p st)))
   = dom (active_tunnels st)).
Proof.
  destruct (active_tunnels st !! p) as [d|] eqn:Hd.
  - destruct (poll o) as [|code|msg] eqn:Hpoll.
    + rewrite (get_tunnel_stats_running o p st d Hd Hpoll). simpl.
      assert (Hdom : dom (<[p := update_stats (probe_stats (probe o)).1.1
                                  (probe_stats (probe o)).1.2
                                  (probe_stats (probe o)).2 d]>
                            (active_tunnels st))
                     = dom (active_tunnels st)).
      { rewrite dom_insert_L. apply subseteq_union_1_L.
        apply singleton_subseteq_l. by apply elem_of_dom_2 in Hd. }
      split; [intros q Hq; by rewrite lookup_insert_ne|].
      rewrite Hdom. by split.
    + unfold get_tunnel_stats. rewrite Hd, Hpoll. simpl.
      rewrite terminate_tunnel_map.
      split; [intros q Hq; by rewrite lookup_delete_ne|].
      rewrite dom_delete_L. split; [apply subseteq_difference_l; done|].
      intros Hno.
      by destruct (Hno code).
    + unfold get_tunnel_stats. rewrite Hd, Hpoll. simpl. by repeat split.
  - unfold get_tunnel_stats. rewrite Hd. simpl. by repeat split.
Qed.

Lemma get_tunnel_stats_other_ports_witness :
  (forall code, poll (stats_of StillRunning switching_protocols)
                <> Exited code) /\
  dom (active_tunnels
         (snd (get_tunnel_stats (stats_of StillRunning switching_protocols)
                 "5000" sample_state)))
  = dom (active_tunnels sample_state).
Proof.
  split; [discriminate|].
  apply (get_tunnel_stats_other_ports
           (stats_of StillRunning switching_protocols) "5000" sample_state).
  discriminate.
Defined.

(** ** terminate_tunnel on every path *)

(** X10: a call of terminate_tunnel that follows another call on the same
    port does nothing at all: it returns False and the state, the effects
    on processes included, is the one the first call left. *)
Theorem terminate_tunnel_idempotent o1 o2 p st :
  terminate_tunnel o2 p (snd (terminate_tunnel o1 p st))
  = (false, snd (terminate_tunnel o1 p st)).
Proof.
  pose proof (terminate_tunnel_absent o1 p st) as Habs.
  unfold terminate_tunnel at 1. by rewrite Habs.
Qed.

Lemma emits_all_perform (P : effect -> Prop) evs st :
  Forall P evs -> emits_all P st (perform evs st).
Proof. intros HP. by exists evs. Qed.

Lemma emits_all_print P o site st : emits_all P st (print_at o site st).
Proof.
  exists []. unfold print_at.
  destruct (print_raises o site); simpl; by rewrite emit_nil.
Qed.

Lemma emits_all_then P st m k :
  emits_all P st m -> (forall st', emits_all P st' (k st')) ->
  emits_all P st (m >> k).
Proof.
  intros (evs & Hm & HP) Hk. destruct m as [st1|st1]; simpl in *.
  - destruct (Hk st1) as (evs' & Hk' & HP'). exists (evs ++ evs').
    rewrite Hk', Hm, emit_emit. split; [done|]. by apply Forall_app.
  - by exists evs.
Qed.

Lemma signal_tree_aimed d children :
  Forall (aimed_at d children) (signal_tree (pid d) children).
Proof.
  unfold signal_tree. rewrite !Forall_app. split; [|split].
  - apply Forall_forall. intros ev (x & -> & Hx)%list_elem_of_fmap.
    simpl. apply elem_of_cons. by right.
  - repeat constructor.
  - by repeat constructor.
Qed.

Lemma psutil_teardown_aimed o d st :
  emits_all (aimed_at d (listed_children o)) st
    (psutil_teardown o (process d) (pid d) st).
Proof.
  unfold psutil_teardown, listed_children.
  destruct (walk o) as [[]|children [[]|]];
    repeat (apply emits_all_then; [|intros ?]);
    try apply emits_all_print;
    try (apply emits_all_perform; first
           [apply signal_tree_aimed | by repeat constructor]).
  apply emits_all_perform. apply Forall_app.
  split; [apply signal_tree_aimed|].
  apply Forall_forall. intros ev (x & -> & Hx)%list_elem_of_fmap.
  simpl. by apply list_elem_of_filter in Hx as [_ Hx].
Qed.

Lemma teardown_aimed o d st :
  emits_all (aimed_at d (listed_children o)) st (teardown o d st).
Proof.
  unfold teardown.
  repeat (apply emits_all_then; [|intros ?]);
    try apply emits_all_print; try apply psutil_teardown_aimed.
  apply emits_all_perform. by repeat constructor.
Qed.

(** X11: whatever psutil answers and wherever an exception escapes, the
    effects of terminate_tunnel on a registered port are aimed at the
    process of its record only: signals and kills go to the pid of the
    record or to a child psutil listed for it, the wait of 3 seconds is
    on that pid and those children, and the request to terminate and the
    wait of 5 seconds are on the handle of the record. Nothing is spawned
    and no probe is sent. *)
Theorem terminate_tunnel_targets o p st d :
  active_tunnels st !! p = Some d ->
  exists evs,
    effects (snd (terminate_tunnel o p st)) = effects st ++ evs /\
    Forall (aimed_at d (listed_children o)) evs.
Proof.
  intros Hd. unfold terminate_tunnel. rewrite Hd.
  destruct (teardown_aimed o d (set_tunnels (delete p) st))
    as (evs & Hstate & Haimed).
  exists evs. split; [|done].
  destruct (teardown o d (set_tunnels (delete p) st)) as [st'|st'];
    simpl in *; subst st'; [done|].
  simpl. by rewrite lookup_delete_eq.
Qed.

Lemma terminate_tunnel_targets_witness :
  active_tunnels sample_state !! "5000" = Some sample_tunnel /\
  exists evs,
    effects (snd (terminate_tunnel quiet_teardown "5000" sample_state))
    = effects sample_state ++ evs /\
    Forall (aimed_at sample_tunnel (listed_children quiet_teardown)) evs.
Proof.
  split; [vm_compute; reflexivity|].
  apply (terminate_tunnel_targets quiet_teardown "5000" sample_state
           sample_tunnel).
  vm_compute; reflexivity.
Defined.

(** ** The snapshot and its file *)

Lemma snapshot_entry_published o p d1 d2 :
  same_published d1 d2 -> snapshot_entry o p d1 = snapshot_entry o p d2.
Proof.
  intros (Hurl & Hstart & Hpid & Hstatus & Hhealth & Hping & Htext).
  unfold snapshot_entry.
  by rewrite Hurl, Hstart, Hpid, Hstatus, Hhealth, Hping, Htext.
Qed.

Lemma snapshot_published o st st' :
  (forall key, option_Forall2 same_published
                 (active_tunnels st !! key) (active_tunnels st' !! key)) ->
  _snapshot_for_log o st = _snapshot_for_log o st'.
Proof.
  intros Hsame. apply map_eq; intros key. rewrite !snapshot_lookup.
  destruct (Hsame key) as [d1 d2 Hd|]; simpl; [|done].
  f_equal. by apply snapshot_entry_published.
Qed.

Lemma payload_published o st st' :
  (forall key, option_Forall2 same_published
                 (active_tunnels st !! key) (active_tunnels st' !! key)) ->
  payload o st = payload o st'.
Proof.
  intros Hsame. unfold payload. by rewrite (snapshot_published o st st').
Qed.

(** X12: the payload written to log.json depends on the live map only
    through the ports and, for each record, its URL, start time, pid,
    status, health, ping and status text: two states whose records
    differ in their logs and process handles give the same payload. *)
Theorem payload_ignores_logs_and_process o st st' :
  (forall key, option_Forall2 same_published
                 (active_tunnels st !! key) (active_tunnels st' !! key)) ->
  payload o st = payload o st' /\
  _snapshot_for_log o st = _snapshot_for_log o st'.
Proof.
  intros Hsame. split.
  - by apply payload_published.
  - by apply snapshot_published.
Qed.

Lemma logs_to_published p es st key :
  option_Forall2 same_published
    (active_tunnels st !! key) (active_tunnels (logs_to p es st) !! key).
Proof.
  rewrite logs_to_tunnels.
  case_decide; destruct (active_tunnels st !! key); simpl;
    by repeat constructor.
Qed.

Lemma payload_ignores_logs_and_process_witness :
  (forall key,
     option_Forall2 same_published
       (active_tunnels sample_state !! key)
       (active_tunnels (logs_to "5000" ["[12:00:09] more"] sample_state)
          !! key)) /\
  payload sample_clock sample_state
  = payload sample_clock (logs_to "5000" ["[12:00:09] more"] sample_state).
Proof.
  split; [intros key; apply logs_to_published|].
  apply (payload_ignores_logs_and_process sample_clock sample_state
           (logs_to "5000" ["[12:00:09] more"] sample_state)).
  intros key. apply logs_to_published.
Defined.

Lemma length_append (s t : string) :
  String.length (s +:+ t) = (String.length s + String.length t)%nat.
Proof.
  induction s as [|a s IH]; [done|]. rewrite append_cons. simpl.
  by rewrite IH.
Qed.

Lemma tmp_path_ne lp : tmp_path lp <> lp.
Proof.
  intros Heq. apply (f_equal String.length) in Heq.
  unfold tmp_path in Heq. rewrite length_append in Heq. simpl in Heq. lia.
Qed.

Lemma _write_json_atomic_at lp w data files :
  _write_json_atomic lp w data files !! lp
  = match w with Written => Some (Whole data) | _ => files !! lp end.
Proof.
  pose proof (tmp_path_ne lp) as Hne.
  destruct w; simpl; rewrite ?lookup_insert_eq, ?lookup_insert_ne by done;
    done.
Qed.

(** X13: whichever step of _write_json_atomic fails, log.json holds
    afterwards either what it held before or the whole of the new data,
    never a part of it; after a write that went through it holds the new
    data and the temporary file is gone; and no file other than log.json
    and log.json.tmp is touched. *)
Theorem _write_json_atomic_all_or_nothing lp w data files :
  let files' := _write_json_atomic lp w data files in
  (files' !! lp = files !! lp \/ files' !! lp = Some (Whole data)) /\
  (w = Written ->
   files' !! lp = Some (Whole data) /\ files' !! tmp_path lp = None) /\
  (forall path, path <> lp -> path <> tmp_path lp ->
     files' !! path = files !! path).
Proof.
  intros files'. subst files'. pose proof (tmp_path_ne lp) as Hne.
  split; [|split].
  - rewrite _write_json_atomic_at. destruct w; auto.
  - intros ->. simpl. rewrite lookup_insert_eq. split; [done|].
    rewrite lookup_insert_ne by done. apply lookup_delete_eq.
  - intros path Hlp Htmp.
    destruct w; simpl;
      rewrite ?lookup_insert_ne, ?lookup_delete_ne, ?lookup_insert_ne
        by done; done.
Qed.

Lemma _write_json_atomic_all_or_nothing_witness :
  _write_json_atomic "log.json" Written JNull ∅ !! "log.json"
  = Some (Whole JNull) /\
  _write_json_atomic "log.json" Written JNull ∅ !! tmp_path "log.json" = None.
Proof.
  by apply (_write_json_atomic_all_or_nothing "log.json" Written JNull ∅).
Defined.

Lemma published_cons t turns :
  published (t :: turns)
  = if stop_is_set t then None
    else match published turns with
         | Some j => Some j
         | None => if wrote t
                   then Some (payload (turn_clock t) (turn_state t))
                   else None
         end.
Proof.
  unfold published. simpl. destruct (stop_is_set t); [done|].
  rewrite filter_cons. destruct (wrote t) eqn:Hw.
  - rewrite decide_True by done.
    destruct (filter _ (before_stop turns)) as [|t' l]; [done|].
    simpl. by destruct (last (t' :: l)) eqn:Hlast;
      [|apply last_None in Hlast].
  - rewrite decide_False by (by intros ?).
    by destruct (last (filter _ (before_stop turns))).
Qed.

Lemma _log_writer_loop_at lp turns files :
  _log_writer_loop lp turns files !! lp
  = match published turns with
    | Some j => Some (Whole j)
    | None => files !! lp
    end.
Proof.
  revert files. induction turns as [|t turns IH]; intros files; [done|].
  rewrite published_cons. simpl. destruct (stop_is_set t); [done|].
  rewrite IH, _write_json_atomic_at.
  destruct (published turns); [done|].
  unfold wrote. by destruct (turn_write t).
Qed.

Lemma _write_json_atomic_elsewhere lp w data files path :
  path <> lp -> path <> tmp_path lp ->
  _write_json_atomic lp w data files !! path = files !! path.
Proof.
  intros Hlp Htmp.
  destruct w; simpl;
    rewrite ?lookup_insert_ne, ?lookup_delete_ne, ?lookup_insert_ne
      by done; done.
Qed.

(** X14: when the loop of the writer is left, log.json holds the payload
    of the last turn before the stop whose write went through, whatever
    failed in the turns between; when no write went through it holds
    what it held before. A turn after the stop event writes nothing, and
    the loop touches no file other than log.json and log.json.tmp. *)
Theorem _log_writer_loop_publishes_last lp turns files :
  _log_writer_loop lp turns files !! lp
  = match published turns with
    | Some j => Some (Whole j)
    | None => files !! lp
    end /\
  forall path, path <> lp -> path <> tmp_path lp ->
    _log_writer_loop lp turns files !! path = files !! path.
Proof.
  split; [apply _log_writer_loop_at|].
  intros path Hlp Htmp. revert files.
  induction turns as [|t turns IH]; intros files; [done|].
  simpl. destruct (stop_is_set t); [done|].
  by rewrite IH, _write_json_atomic_elsewhere.
Qed.

(** X15: a manager is constructed with an empty live map, and when the
    removal of the old log.json does not fail, nothing of an earlier run
    is left in it: the file is absent after the constructor, and after
    any turns of the writer it holds the payload of the last write of
    this run that went through, or is still absent. *)
Theorem __init___starts_fresh e arg files turns :
  let m := fst (__init__ e arg false files) in
  let files0 := snd (__init__ e arg false files) in
  active_tunnels (core m) = ∅ /\
  files0 !! log_path m = None /\
  _log_writer_loop (log_path m) turns files0 !! log_path m
  = Whole <$> published turns.
Proof.
  intros m files0. subst m files0. simpl.
  set (lp := match arg with
             | Some given =>
                 if str_truthy given then given
                 else path_join e [module_dir e; "log.json"]
             | None => path_join e [module_dir e; "log.json"]
             end).
  assert (Hgone : match files !! lp with
                  | Some _ => delete lp files
                  | None => files
                  end !! lp = None).
  { destruct (files !! lp) eqn:Hlp; [apply lookup_delete_eq|done]. }
  split; [done|]. split; [done|].
  rewrite _log_writer_loop_at, Hgone. by destruct (published turns).
Qed.

(** A removal that fails leaves the old file in place until the first
    write that goes through. *)
Example __init___remove_fails :
  snd (__init__ sample_os None true stale_files) !! "/opt/tunnel/log.json"
  = Some (Whole JNull).
Proof. vm_compute. reflexivity. Qed.

(** ** log_reader *)

Lemma log_reader_closed_form strftime k p lines st :
  log_reader strftime k p lines st
  = logs_to p (entries_from strftime k (until_eof lines)) st.
Proof.
  revert k st. induction lines as [|line lines IH]; intros k st.
  - simpl. by rewrite logs_to_nil.
  - simpl. destruct (str_truthy line).
    + rewrite IH. simpl entries_from.
      change (set_tunnels (alter (append_log ?e) p) st)
        with (logs_to p [e] st).
      by rewrite logs_to_app.
    + simpl. by rewrite logs_to_nil.
Qed.

(** X16: log_reader appends to the logs of the record of its port, in
    order and each with its time stamp, the lines it reads before the
    first empty string, and changes nothing else: the other fields of
    the record, the other ports, the effects, and so the payload of
    log.json are as before. For a port that is not registered the state
    is unchanged. *)
Theorem log_reader_appends strftime k p lines st :
  let st' := log_reader strftime k p lines st in
  let es := entries_from strftime k (until_eof lines) in
  active_tunnels st' !! p = extend_logs es <$> active_tunnels st !! p /\
  (forall q, q <> p -> active_tunnels st' !! q = active_tunnels st !! q) /\
  effects st' = effects st /\
  (active_tunnels st !! p = None -> st' = st) /\
  (forall o, payload o st' = payload o st).
Proof.
  intros st' es. subst st' es. rewrite log_reader_closed_form.
  split; [rewrite logs_to_tunnels; by case_decide|].
  split; [intros q Hq; rewrite logs_to_tunnels; by case_decide|].
  split; [done|]. split.
  - intros Hnone. destruct st as [m c ev]. unfold logs_to, set_tunnels.
    simpl in *. f_equal. apply map_eq; intros key.
    rewrite lookup_alter. case_decide; [|done]. subst key.
    by rewrite Hnone.
  - intros o. symmetry. apply payload_published.
    intros key. apply logs_to_published.
Qed.

Lemma log_reader_appends_witness :
  active_tunnels empty_state !! "5000" = None /\
  log_reader clock 0 "5000" [starting_line] empty_state = empty_state.
Proof.
  split; [vm_compute; reflexivity|].
  apply (log_reader_appends clock 0 "5000" [starting_line] empty_state).
  vm_compute; reflexivity.
Defined.

(** ** find_cloudflared *)

Lemma first_program_spec e candidates :
  (Forall (fun path => is_program e path = false) candidates
   /\ first_program e candidates = "cloudflared")
  \/ (exists i path,
        candidates !! i = Some path /\ is_program e path = true /\
        (forall j earlier, (j < i)%nat -> candidates !! j = Some earlier ->
           is_program e earlier = false) /\
        first_program e candidates = abspath e path).
Proof.
  induction candidates as [|c candidates IH]; [left; by split|].
  simpl. destruct (is_program e c) eqn:Hc.
  - right. exists 0%nat, c. repeat split; [done|]. intros j earlier Hj. lia.
  - destruct IH as [[Hall Hres]|(i & path & Hi & Hp & Hearlier & Hres)].
    + left. split; [by constructor|done].
    + right. exists (S i), path. repeat split; try done.
      intros [|j] earlier Hj Hlook; simpl in Hlook.
      * by injection Hlook as <-.
      * apply (Hearlier j); [lia|done].
Qed.

(** X17: find_cloudflared returns the absolute path of the first of its
    four candidates, the two bundled paths before the two bare names,
    that exists and is a file; a candidate whose test raises is passed
    over like one that fails; when none is a file it returns the bare
    name "cloudflared". *)
Theorem find_cloudflared_first_program e :
  (Forall (fun path => is_program e path = false) (paths e)
   /\ find_cloudflared e = "cloudflared")
  \/ (exists i path,
        paths e !! i = Some path /\ is_program e path = true /\
        (forall j earlier, (j < i)%nat -> paths e !! j = Some earlier ->
           is_program e earlier = false) /\
        find_cloudflared e = abspath e path).
Proof.
  unfold find_cloudflared.
  destruct (first_program_spec e (paths e)) as [H|H]; [by left|by right].
Qed.

Lemma _log_writer_loop_publishes_last_witness :
  published [sample_turn DumpRaises; sample_turn Written;
             sample_turn ReplaceRaises]
  = Some (payload sample_clock sample_state) /\
  _log_writer_loop "log.json"
    [sample_turn DumpRaises; sample_turn Written; sample_turn ReplaceRaises]
    ∅ !! "log.json"
  = Some (Whole (payload sample_clock sample_state)).
Proof.
  split; [reflexivity|].
  destruct (_log_writer_loop_publishes_last "log.json"
              [sample_turn DumpRaises; sample_turn Written;
               sample_turn ReplaceRaises] ∅) as [Hfile _].
  exact Hfile.
Defined.

(** ** How the operations compose *)

Lemma create_tunnel_success_state o p st u lg :
  fst (create_tunnel o p st) = Returns true u lg ->
  exists proc url,
    u = Some url /\ spawned_process o = Some proc /\
    snd (create_tunnel o p st)
    = emit [Spawn (command st p); StartLogReader proc p]
        (set_tunnels (<[p := new_tunnel o p proc url lg]>) st).
Proof.
  destruct (create_tunnel_cases o p st)
    as [(proc & url & lg' & Hproc & _ & ->)
       |(r & es & evs & -> & [->|[lg' ->]] & _)]; simpl; [|done..].
  intros [= <- <-]. by exists proc, url.
Qed.

Lemma teardown_completes o d st :
  (forall site, print_raises o site = false) ->
  exists evs,
    teardown o d st = Normal (emit (evs ++ [PopenWait (process d) 5]) st).
Proof.
  intros Hquiet. unfold teardown, psutil_teardown, print_at, perform.
  destruct (walk o) as [[]|children [[]|]];
    rewrite ?Hquiet; simpl; rewrite ?Hquiet; simpl; rewrite ?Hquiet;
    rewrite ?emit_emit; try (by eexists).
  - by exists [].
  - exists (signal_tree (pid d) children ++ [PopenTerminate (process d)]).
    by rewrite <- app_assoc.
Qed.

(** X18: terminate_tunnel undoes a create_tunnel that succeeded on a port
    that was free: when no exception escapes, it returns True, the live
    map is again the one before the creation, and the handle that is
    waited for at the end is the one of the process the creation
    spawned. *)
Theorem create_then_terminate o o' p st u lg :
  active_tunnels st !! p = None ->
  fst (create_tunnel o p st) = Returns true u lg ->
  (forall site, print_raises o' site = false) ->
  let st1 := snd (create_tunnel o p st) in
  let st2 := snd (terminate_tunnel o' p st1) in
  fst (terminate_tunnel o' p st1) = true /\
  active_tunnels st2 = active_tunnels st /\
  exists proc,
    spawned_process o = Some proc /\ last (effects st2) = Some (PopenWait proc 5).
Proof.
  intros Hfree Hok Hquiet st1 st2. subst st2 st1.
  destruct (create_tunnel_success_state o p st u lg Hok)
    as (proc & url & -> & Hproc & ->).
  unfold terminate_tunnel. simpl. rewrite lookup_insert_eq.
  destruct (teardown_completes o' (new_tunnel o p proc url lg)
              (set_tunnels (delete p)
                 (emit [Spawn (command st p); StartLogReader proc p]
                    (set_tunnels
                       (<[p := new_tunnel o p proc url lg]>) st))) Hquiet)
    as (evs & ->).
  simpl. split; [done|]. split.
  - rewrite delete_insert_eq. by apply delete_id.
  - exists proc. split; [done|]. by rewrite !app_assoc, last_snoc.
Qed.

Lemma create_then_terminate_witness :
  active_tunnels empty_state !! "5000" = None /\
  fst (terminate_tunnel quiet_teardown "5000"
         (snd (create_tunnel prompt_url "5000" empty_state))) = true /\
  active_tunnels
    (snd (terminate_tunnel quiet_teardown "5000"
            (snd (create_tunnel prompt_url "5000" empty_state))))
  = active_tunnels empty_state.
Proof.
  split; [vm_compute; reflexivity|].
  destruct (create_then_terminate prompt_url quiet_teardown "5000"
              empty_state (Some "https://abc-def.trycloudflare.com")
              (stamped prompt_url 0
                 [command_line empty_state "5000"; starting_line; url_line;
                  "Public URL found: https://abc-def.trycloudflare.com"]))
    as (Htrue & Hmap & _).
  - vm_compute; reflexivity.
  - vm_compute; reflexivity.
  - intros site; reflexivity.
  - by split.
Defined.

(** X19: after a create_tunnel that succeeded, a get_tunnel_stats on the
    port whose process still runs sends its one request to the URL that
    create_tunnel returned, answers with the triple of the probe, never
    "Tunnel not found", and caches that triple in the record. *)
Theorem create_then_probe o o' p st u lg :
  fst (create_tunnel o p st) = Returns true u lg ->
  poll o' = StillRunning ->
  let st1 := snd (create_tunnel o p st) in
  let result := get_tunnel_stats o' p st1 in
  exists url d,
    u = Some url /\
    effects (snd result) = effects st1 ++ [HttpGet url 5 false] /\
    fst result = probe_stats (probe o') /\
    (fst result).2 <> "Tunnel not found" /\
    active_tunnels (snd result) !! p = Some d /\
    (health d, ping d, status_text d) = fst result /\
    public_url d = url.
Proof.
  intros Hok Hpoll st1 result. subst result st1.
  destruct (create_tunnel_success_state o p st u lg Hok)
    as (proc & url & -> & Hproc & ->).
  assert (Hd : active_tunnels
                 (emit [Spawn (command st p); StartLogReader proc p]
                    (set_tunnels (<[p := new_tunnel o p proc url lg]>) st))
               !! p = Some (new_tunnel o p proc url lg))
    by (simpl; apply lookup_insert_eq).
  rewrite (get_tunnel_stats_running o' p _ _ Hd Hpoll).
  eexists url, _. simpl. split; [done|]. split; [done|]. split; [done|].
  split; [apply probe_stats_text|].
  split; [apply lookup_insert_eq|]. simpl.
  by destruct (probe_stats (probe o')) as [[h pg] s].
Qed.

Lemma create_then_probe_witness :
  fst (create_tunnel prompt_url "5000" empty_state)
  = Returns true (Some "https://abc-def.trycloudflare.com")
      (stamped prompt_url 0
         [command_line empty_state "5000"; starting_line; url_line;
          "Public URL found: https://abc-def.trycloudflare.com"]) /\
  fst (get_tunnel_stats (stats_of StillRunning (Response 200 0 42000)) "5000"
         (snd (create_tunnel prompt_url "5000" empty_state)))
  = (100, 42, "Healthy").
Proof.
  assert (Hok : fst (create_tunnel prompt_url "5000" empty_state)
                = Returns true (Some "https://abc-def.trycloudflare.com")
                    (stamped prompt_url 0
                       [command_line empty_state "5000"; starting_line;
                        url_line;
                        "Public URL found: https://abc-def.trycloudflare.com"]))
    by (vm_compute; reflexivity).
  split; [exact Hok|].
  destruct (create_then_probe prompt_url
              (stats_of StillRunning (Response 200 0 42000)) "5000"
              empty_state _ _ Hok eq_refl)
    as (url & d & _ & _ & Hres & _).
  rewrite Hres. reflexivity.
Defined.

(** ** The dict [port_data] *)

Section PyDictFacts.

Context {V : Type}.
Implicit Types (d : list (string * V)) (key : string) (v : V).

Lemma dict_get_None key d : dict_get key d = None <-> key ∉ map fst d.
Proof.
  induction d as [|[k v0] d IH]; simpl.
  - split; [intros _; apply not_elem_of_nil|done].
  - rewrite not_elem_of_cons. case_decide.
    + split; [done|]. intros [Hne _]. by destruct Hne.
    + rewrite IH. split; [by split|by intros [_ ?]].
Qed.

Lemma dict_get_Some_elem key v d : dict_get key d = Some v -> (key, v) ∈ d.
Proof.
  induction d as [|[k v0] d IH]; simpl; [done|].
  case_decide.
  - intros [= <-]. subst k. apply elem_of_cons. by left.
  - intros Hd. apply elem_of_cons. right. by apply IH.
Qed.

Lemma dict_get_set_eq key v d : dict_get key (dict_set key v d) = Some v.
Proof.
  induction d as [|[k v0] d IH]; simpl.
  - by rewrite decide_True.
  - case_decide; simpl; [by rewrite decide_True|].
    by rewrite decide_False.
Qed.

Lemma dict_get_set_ne key key' v d :
  key <> key' -> dict_get key' (dict_set key v d) = dict_get key' d.
Proof.
  intros Hne. induction d as [|[k v0] d IH]; simpl.
  - by rewrite decide_False.
  - case_decide; simpl.
    + subst k. by rewrite !decide_False.
    + by rewrite IH.
Qed.

Lemma dict_set_absent key v d :
  dict_get key d = None -> dict_set key v d = d ++ [(key, v)].
Proof.
  induction d as [|[k v0] d IH]; simpl; [done|].
  case_decide; [done|]. intros Hd. by rewrite IH.
Qed.

Lemma dict_set_keys key v d :
  is_Some (dict_get key d) -> map fst (dict_set key v d) = map fst d.
Proof.
  induction d as [|[k v0] d IH]; simpl; [by intros [? ?]|].
  case_decide; simpl; [by subst k|]. intros Hd. by rewrite IH.
Qed.

Lemma dict_get_del_eq key d : dict_get key (dict_del key d) = None.
Proof.
  induction d as [|[k v0] d IH]; simpl; [done|].
  case_decide; simpl; [done|]. by rewrite decide_False.
Qed.

Lemma dict_get_del_ne key key' d :
  key <> key' -> dict_get key' (dict_del key d) = dict_get key' d.
Proof.
  intros Hne. induction d as [|[k v0] d IH]; simpl; [done|].
  case_decide; simpl.
  - subst k. by rewrite decide_False.
  - by rewrite IH.
Qed.

Lemma dict_del_keys key d :
  map fst (dict_del key d) = filter (fun k => k <> key) (map fst d).
Proof.
  induction d as [|[k v0] d IH]; simpl; [done|].
  rewrite filter_cons. simpl. case_decide.
  - by rewrite decide_False by (by intros ?).
  - rewrite decide_True by done. simpl. by rewrite IH.
Qed.

Lemma dict_del_sublist key d : dict_del key d ⊆ d.
Proof.
  induction d as [|[k v0] d IH]; simpl; [done|].
  case_decide.
  - intros x Hx. apply elem_of_cons. right. by apply IH.
  - intros x [->|Hx]%elem_of_cons; apply elem_of_cons; [by left|].
    right. by apply IH.
Qed.

Lemma dict_set_NoDup key v d :
  NoDup (map fst d) -> NoDup (map fst (dict_set key v d)).
Proof.
  intros Hd. destruct (dict_get key d) as [v0|] eqn:Hget.
  - by rewrite dict_set_keys.
  - rewrite dict_set_absent, map_app by done. simpl.
    apply NoDup_app. split; [done|]. split; [|apply NoDup_singleton].
    intros k Hk ->%list_elem_of_singleton.
    by apply dict_get_None in Hget.
Qed.

Lemma dict_del_NoDup key d :
  NoDup (map fst d) -> NoDup (map fst (dict_del key d)).
Proof. intros Hd. rewrite dict_del_keys. by apply NoDup_filter. Qed.

Lemma dict_set_Forall (P : V -> Prop) key v d :
  P v -> Forall (fun item => P item.2) d ->
  Forall (fun item => P item.2) (dict_set key v d).
Proof.
  intros Hv. induction 1 as [|[k v0] d Hk Hd IH]; simpl.
  - by repeat constructor.
  - case_decide; constructor; done.
Qed.

Lemma dict_del_Forall (P : V -> Prop) key d :
  Forall (fun item => P item.2) d ->
  Forall (fun item => P item.2) (dict_del key d).
Proof.
  induction 1 as [|[k v0] d Hk Hd IH]; simpl; [done|].
  case_decide; [done|]. by constructor.
Qed.

Lemma dict_get_Forall (P : V -> Prop) key v d :
  Forall (fun item => P item.2) d -> dict_get key d = Some v -> P v.
Proof.
  intros Hall Hget. apply dict_get_Some_elem in Hget.
  rewrite Forall_forall in Hall. apply (Hall _ Hget).
Qed.

End PyDictFacts.

(** ** [Api]: the invariant *)

Lemma create_tunnel_success_url o p st u lg :
  fst (create_tunnel o p st) = Returns true u lg ->
  exists url, u = Some url /\ is_public_url url = true.
Proof.
  destruct (create_tunnel_cases o p st)
    as [(proc & url & lg' & _ & Hurl & ->)
       |(r & es & evs & -> & [->|[lg' ->]] & _)]; simpl; [|done..].
  intros [= <- <-]. by exists url.
Qed.

Lemma entry_ok_set_status s e :
  s <> Api.Active -> entry_ok e -> entry_ok (Api.set_status s e).
Proof. intros Hs [Hh _]. by split. Qed.

Lemma entry_ok_not_created lg e :
  entry_ok e -> entry_ok (Api.not_created lg e).
Proof. intros [Hh _]. by split. Qed.

Lemma entry_ok_monitored stamp h pg text e :
  0 <= h <= 100 -> entry_ok e -> entry_ok (Api.monitored stamp h pg text e).
Proof.
  intros Hh [_ Hurl]. split; [done|]. simpl.
  destruct (String.eqb text "Process terminated"); [done|]. exact Hurl.
Qed.

Lemma api_ok_create_tunnel stamp now p a :
  api_ok a -> api_ok (snd (Api.create_tunnel stamp now p a)).
Proof.
  intros (Hdup & Hall & Hm). unfold Api.create_tunnel.
  destruct (dict_get p (Api.port_data a)); [done|].
  split; [|split]; simpl; [by apply dict_set_NoDup| |done].
  apply dict_set_Forall; [|done]. split; simpl; [lia|done].
Qed.

Lemma api_ok_create_tunnel_thread o p a :
  api_ok a -> api_ok (Api.create_tunnel_thread o p a).
Proof.
  intros (Hdup & Hall & Hm). unfold Api.create_tunnel_thread.
  pose proof (manager_ok_create_tunnel o p _ Hm) as Hm'.
  pose proof (create_tunnel_success_url o p (Api.tunnel_manager a)) as Hurl.
  destruct (create_tunnel o p (Api.tunnel_manager a)) as [result m].
  simpl in Hm', Hurl. destruct result as [ok u lg|]; [|done].
  simpl. destruct (dict_get p (Api.port_data a)) as [e|] eqn:He; [|done].
  destruct ok.
  - destruct (Hurl u lg eq_refl) as (url & -> & Hok).
    split; [|split]; simpl; [by apply dict_set_NoDup| |done].
    apply dict_set_Forall; [|done]. split; simpl; [lia|]. by exists url.
  - split; [|split]; simpl; [by apply dict_set_NoDup| |done].
    apply dict_set_Forall; [|done]. apply entry_ok_not_created.
    by apply (dict_get_Forall entry_ok p e (Api.port_data a)).
Qed.

Lemma api_ok_terminate_tunnel p a :
  api_ok a -> api_ok (snd (Api.terminate_tunnel p a)).
Proof.
  intros (Hdup & Hall & Hm). unfold Api.terminate_tunnel.
  destruct (dict_get p (Api.port_data a)) as [e|] eqn:He; [|done].
  split; [|split]; simpl; [by apply dict_set_NoDup| |done].
  apply dict_set_Forall; [|done]. apply entry_ok_set_status; [done|].
  by apply (dict_get_Forall entry_ok p e (Api.port_data a)).
Qed.

Lemma api_ok_terminate_thread o p a :
  api_ok a -> api_ok (Api.terminate_thread o p a).
Proof.
  intros (Hdup & Hall & Hm). unfold Api.terminate_thread.
  pose proof (manager_ok_terminate_tunnel o p _ Hm) as Hm'.
  destruct (terminate_tunnel o p (Api.tunnel_manager a)) as [flag m].
  split; [|split]; simpl; [by apply dict_del_NoDup| |done].
  by apply dict_del_Forall.
Qed.

Lemma api_ok_terminate_each ports a :
  api_ok a ->
  api_ok (fold_left (fun a port => snd (Api.terminate_tunnel port a)) ports a).
Proof.
  revert a. induction ports as [|p ports IH]; intros a Hok; [done|].
  simpl. apply IH. by apply api_ok_terminate_tunnel.
Qed.

Lemma api_ok_terminate_all_tunnels a :
  api_ok a -> api_ok (snd (Api.terminate_all_tunnels a)).
Proof.
  intros Hok. unfold Api.terminate_all_tunnels.
  destruct (map fst (Api.port_data a)) as [|p ports] eqn:Hports; [done|].
  simpl snd. by apply (api_ok_terminate_each (p :: ports)).
Qed.

Lemma api_ok_monitor o stamp p a :
  api_ok a -> api_ok (snd (Api.monitor o stamp p a)).
Proof.
  intros (Hdup & Hall & Hm). unfold Api.monitor.
  destruct (dict_get p (Api.port_data a)) as [e|] eqn:He; [|done].
  destruct (Api.ui_status e); try done.
  pose proof (manager_ok_get_tunnel_stats o p _ Hm) as Hm'.
  pose proof (get_tunnel_stats_health o p (Api.tunnel_manager a)) as Hh.
  destruct (get_tunnel_stats o p (Api.tunnel_manager a))
    as [[[h pg] text] m].
  simpl in *. rewrite He.
  split; [|split]; simpl; [by apply dict_set_NoDup| |done].
  apply dict_set_Forall; [|done]. apply entry_ok_monitored; [done|].
  by apply (dict_get_Forall entry_ok p e (Api.port_data a)).
Qed.

Lemma api_ok_run_console_command stamp now line a :
  api_ok a -> api_ok (snd (Api.run_console_command stamp now line a)).
Proof.
  intros Hok. unfold Api.run_console_command.
  destruct (partition_slashes line) as [[cmd sep] arg].
  repeat match goal with
         | |- context [if ?b then _ else _] => destruct b
         end; try done.
  - pose proof (api_ok_create_tunnel stamp now (strip arg) a Hok) as H.
    by destruct (Api.create_tunnel stamp now (strip arg) a).
  - pose proof (api_ok_terminate_tunnel (strip arg) a Hok) as H.
    by destruct (Api.terminate_tunnel (strip arg) a).
  - by apply api_ok_terminate_all_tunnels.
Qed.

(** X20: every operation of Api keeps port_data and the manager well
    formed: a port has one entry, the health of an entry lies between 0
    and 100, an entry shown as active holds a URL of the pattern, and
    the live map of the manager keeps its own invariant. This holds for
    create_tunnel and its thread, terminate_tunnel and its thread,
    terminate_all_tunnels, a turn of the monitor and any console
    command. *)
Theorem api_ok_invariant a :
  api_ok a ->
  (forall stamp now p, api_ok (snd (Api.create_tunnel stamp now p a))) /\
  (forall o p, api_ok (Api.create_tunnel_thread o p a)) /\
  (forall p, api_ok (snd (Api.terminate_tunnel p a))) /\
  (forall o p, api_ok (Api.terminate_thread o p a)) /\
  api_ok (snd (Api.terminate_all_tunnels a)) /\
  (forall o stamp p, api_ok (snd (Api.monitor o stamp p a))) /\
  (forall stamp now line,
     api_ok (snd (Api.run_console_command stamp now line a))).
Proof.
  intros Hok.
  split; [intros stamp now p; by apply api_ok_create_tunnel|].
  split; [intros o p; by apply api_ok_create_tunnel_thread|].
  split; [intros p; by apply api_ok_terminate_tunnel|].
  split; [intros o p; by apply api_ok_terminate_thread|].
  split; [by apply api_ok_terminate_all_tunnels|].
  split; [intros o stamp p; by apply api_ok_monitor|].
  intros stamp now line. by apply api_ok_run_console_command.
Qed.

Lemma fresh_api_ok : api_ok fresh_api.
Proof.
  split; [apply NoDup_nil_2|]. split; [constructor|].
  intros key d. simpl. by rewrite lookup_empty.
Defined.

Lemma api_ok_invariant_witness :
  api_ok fresh_api /\ api_ok creating_api /\ api_ok active_api.
Proof.
  split; [exact fresh_api_ok|].
  destruct (api_ok_invariant fresh_api fresh_api_ok)
    as (_ & _ & _ & _ & _ & _ & Hconsole).
  pose proof (Hconsole "12:00:00" 1700000000000000 "run//5000") as Hcreating.
  split; [exact Hcreating|].
  destruct (api_ok_invariant creating_api Hcreating) as (_ & Hthread & _).
  apply Hthread.
Defined.

(** ** [Api]: creation *)

Lemma api_create_tunnel_fresh stamp now p a :
  dict_get p (Api.port_data a) = None ->
  Api.create_tunnel stamp now p a
  = ({| Api.success := true;
        Api.message := Some ("Creating tunnel on port " +:+ p) |},
     {| Api.tunnel_manager := Api.tunnel_manager a;
        Api.port_data :=
          Api.port_data a ++ [(p, Api.creating_entry stamp now p)];
        Api.started := Api.started a ++ [Api.CreateThread p];
        Api.opened := Api.opened a |}).
Proof.
  intros Hfree. unfold Api.create_tunnel. rewrite Hfree.
  unfold Api.start, Api.with_port_data. simpl.
  by rewrite dict_set_absent.
Qed.

Lemma api_create_tunnel_present stamp now p a :
  is_Some (dict_get p (Api.port_data (snd (Api.create_tunnel stamp now p a)))).
Proof.
  unfold Api.create_tunnel.
  destruct (dict_get p (Api.port_data a)) as [e|] eqn:He; simpl.
  - rewrite He. by eexists.
  - rewrite dict_get_set_eq. by eexists.
Qed.

(** X21: Api.create_tunnel refuses a port that has an entry, whatever its
    status, and leaves the state as it is; so of two calls in a row for
    one port the second is always refused. A port without an entry gets
    one at the end of port_data, in the state "creating", and one thread
    is started; the manager is not touched by the call itself. *)
Theorem api_create_tunnel_rejects_duplicate stamp now stamp' now' p a :
  let a1 := snd (Api.create_tunnel stamp now p a) in
  Api.create_tunnel stamp' now' p a1
  = ({| Api.success := false;
        Api.message := Some ("Tunnel on port " +:+ p
                             +:+ " already exists or is processing.") |},
     a1) /\
  (is_Some (dict_get p (Api.port_data a)) -> a1 = a) /\
  (dict_get p (Api.port_data a) = None ->
   Api.port_data a1 = Api.port_data a ++ [(p, Api.creating_entry stamp now p)]
   /\ Api.started a1 = Api.started a ++ [Api.CreateThread p]
   /\ Api.tunnel_manager a1 = Api.tunnel_manager a).
Proof.
  intros a1. subst a1. split; [|split].
  - destruct (api_create_tunnel_present stamp now p a) as [e He].
    unfold Api.create_tunnel at 1. by rewrite He.
  - intros [e He]. unfold Api.create_tunnel. by rewrite He.
  - intros Hfree. by rewrite api_create_tunnel_fresh.
Qed.

Lemma api_create_tunnel_rejects_duplicate_witness :
  dict_get "5000" (Api.port_data fresh_api) = None /\
  Api.success
    (fst (Api.create_tunnel "12:00:01" 1 "5000"
            (snd (Api.create_tunnel "12:00:00" 0 "5000" fresh_api))))
  = false /\
  ports_of (snd (Api.create_tunnel "12:00:00" 0 "5000" fresh_api))
  = ["5000"].
Proof.
  split; [reflexivity|].
  destruct (api_create_tunnel_rejects_duplicate
              "12:00:00" 0 "12:00:01" 1 "5000" fresh_api)
    as (Hsecond & _ & Hfresh).
  rewrite Hsecond. split; [reflexivity|].
  unfold ports_of. destruct (Hfresh eq_refl) as (-> & _). reflexivity.
Defined.

(** X22: for a port that had no entry, when the thread of the creation
    ends, the entry tells what the manager returned: after a success it
    is "active" with health 100, the URL the manager returned and
    registered in its live map, and a monitor is started; after a
    failure it is "error" and no monitor is started; in both cases its
    logs are the line of the start followed by the logs the manager
    returned. While the manager does not return the entry stays
    "creating". *)
Theorem api_create_then_thread stamp now o p a :
  dict_get p (Api.port_data a) = None ->
  let a1 := snd (Api.create_tunnel stamp now p a) in
  let a2 := Api.create_tunnel_thread o p a1 in
  let e0 := Api.creating_entry stamp now p in
  Api.tunnel_manager a2 = snd (create_tunnel o p (Api.tunnel_manager a)) /\
  match fst (create_tunnel o p (Api.tunnel_manager a)) with
  | Returns true u lg =>
      dict_get p (Api.port_data a2) = Some (Api.created u lg e0) /\
      Api.started a2 = Api.started a1 ++ [Api.MonitorThread p] /\
      exists url d,
        u = Some url /\
        active_tunnels (Api.tunnel_manager a2) !! p = Some d /\
        public_url d = url
  | Returns false u lg =>
      dict_get p (Api.port_data a2) = Some (Api.not_created lg e0) /\
      Api.started a2 = Api.started a1
  | NeverReturns =>
      dict_get p (Api.port_data a2) = Some e0 /\
      Api.started a2 = Api.started a1
  end.
Proof.
  intros Hfree a1 a2 e0. subst a2 a1 e0.
  rewrite api_create_tunnel_fresh by done. simpl.
  unfold Api.create_tunnel_thread. simpl.
  pose proof (create_tunnel_success_state o p (Api.tunnel_manager a))
    as Hstate.
  destruct (create_tunnel o p (Api.tunnel_manager a)) as [result m].
  simpl in Hstate. destruct result as [ok u lg|]; simpl.
  - rewrite <- (dict_set_absent p _ (Api.port_data a)) by done.
    rewrite dict_get_set_eq. destruct ok; simpl.
    + split; [done|]. rewrite dict_get_set_eq.
      split; [done|]. split; [done|].
      destruct (Hstate u lg eq_refl) as (proc & url & -> & _ & ->).
      eexists url, _. split; [done|]. simpl.
      split; [apply lookup_insert_eq|done].
    + split; [done|]. by rewrite dict_get_set_eq.
  - split; [done|].
    rewrite <- (dict_set_absent p _ (Api.port_data a)) by done.
    by rewrite dict_get_set_eq.
Qed.

Lemma api_create_then_thread_witness :
  dict_get "5000" (Api.port_data fresh_api) = None /\
  Api.ui_status
    <$> dict_get "5000"
          (Api.port_data
             (Api.create_tunnel_thread prompt_url "5000"
                (snd (Api.create_tunnel "12:00:00" 0 "5000" fresh_api))))
  = Some Api.Active.
Proof.
  split; [reflexivity|].
  destruct (api_create_then_thread "12:00:00" 0 prompt_url "5000" fresh_api
              eq_refl) as [_ Hcase].
  assert (Hok : fst (create_tunnel prompt_url "5000"
                       (Api.tunnel_manager fresh_api))
                = Returns true (Some "https://abc-def.trycloudflare.com")
                    (stamped prompt_url 0
                       [command_line empty_state "5000"; starting_line;
                        url_line;
                        "Public URL found: https://abc-def.trycloudflare.com"]))
    by (vm_compute; reflexivity).
  rewrite Hok in Hcase. destruct Hcase as [-> _]. reflexivity.
Defined.

(** X23: when the entry of the port is gone by the time the creation
    returns (the port was terminated while it was being created), the
    thread leaves port_data alone and starts no monitor, and a tunnel
    that the manager created stays registered in its live map with its
    process running: the only effects were its spawn and the start of
    its log reader. *)
Theorem api_create_thread_after_cancel o p a u lg :
  dict_get p (Api.port_data a) = None ->
  fst (create_tunnel o p (Api.tunnel_manager a)) = Returns true u lg ->
  let a' := Api.create_tunnel_thread o p a in
  Api.port_data a' = Api.port_data a /\
  Api.started a' = Api.started a /\
  is_Some (active_tunnels (Api.tunnel_manager a') !! p) /\
  exists proc,
    spawned_process o = Some proc /\
    effects (Api.tunnel_manager a')
    = effects (Api.tunnel_manager a)
      ++ [Spawn (command (Api.tunnel_manager a) p); StartLogReader proc p].
Proof.
  intros Hgone Hok a'. subst a'. unfold Api.create_tunnel_thread.
  destruct (create_tunnel_success_state o p (Api.tunnel_manager a) u lg Hok)
    as (proc & url & -> & Hproc & Hstate).
  destruct (create_tunnel o p (Api.tunnel_manager a)) as [result m].
  simpl in Hok, Hstate. subst result m. simpl. rewrite Hgone. simpl.
  split; [done|]. split; [done|].
  split; [rewrite lookup_insert_eq; by eexists|].
  by exists proc.
Qed.

Lemma api_create_thread_after_cancel_witness :
  dict_get "5000" (Api.port_data fresh_api) = None /\
  Api.port_data (Api.create_tunnel_thread prompt_url "5000" fresh_api) = [] /\
  is_Some (active_tunnels
             (Api.tunnel_manager
                (Api.create_tunnel_thread prompt_url "5000" fresh_api))
           !! "5000").
Proof.
  split; [reflexivity|].
  destruct (api_create_thread_after_cancel prompt_url "5000" fresh_api
              (Some "https://abc-def.trycloudflare.com")
              (stamped prompt_url 0
                 [command_line empty_state "5000"; starting_line; url_line;
                  "Public URL found: https://abc-def.trycloudflare.com"]))
    as (Hdata & _ & Hreg & _);
    [reflexivity|vm_compute; reflexivity|].
  by split.
Defined.

(** ** [Api]: termination *)

(** X24: for a port that has an entry, Api.terminate_tunnel marks the
    entry "terminating" and starts one thread; when that thread ends,
    whatever the manager returned, the port has no entry in port_data
    and no record in the live map of the manager, and the entries and
    records of all other ports, and their order, are as before. *)
Theorem api_terminate_removes o p a :
  is_Some (dict_get p (Api.port_data a)) ->
  let a1 := snd (Api.terminate_tunnel p a) in
  let a2 := Api.terminate_thread o p a1 in
  (Api.ui_status <$> dict_get p (Api.port_data a1) = Some Api.Terminating
   /\ Api.started a1 = Api.started a ++ [Api.TerminateThread p]) /\
  dict_get p (Api.port_data a2) = None /\
  active_tunnels (Api.tunnel_manager a2) !! p = None /\
  ports_of a2 = filter (fun q => q <> p) (ports_of a) /\
  (forall q, q <> p ->
     dict_get q (Api.port_data a2) = dict_get q (Api.port_data a) /\
     active_tunnels (Api.tunnel_manager a2) !! q
     = active_tunnels (Api.tunnel_manager a) !! q).
Proof.
  intros [e He] a1 a2. subst a2 a1.
  unfold Api.terminate_tunnel. rewrite He. simpl.
  unfold Api.terminate_thread. simpl.
  pose proof (terminate_tunnel_map o p (Api.tunnel_manager a)) as Hmap.
  destruct (terminate_tunnel o p (Api.tunnel_manager a)) as [flag m].
  simpl in *. rewrite dict_get_set_eq.
  split; [done|]. split; [apply dict_get_del_eq|].
  split; [rewrite Hmap; apply lookup_delete_eq|].
  split.
  - unfold ports_of. simpl. rewrite dict_del_keys, dict_set_keys; [done|].
    by exists e.
  - intros q Hq. rewrite dict_get_del_ne, dict_get_set_ne by done.
    split; [done|]. rewrite Hmap. by apply lookup_delete_ne.
Qed.

Lemma api_terminate_removes_witness :
  is_Some (dict_get "5000" (Api.port_data active_api)) /\
  ports_of
    (Api.terminate_thread quiet_teardown "5000"
       (snd (Api.terminate_tunnel "5000" active_api))) = [] /\
  active_tunnels
    (Api.tunnel_manager
       (Api.terminate_thread quiet_teardown "5000"
          (snd (Api.terminate_tunnel "5000" active_api)))) !! "5000" = None.
Proof.
  assert (Hin : is_Some (dict_get "5000" (Api.port_data active_api)))
    by (eexists; vm_compute; reflexivity).
  split; [exact Hin|].
  destruct (api_terminate_removes quiet_teardown "5000" active_api Hin)
    as (_ & _ & Hmanager & Hports & _).
  split; [rewrite Hports; vm_compute; reflexivity|exact Hmanager].
Defined.

Lemma dict_get_elem {V} (key : string) (d : list (string * V)) :
  key ∈ map fst d -> is_Some (dict_get key d).
Proof.
  intros Hin. destruct (dict_get key d) eqn:Hget; [by eexists|].
  by apply dict_get_None in Hget.
Qed.

Lemma api_terminate_tunnel_present p a :
  p ∈ ports_of a ->
  ports_of (snd (Api.terminate_tunnel p a)) = ports_of a /\
  Api.started (snd (Api.terminate_tunnel p a))
  = Api.started a ++ [Api.TerminateThread p] /\
  Api.tunnel_manager (snd (Api.terminate_tunnel p a)) = Api.tunnel_manager a.
Proof.
  intros [e He]%dict_get_elem. unfold Api.terminate_tunnel. rewrite He.
  simpl. split; [|done]. unfold ports_of. simpl.
  rewrite dict_set_keys; [done|by exists e].
Qed.

Lemma api_terminate_each ports a :
  (forall p, p ∈ ports -> p ∈ ports_of a) ->
  let a' := fold_left (fun a port => snd (Api.terminate_tunnel port a))
                      ports a in
  ports_of a' = ports_of a /\
  Api.started a' = Api.started a ++ map Api.TerminateThread ports /\
  Api.tunnel_manager a' = Api.tunnel_manager a.
Proof.
  revert a. induction ports as [|p ports IH]; intros a Hin; simpl.
  - by rewrite app_nil_r.
  - destruct (api_terminate_tunnel_present p a) as (Hports & Hstarted & Hm).
    { apply Hin. apply elem_of_cons. by left. }
    destruct (IH (snd (Api.terminate_tunnel p a))) as (IH1 & IH2 & IH3).
    { intros q Hq. rewrite Hports. apply Hin. apply elem_of_cons.
      by right. }
    rewrite IH1, IH2, IH3, Hports, Hstarted, Hm.
    by rewrite <- app_assoc.
Qed.

Lemma run_terminate_threads_data answers ports a :
  Api.port_data (run_terminate_threads answers ports a)
  = fold_left (fun d port => dict_del port d) ports (Api.port_data a).
Proof.
  unfold run_terminate_threads. revert a.
  induction ports as [|p ports IH]; intros a; [done|].
  simpl. rewrite IH. unfold Api.terminate_thread.
  by destruct (terminate_tunnel (answers p) p (Api.tunnel_manager a)).
Qed.

Lemma run_terminate_threads_manager answers ports a :
  active_tunnels (Api.tunnel_manager (run_terminate_threads answers ports a))
  = fold_left (fun m port => delete port m) ports
      (active_tunnels (Api.tunnel_manager a)).
Proof.
  unfold run_terminate_threads. revert a.
  induction ports as [|p ports IH]; intros a; [done|].
  simpl. rewrite IH. unfold Api.terminate_thread.
  pose proof (terminate_tunnel_map (answers p) p (Api.tunnel_manager a))
    as Hmap.
  destruct (terminate_tunnel (answers p) p (Api.tunnel_manager a)).
  simpl in *. by rewrite Hmap.
Qed.

Lemma dict_del_all {V} ports (d : list (string * V)) :
  (forall key, key ∈ map fst d -> key ∈ ports) ->
  fold_left (fun d port => dict_del port d) ports d = [].
Proof.
  revert d. induction ports as [|p ports IH]; intros d Hin; simpl.
  - destruct d as [|[k v] d]; [done|].
    exfalso. apply (not_elem_of_nil k). apply Hin. simpl.
    apply elem_of_cons. by left.
  - apply IH. intros key. rewrite dict_del_keys.
    intros [Hne Hkey]%list_elem_of_filter.
    apply Hin in Hkey. apply elem_of_cons in Hkey as [->|Hkey]; done.
Qed.

Lemma delete_all_lookup (m : gmap string tunnel) ports p :
  p ∈ ports -> fold_left (fun m port => delete port m) ports m !! p = None.
Proof.
  assert (Hkeep : forall ports (m : gmap string tunnel),
            m !! p = None ->
            fold_left (fun m port => delete port m) ports m !! p = None).
  { clear. intros ports. induction ports as [|q ports IH]; intros m Hm;
      [done|].
    simpl. apply IH. rewrite lookup_delete. by case_decide. }
  revert m. induction ports as [|q ports IH]; intros m Hin.
  - by apply elem_of_nil in Hin.
  - simpl. apply elem_of_cons in Hin as [->|Hin].
    + apply Hkeep, lookup_delete_eq.
    + by apply IH.
Qed.

(** X25: terminate_all_tunnels answers with the number of entries, or
    that there are none, marks nothing in the manager and starts one
    thread per port, in the order of port_data; once these threads have
    run, whatever each teardown met, port_data is empty and none of the
    ports is left in the live map of the manager. *)
Theorem api_terminate_all answers a :
  let a1 := snd (Api.terminate_all_tunnels a) in
  let a2 := run_terminate_threads answers (ports_of a) a1 in
  fst (Api.terminate_all_tunnels a)
  = match ports_of a with
    | [] => "No active tunnels to terminate."
    | _ => "Termination signal sent to "
           +:+ str_int (Z.of_nat (length (ports_of a))) +:+ " tunnels."
    end /\
  Api.started a1 = Api.started a ++ map Api.TerminateThread (ports_of a) /\
  Api.tunnel_manager a1 = Api.tunnel_manager a /\
  Api.port_data a2 = [] /\
  forall p, p ∈ ports_of a ->
    active_tunnels (Api.tunnel_manager a2) !! p = None.
Proof.
  intros a1 a2. subst a2 a1.
  destruct (api_terminate_each (ports_of a) a) as (Hports & Hstarted & Hm);
    [done|].
  assert (Hall : snd (Api.terminate_all_tunnels a)
                 = fold_left
                     (fun a port => snd (Api.terminate_tunnel port a))
                     (ports_of a) a).
  { unfold Api.terminate_all_tunnels, ports_of.
    by destruct (map fst (Api.port_data a)). }
  split; [|rewrite Hall; split; [done|split; [done|split]]].
  - unfold Api.terminate_all_tunnels, ports_of.
    by destruct (map fst (Api.port_data a)).
  - rewrite run_terminate_threads_data. apply dict_del_all.
    intros key Hkey. fold (ports_of (fold_left
      (fun a port => snd (Api.terminate_tunnel port a)) (ports_of a) a))
      in Hkey. by rewrite Hports in Hkey.
  - intros p Hp. rewrite run_terminate_threads_manager.
    by apply delete_all_lookup.
Qed.

(** ** [Api]: the monitor *)

Lemma get_tunnel_stats_elsewhere o p st q :
  q <> p ->
  active_tunnels (snd (get_tunnel_stats o p st)) !! q = active_tunnels st !! q.
Proof.
  intros Hq. destruct (active_tunnels st !! p) as [d|] eqn:Hd.
  - destruct (poll o) as [|code|msg] eqn:Hpoll.
    + rewrite (get_tunnel_stats_running o p st d Hd Hpoll). simpl.
      by rewrite lookup_insert_ne.
    + unfold get_tunnel_stats. rewrite Hd, Hpoll. simpl.
      rewrite terminate_tunnel_map. by rewrite lookup_delete_ne.
    + unfold get_tunnel_stats. by rewrite Hd, Hpoll.
  - unfold get_tunnel_stats. by rewrite Hd.
Qed.

(** X26: when the process of a tunnel shown as active has exited, one turn
    of the monitor makes its entry "error" with health 0, ping 0 and the
    text "Process terminated", appends one line to its logs, and leaves
    the port out of the live map of the manager; the turn after that
    leaves the loop, so that no further probe is made. *)
Theorem api_monitor_detects_exit o stamp p a e d code :
  dict_get p (Api.port_data a) = Some e ->
  Api.ui_status e = Api.Active ->
  active_tunnels (Api.tunnel_manager a) !! p = Some d ->
  poll o = Exited code ->
  let a1 := snd (Api.monitor o stamp p a) in
  dict_get p (Api.port_data a1)
  = Some {| Api.ui_status := Api.Failed;
            Api.ui_public_url := Api.ui_public_url e;
            Api.ui_health := 0;
            Api.ui_ping := 0;
            Api.ui_logs :=
              Api.ui_logs e
              ++ ["[" +:+ stamp +:+ "] Connection lost. Process terminated."];
            Api.ui_creation_time := Api.ui_creation_time e;
            Api.ui_status_text := Some "Process terminated" |} /\
  active_tunnels (Api.tunnel_manager a1) !! p = None /\
  forall turns, Api.monitor_loop turns p a1 = a1.
Proof.
  intros He Hactive Hd Hpoll a1. subst a1.
  assert (Hturn : snd (Api.monitor o stamp p a)
                  = Api.with_port_data
                      (dict_set p
                         (Api.monitored stamp 0 0 "Process terminated" e)
                         (Api.port_data a))
                      (Api.with_manager
                         (snd (terminate_tunnel (cleanup o) p
                                 (Api.tunnel_manager a))) a)).
  { unfold Api.monitor. rewrite He, Hactive.
    unfold get_tunnel_stats. rewrite Hd, Hpoll. simpl. by rewrite He. }
  rewrite Hturn. simpl. rewrite dict_get_set_eq.
  split; [done|]. split; [apply terminate_tunnel_absent|].
  intros [|[o' stamp'] turns]; [done|].
  simpl. unfold Api.monitor. simpl. by rewrite dict_get_set_eq.
Qed.

Lemma api_monitor_detects_exit_witness :
  Api.ui_status <$> dict_get "5000" (Api.port_data active_api)
  = Some Api.Active /\
  Api.ui_status
    <$> dict_get "5000"
          (Api.port_data
             (snd (Api.monitor (stats_of (Exited 1) switching_protocols)
                     "12:00:09" "5000" active_api)))
  = Some Api.Failed.
Proof.
  split; [vm_compute; reflexivity|].
  destruct (dict_get "5000" (Api.port_data active_api)) as [e|] eqn:He;
    [|vm_compute in He; discriminate].
  destruct (active_tunnels (Api.tunnel_manager active_api) !! "5000")
    as [d|] eqn:Hd; [|vm_compute in Hd; discriminate].
  destruct (api_monitor_detects_exit (stats_of (Exited 1) switching_protocols)
              "12:00:09" "5000" active_api e d 1 He) as (-> & _);
    [vm_compute in He; injection He as <-; reflexivity|exact Hd
    |reflexivity|reflexivity].
Defined.

(** X27: a turn of the monitor of one port changes nothing but the entry
    of that port and the record of that port in the manager: the ports
    of port_data and their order, the entries and records of the other
    ports, the threads started and the pages opened are as before. The
    loop goes on exactly when the entry is there and "active"; when it
    is not, the turn makes no probe and changes nothing. *)
Theorem api_monitor_frame o stamp p a :
  let goes_on := fst (Api.monitor o stamp p a) in
  let a1 := snd (Api.monitor o stamp p a) in
  ports_of a1 = ports_of a /\
  Api.started a1 = Api.started a /\
  Api.opened a1 = Api.opened a /\
  (forall q, q <> p ->
     dict_get q (Api.port_data a1) = dict_get q (Api.port_data a) /\
     active_tunnels (Api.tunnel_manager a1) !! q
     = active_tunnels (Api.tunnel_manager a) !! q) /\
  (goes_on = true
   <-> Api.ui_status <$> dict_get p (Api.port_data a) = Some Api.Active) /\
  (goes_on = false -> a1 = a).
Proof.
  intros goes_on a1. subst goes_on a1. unfold Api.monitor.
  destruct (dict_get p (Api.port_data a)) as [e|] eqn:He; simpl;
    [|by repeat split].
  destruct (Api.ui_status e) eqn:Hstatus; simpl;
    try (repeat split; done).
  pose proof (get_tunnel_stats_elsewhere o p (Api.tunnel_manager a)) as Hm.
  destruct (get_tunnel_stats o p (Api.tunnel_manager a))
    as [[[h pg] text] m].
  simpl in *. rewrite He. simpl.
  split; [unfold ports_of; simpl; rewrite dict_set_keys; [done|by exists e]|].
  split; [done|]. split; [done|]. split; [|by split].
  intros q Hq. rewrite dict_get_set_ne by done. split; [done|].
  by apply Hm.
Qed.

Lemma api_monitor_frame_witness :
  fst (Api.monitor (stats_of StillRunning switching_protocols) "12:00:09"
         "5000" creating_api) = false /\
  snd (Api.monitor (stats_of StillRunning switching_protocols) "12:00:09"
         "5000" creating_api) = creating_api.
Proof.
  destruct (api_monitor_frame (stats_of StillRunning switching_protocols)
              "12:00:09" "5000" creating_api)
    as (_ & _ & _ & _ & _ & Hstop).
  split; [reflexivity|]. apply Hstop. reflexivity.
Defined.

(** ** [Api]: the console *)

Lemma api_create_tunnel_manager stamp now p a :
  Api.tunnel_manager (snd (Api.create_tunnel stamp now p a))
  = Api.tunnel_manager a /\
  Api.opened (snd (Api.create_tunnel stamp now p a)) = Api.opened a.
Proof.
  unfold Api.create_tunnel. by destruct (dict_get p (Api.port_data a)).
Qed.

Lemma api_terminate_tunnel_manager p a :
  Api.tunnel_manager (snd (Api.terminate_tunnel p a)) = Api.tunnel_manager a /\
  Api.opened (snd (Api.terminate_tunnel p a)) = Api.opened a.
Proof.
  unfold Api.terminate_tunnel. by destruct (dict_get p (Api.port_data a)).
Qed.

Lemma api_terminate_each_manager ports a :
  Api.tunnel_manager
    (fold_left (fun a port => snd (Api.terminate_tunnel port a)) ports a)
  = Api.tunnel_manager a /\
  Api.opened
    (fold_left (fun a port => snd (Api.terminate_tunnel port a)) ports a)
  = Api.opened a.
Proof.
  revert a. induction ports as [|q ports IH]; intros a; [done|].
  simpl. destruct (IH (snd (Api.terminate_tunnel q a))) as [-> ->].
  apply api_terminate_tunnel_manager.
Qed.

Lemma api_terminate_all_manager a :
  Api.tunnel_manager (snd (Api.terminate_all_tunnels a)) = Api.tunnel_manager a
  /\ Api.opened (snd (Api.terminate_all_tunnels a)) = Api.opened a.
Proof.
  unfold Api.terminate_all_tunnels.
  destruct (map fst (Api.port_data a)) as [|p ports]; [done|].
  simpl snd. apply (api_terminate_each_manager (p :: ports)).
Qed.

(** X28: a console command never acts on the manager itself: for every
    command line the state of the manager and the pages opened are as
    before (tunnels are created and terminated by the threads it
    starts). The whole state is unchanged unless the command is stopall,
    or run or stop with an argument that isdigit accepts; run and stop
    with any other argument, the empty one included, only answer with
    the error text. *)
Theorem run_console_command_frame stamp now line a :
  let result := Api.run_console_command stamp now line a in
  let cmd := console_cmd line in
  let arg := console_arg line in
  Api.tunnel_manager (snd result) = Api.tunnel_manager a /\
  Api.opened (snd result) = Api.opened a /\
  (cmd <> "stopall" ->
   (cmd <> "run" /\ cmd <> "stop") \/ isdigit arg = false ->
   snd result = a) /\
  (cmd = "run" -> isdigit arg = false ->
   fst result = "Error: 'run' requires a numeric port. (e.g., run//5000)") /\
  (cmd = "stop" -> isdigit arg = false ->
   fst result = "Error: 'stop' requires a numeric port. (e.g., stop//5000)") /\
  (cmd = "run" -> isdigit arg = true ->
   snd result = snd (Api.create_tunnel stamp now arg a)).
Proof.
  intros result cmd arg. subst result cmd arg.
  unfold Api.run_console_command, console_cmd, console_arg.
  destruct (partition_slashes line) as [[c sep] r]. simpl.
  destruct (String.eqb_spec (lower (strip c)) "run") as [Hrun|Hrun].
  { rewrite Hrun. destruct (isdigit (strip r)) eqn:Hdigit.
    - pose proof (api_create_tunnel_manager stamp now (strip r) a)
        as [Hm Ho].
      destruct (Api.create_tunnel stamp now (strip r) a) as [resp a1].
      simpl in *. repeat split; try done. by intros _ [[? _]|?].
    - repeat split; try done. }
  destruct (String.eqb_spec (lower (strip c)) "stop") as [Hstop|Hstop].
  { rewrite Hstop. destruct (isdigit (strip r)) eqn:Hdigit.
    - pose proof (api_terminate_tunnel_manager (strip r) a) as [Hm Ho].
      destruct (Api.terminate_tunnel (strip r) a) as [resp a1].
      simpl in *. repeat split; try done. by intros _ [[_ ?]|?].
    - repeat split; try done. }
  destruct (String.eqb_spec (lower (strip c)) "stopall") as [Hall|Hall].
  { destruct (api_terminate_all_manager a) as [Hm Ho].
    repeat split; try done. }
  repeat match goal with
         | |- context [if ?b then _ else _] => destruct b
         end; repeat split; done.
Qed.

Lemma run_console_command_frame_witness :
  console_cmd "  RUN //80a" = "run" /\
  isdigit (console_arg "  RUN //80a") = false /\
  Api.run_console_command "12:00:00" 0 "  RUN //80a" fresh_api
  = ("Error: 'run' requires a numeric port. (e.g., run//5000)", fresh_api).
Proof.
  assert (Hcmd : console_cmd "  RUN //80a" = "run")
    by (vm_compute; reflexivity).
  assert (Harg : isdigit (console_arg "  RUN //80a") = false)
    by (vm_compute; reflexivity).
  split; [exact Hcmd|]. split; [exact Harg|].
  destruct (run_console_command_frame "12:00:00" 0 "  RUN //80a" fresh_api)
    as (_ & _ & Hsame & Herror & _).
  apply injective_projections; simpl.
  - by apply Herror.
  - apply Hsame; [by rewrite Hcmd|by right].
Defined.

(** X29: in a well-formed state, open_public_url on a port shown as
    active succeeds and opens one page, at the URL of the entry, which
    is of the pattern; on a port that has no entry it opens nothing and
    answers that there is no public URL. *)
Theorem api_open_public_url p a :
  api_ok a ->
  (forall e, dict_get p (Api.port_data a) = Some e ->
     Api.ui_status e = Api.Active ->
     exists url,
       Api.ui_public_url e = Some url /\ is_public_url url = true /\
       Api.success (fst (Api.open_public_url p a)) = true /\
       Api.opened (snd (Api.open_public_url p a)) = Api.opened a ++ [url] /\
       Api.port_data (snd (Api.open_public_url p a)) = Api.port_data a) /\
  (dict_get p (Api.port_data a) = None ->
   Api.open_public_url p a
   = ({| Api.success := false;
         Api.message := Some "No public URL found" |}, a)).
Proof.
  intros (_ & Hall & _). split.
  - intros e He Hactive.
    destruct (dict_get_Forall entry_ok p e _ Hall He) as [_ Hurl].
    destruct (Hurl Hactive) as (url & Hu & Hok).
    exists url. unfold Api.open_public_url. rewrite He, Hu.
    destruct url as [|c url]; [vm_compute in Hok; discriminate|].
    simpl. split; [done|]. split; [exact Hok|]. by split.
  - intros Hnone. unfold Api.open_public_url. by rewrite Hnone.
Qed.

Lemma api_open_public_url_witness :
  api_ok active_api /\
  Api.opened (snd (Api.open_public_url "5000" active_api))
  = ["https://abc-def.trycloudflare.com"].
Proof.
  assert (Hok : api_ok active_api).
  { apply (api_ok_create_tunnel_thread prompt_url "5000" creating_api).
    apply (api_ok_run_console_command "12:00:00" 1700000000000000
             "run//5000" fresh_api fresh_api_ok). }
  split; [exact Hok|].
  destruct (api_open_public_url "5000" active_api Hok) as [Hactive _].
  destruct (dict_get "5000" (Api.port_data active_api)) as [e|] eqn:He;
    [|vm_compute in He; discriminate].
  destruct (Hactive e eq_refl) as (url & Hu & _ & _ & -> & _).
  - vm_compute in He. by injection He as <-.
  - vm_compute in He. injection He as <-. simpl in Hu.
    by injection Hu as <-.
Defined.
